(** * k-DOP volume kernel and axis optimizers: a shallow embedding

    The development follows the sources of the repository:
    - [kdop_volume.hh]: [kdop_trace_range], [kdop_distance],
      [create_tangent_space], [signed_angle], [calc_kdop_volume];
    - [sphere_optimizer.cc]: the perturb-and-shrink loop of [main] and the
      final snapping of the axes;
    - [image_optimizer.cc]: [find_kdop_volume] and the loop of [main].

    The numeric code is written once, over an interface [Scalar] of the
    arithmetic the C++ uses, and is read at two instances:
    - IEEE-754 binary32/binary64 ([SpecFloat], round to nearest even), which
      is what the program computes with;
    - exact rational arithmetic ([Q]), the idealisation in which the
      geometric statements (plane intersection, slab tracing, distance) are
      meant.
    [sqrt] and [atan2] come from the C library; they form the interface
    [Libm].  For IEEE arithmetic [sqrt] is the correctly rounded one,
    [atan2] stays a parameter. *)

From Stdlib Require Import ZArith QArith Qminmax Qabs List Bool Lia Lqa.
From Stdlib Require Import Permutation.
From Stdlib Require Import SpecFloat.
Import ListNotations.

Set Implicit Arguments.

(* ================================================================= *)
(** ** The arithmetic interface *)

Declare Scope scalar_scope.
Delimit Scope scalar_scope with S.

Class Scalar (T : Type) := {
  of_Z : Z -> T;                (* integer literals, [size_t] to floating *)
  add : T -> T -> T;
  sub : T -> T -> T;
  mul : T -> T -> T;
  div : T -> T -> T;
  opp : T -> T;
  ltb : T -> T -> bool;         (* the C++ [<]; [a > b] is [ltb b a] *)
  fabs : T -> T;                (* |x|: glm::abs and fabs; they differ
                                   only in the sign of a zero result,
                                   which nothing below observes *)
  FLT_MAX : T;
  lit_1e_7 : T;                 (* the literal 1e-7 *)
  lit_1e_5f : T;                (* the literal 1e-5f *)
  M_1_SQRT3 : T;                (* #define M_1_SQRT3 0.57735026918962576451 *)
  to_float : T -> T             (* conversion through [float], as in
                                   [dmat4 m = mat4(dvec4 ...)] *)
}.

Class Libm (T : Type) := {
  sqrt : T -> T;
  atan2 : T -> T -> T
}.

Infix "+" := add : scalar_scope.
Infix "-" := sub : scalar_scope.
Infix "*" := mul : scalar_scope.
Infix "/" := div : scalar_scope.
Notation "- x" := (opp x) : scalar_scope.
Infix "<?" := ltb : scalar_scope.
Notation "x >? y" := (ltb y x) (only parsing) : scalar_scope.

(* ================================================================= *)
(** ** GLM vectors and the GLM functions the sources call *)

Record vec2 (T : Type) := mk_vec2 { x2 : T; y2 : T }.
Record vec3 (T : Type) := mk_vec3 { vx : T; vy : T; vz : T }.
Record vec4 (T : Type) := mk_vec4 { x4 : T; y4 : T; z4 : T; w4 : T }.

Arguments mk_vec2 {T} _ _.
Arguments mk_vec3 {T} _ _ _.
Arguments mk_vec4 {T} _ _ _ _.

Section Glm.
Context {T : Type} {ST : Scalar T}.
Local Open Scope scalar_scope.

Definition zero : T := of_Z 0.
Definition one : T := of_Z 1.

(** glm::min(x, y) = (y < x) ? y : x and glm::max(x, y) = (x < y) ? y : x;
    std::min and std::max are the same functions. *)
Definition min (x y : T) : T := if y <? x then y else x.
Definition max (x y : T) : T := if x <? y then y else x.

(** [vec2] indexing, [v[0]] is [x] and [v[1]] is [y]. *)
Definition vec2_get (v : vec2 T) (i : nat) : T :=
  match i with O => x2 v | _ => y2 v end.

(** [vec3(s)]: all components equal. *)
Definition vec3_splat (s : T) : vec3 T := mk_vec3 s s s.

Definition vadd (a b : vec3 T) : vec3 T :=
  mk_vec3 (vx a + vx b) (vy a + vy b) (vz a + vz b).
Definition vsub (a b : vec3 T) : vec3 T :=
  mk_vec3 (vx a - vx b) (vy a - vy b) (vz a - vz b).
(** scalar * vector *)
Definition vscale (s : T) (a : vec3 T) : vec3 T :=
  mk_vec3 (s * vx a) (s * vy a) (s * vz a).
(** vector * scalar, the form [normalize] uses *)
Definition vmuls (a : vec3 T) (s : T) : vec3 T :=
  mk_vec3 (vx a * s) (vy a * s) (vz a * s).
(** vector / scalar, component by component *)
Definition vdivs (a : vec3 T) (s : T) : vec3 T :=
  mk_vec3 (vx a / s) (vy a / s) (vz a / s).

(** glm::dot on [vec3]: the products are summed left to right. *)
Definition dot (a b : vec3 T) : T :=
  (vx a * vx b + vy a * vy b) + vz a * vz b.

(** glm::cross *)
Definition cross (a b : vec3 T) : vec3 T :=
  mk_vec3 (vy a * vz b - vy b * vz a)
          (vz a * vx b - vz b * vx a)
          (vx a * vy b - vx b * vy a).

(** glm::normalize(v) = v * inversesqrt(dot(v, v)),
    inversesqrt(x) = 1 / sqrt(x). *)
Definition inversesqrt {LT : Libm T} (x : T) : T := one / sqrt x.
Definition normalize {LT : Libm T} (v : vec3 T) : vec3 T :=
  vmuls v (inversesqrt (dot v v)).

(** glm::determinant of a 4x4 matrix given by its columns [m0 .. m3];
    [m[i][j]] is component [j] of column [i]. *)
Definition determinant (m0 m1 m2 m3 : vec4 T) : T :=
  let SubFactor00 := z4 m2 * w4 m3 - z4 m3 * w4 m2 in
  let SubFactor01 := y4 m2 * w4 m3 - y4 m3 * w4 m2 in
  let SubFactor02 := y4 m2 * z4 m3 - y4 m3 * z4 m2 in
  let SubFactor03 := x4 m2 * w4 m3 - x4 m3 * w4 m2 in
  let SubFactor04 := x4 m2 * z4 m3 - x4 m3 * z4 m2 in
  let SubFactor05 := x4 m2 * y4 m3 - x4 m3 * y4 m2 in
  let DetCof0 :=
    (y4 m1 * SubFactor00 - z4 m1 * SubFactor01) + w4 m1 * SubFactor02 in
  let DetCof1 :=
    - ((x4 m1 * SubFactor00 - z4 m1 * SubFactor03) + w4 m1 * SubFactor04) in
  let DetCof2 :=
    (x4 m1 * SubFactor01 - y4 m1 * SubFactor03) + w4 m1 * SubFactor05 in
  let DetCof3 :=
    - ((x4 m1 * SubFactor02 - y4 m1 * SubFactor04) + z4 m1 * SubFactor05) in
  ((x4 m0 * DetCof0 + y4 m0 * DetCof1) + z4 m0 * DetCof2) + w4 m0 * DetCof3.

(** [mat4] column built from [dvec4(v, 1)]: every entry goes through
    [float]. *)
Definition mat4_column (v : vec3 T) : vec4 T :=
  mk_vec4 (to_float (vx v)) (to_float (vy v)) (to_float (vz v))
          (to_float one).
End Glm.

(* ================================================================= *)
(** ** kdop_volume.hh *)

Section Kernel.
Context {T : Type} {ST : Scalar T}.
Local Open Scope scalar_scope.

(** Arrays [axes] and [ranges] are lists read at indices below
    [axis_count]; a read past the end of the list (undefined in C++)
    yields the zero vector here. *)
Definition axis_at (axes : list (vec3 T)) (a : nat) : vec3 T :=
  nth a axes (vec3_splat zero).
Definition range_at (ranges : list (vec2 T)) (a : nat) : vec2 T :=
  nth a ranges (mk_vec2 zero zero).

(** One iteration of the loop of [kdop_trace_range]. *)
Definition trace_step (pos dir : vec3 T)
    (axes : list (vec3 T)) (ranges : list (vec2 T))
    (excluded_axes : nat * nat) (nf : T * T) (a : nat) : T * T :=
  let '(near, far) := nf in
  if (a =? fst excluded_axes)%nat || (a =? snd excluded_axes)%nat
  then (near, far)
  else
    let axis := axis_at axes a in
    let range := range_at ranges a in
    let proj_pos := dot pos axis in
    let d := dot dir axis in
    if fabs d <? lit_1e_7 then (near, far)
    else
      let inv_dir := one / d in
      let t0 := (x2 range - proj_pos) * inv_dir in
      let t1 := (y2 range - proj_pos) * inv_dir in
      let t_min := min t0 t1 in
      let t_max := max t0 t1 in
      (max near t_min, min far t_max).

Definition kdop_trace_range (pos dir : vec3 T) (axis_count : nat)
    (axes : list (vec3 T)) (ranges : list (vec2 T))
    (excluded_axes : nat * nat) : T * T :=
  fold_left (trace_step pos dir axes ranges excluded_axes)
            (seq 0 axis_count) (- FLT_MAX, FLT_MAX).

(** The per-axis term of [kdop_distance]. *)
Definition axis_distance (pos : vec3 T) (axis : vec3 T) (range : vec2 T)
    : T :=
  let proj_pos := dot pos axis in
  if proj_pos <? x2 range then x2 range - proj_pos
  else if proj_pos >? y2 range then proj_pos - y2 range
  else zero.

Definition distance_step (pos : vec3 T)
    (axes : list (vec3 T)) (ranges : list (vec2 T))
    (max_dist : T) (a : nat) : T :=
  let distance := axis_distance pos (axis_at axes a) (range_at ranges a) in
  if distance >? max_dist then distance else max_dist.

Definition kdop_distance (pos : vec3 T) (axis_count : nat)
    (axes : list (vec3 T)) (ranges : list (vec2 T)) : T :=
  fold_left (distance_step pos axes ranges) (seq 0 axis_count) zero.

(** The point on the edge line of plane [a] at offset [h1] and plane [b]
    at offset [h2] (lines 185-186 and 200-202 of [calc_kdop_volume]). *)
Definition edge_point (a_axis b_axis : vec3 T) (h1 h2 : T) : vec3 T :=
  let d := dot a_axis b_axis in
  let inv := one / (one - d * d) in
  let c1 := (h1 - h2 * d) * inv in
  let c2 := (h2 - h1 * d) * inv in
  vadd (vscale c1 a_axis) (vscale c2 b_axis).

(** [sides[i].vertices.push_back(v)] *)
Fixpoint push_back (sides : list (list (vec3 T))) (i : nat) (v : vec3 T)
    : list (list (vec3 T)) :=
  match sides, i with
  | [], _ => []
  | si :: rest, O => (si ++ [v]) :: rest
  | si :: rest, S i' => si :: push_back rest i' v
  end.

Definition epsilon : T := lit_1e_5f.

(** Body of the loop over the four offset combinations [i] of an axis
    pair [(a, b)]. *)
Definition edge_step (axis_count : nat)
    (axes : list (vec3 T)) (ranges : list (vec2 T)) (a b : nat)
    (sides : list (list (vec3 T))) (i : nat) : list (list (vec3 T)) :=
  let a_axis := axis_at axes a in
  let b_axis := axis_at axes b in
  let dir := cross a_axis b_axis in
  let a_high := (i mod 2)%nat in
  let b_high := (i / 2)%nat in
  let a_side := (a * 2 + a_high)%nat in
  let b_side := (b * 2 + b_high)%nat in
  let h1 := vec2_get (range_at ranges a) a_high in
  let h2 := vec2_get (range_at ranges b) b_high in
  let point := edge_point a_axis b_axis h1 h2 in
  let hits := kdop_trace_range point dir axis_count axes ranges (a, b) in
  if fst hits >? snd hits then sides
  else
    let va := vadd point (vscale (fst hits) dir) in
    let vb := vadd point (vscale (snd hits) dir) in
    let sides :=
      if kdop_distance va axis_count axes ranges <? epsilon
      then push_back (push_back sides a_side va) b_side va
      else sides in
    if kdop_distance vb axis_count axes ranges <? epsilon
    then push_back (push_back sides a_side vb) b_side vb
    else sides.

Definition pair_step (axis_count : nat)
    (axes : list (vec3 T)) (ranges : list (vec2 T)) (a : nat)
    (sides : list (list (vec3 T))) (b : nat) : list (list (vec3 T)) :=
  if (b =? a)%nat then sides
  else fold_left (edge_step axis_count axes ranges a b) (seq 0 4) sides.

(** The first loop nest of [calc_kdop_volume]: the vertex lists of the
    [2 * axis_count] sides. *)
Definition collect_vertices (axis_count : nat)
    (axes : list (vec3 T)) (ranges : list (vec2 T))
    : list (list (vec3 T)) :=
  fold_left
    (fun sides a =>
       fold_left (pair_step axis_count axes ranges a)
                 (seq 0 axis_count) sides)
    (seq 0 axis_count)
    (repeat [] (axis_count * 2)).

(** "Find first vertex that exists." *)
Fixpoint find_ref_center (sides : list (list (vec3 T))) : vec3 T :=
  match sides with
  | [] => vec3_splat zero
  | si :: rest =>
      if (2 <? length si)%nat then nth 0 si (vec3_splat zero)
      else find_ref_center rest
  end.

(** [std::sort] with a comparison [lt].  The standard fixes the result
    only up to the order of equivalent elements; the model is the stable
    insertion sort (what libstdc++ runs on up to 16 elements). *)
Section Sort.
Variable A : Type.
Variable lt : A -> A -> bool.

Fixpoint insert (x : A) (l : list A) : list A :=
  match l with
  | [] => [x]
  | y :: l' => if lt y x then y :: insert x l' else x :: y :: l'
  end.

Definition sort (l : list A) : list A := fold_right insert [] l.
End Sort.

(** The de-duplication loop: [prev] starts as the last vertex; a vertex
    closer than [epsilon] to [prev] is erased. *)
Fixpoint dedup_from (prev : vec3 T) (l : list (vec3 T)) : list (vec3 T) :=
  match l with
  | [] => []
  | cur :: rest =>
      let delta := vsub prev cur in
      if dot delta delta <? epsilon * epsilon
      then dedup_from prev rest
      else cur :: dedup_from cur rest
  end.

Definition dedup (l : list (vec3 T)) : list (vec3 T) :=
  dedup_from (last l (vec3_splat zero)) l.

(** The volume of one tetrahedron of the fan. *)
Definition tetra_volume (va vb ref2 ref_center : vec3 T) : T :=
  fabs (determinant (mat4_column va) (mat4_column vb)
                    (mat4_column ref2) (mat4_column ref_center))
  / of_Z 6.

(** The fan loop: [va] runs over the vertices from index 1, [vb] is the
    next one. *)
Fixpoint fan_volume (ref2 ref_center va : vec3 T) (rest : list (vec3 T))
    (total_volume : T) : T :=
  match rest with
  | [] => total_volume
  | vb :: rest' =>
      fan_volume ref2 ref_center vb rest'
                 (total_volume + tetra_volume va vb ref2 ref_center)
  end.

Section WithLibm.
Context {LT : Libm T}.

(** The three columns (tangent, bitangent, normal) of the matrix
    [create_tangent_space] returns. *)
Definition create_tangent_space (normal : vec3 T)
    : vec3 T * vec3 T * vec3 T :=
  let major :=
    if fabs (vx normal) <? M_1_SQRT3 then mk_vec3 one zero zero
    else if fabs (vy normal) <? M_1_SQRT3 then mk_vec3 zero one zero
    else mk_vec3 zero zero one in
  let tangent := normalize (cross normal major) in
  let bitangent := cross normal tangent in
  (tangent, bitangent, normal).

Definition signed_angle (p pivot : vec3 T)
    (tbn : vec3 T * vec3 T * vec3 T) : T :=
  let delta := vsub p pivot in
  atan2 (dot (fst (fst tbn)) delta) (dot (snd (fst tbn)) delta).

(** The sum [ref] of the vertices of a side, divided by their number. *)
Definition side_centroid (vertices : list (vec3 T)) : vec3 T :=
  vdivs (fold_left vadd vertices (vec3_splat zero))
        (of_Z (Z.of_nat (length vertices))).

(** The comparison handed to [std::sort]. *)
Definition angle_lt (ref : vec3 T) (tbn : vec3 T * vec3 T * vec3 T)
    (a b : vec3 T) : bool :=
  signed_angle a ref tbn <? signed_angle b ref tbn.

(** Body of the loop over the sides: what side [i] with vertex list
    [vertices] adds to [total_volume]. *)
Definition side_step (axes : list (vec3 T)) (ref_center : vec3 T)
    (total_volume : T) (i : nat) (vertices : list (vec3 T)) : T :=
  let axis := axis_at axes (i / 2) in
  if (length vertices <=? 2)%nat then total_volume
  else
    let tbn := create_tangent_space axis in
    let ref := side_centroid vertices in
    let sorted := sort (angle_lt ref tbn) vertices in
    let unique := dedup sorted in
    if (length unique <=? 2)%nat then total_volume
    else
      match unique with
      | ref2 :: va :: rest =>
          fan_volume ref2 ref_center va rest total_volume
      | _ => total_volume
      end.

Fixpoint sides_volume (axes : list (vec3 T)) (ref_center : vec3 T)
    (i : nat) (sides : list (list (vec3 T))) (total_volume : T) : T :=
  match sides with
  | [] => total_volume
  | si :: rest =>
      sides_volume axes ref_center (S i) rest
                   (side_step axes ref_center total_volume i si)
  end.

Definition calc_kdop_volume (axis_count : nat)
    (axes : list (vec3 T)) (ranges : list (vec2 T)) : T :=
  let sides := collect_vertices axis_count axes ranges in
  let ref_center := find_ref_center sides in
  sides_volume axes ref_center 0 sides zero.
End WithLibm.
End Kernel.

(* ================================================================= *)
(** ** IEEE-754 arithmetic *)

Module IEEE.
(** binary64 ([double]) and binary32 ([float]) share the carrier
    [spec_float]; a value of a format is kept in the canonical form of that
    format, which is what the operations of [SpecFloat] return. *)
Definition double : Type := spec_float.
Definition float : Type := spec_float.
#[global] Typeclasses Opaque double float.

Definition prec64 : Z := 53.
Definition emax64 : Z := 1024.
Definition prec32 : Z := 24.
Definition emax32 : Z := 128.

(** Conversion to the format [(prec, emax)], rounding to nearest even. *)
Definition SFconvert (prec emax : Z) (x : spec_float) : spec_float :=
  match x with
  | S754_finite s m e => binary_round prec emax s m e
  | _ => x
  end.

Definition to_double : spec_float -> double := SFconvert prec64 emax64.
Definition to_single : spec_float -> float := SFconvert prec32 emax32.

Definition Z2double (z : Z) : double :=
  binary_normalize prec64 emax64 z 0 false.
Definition Z2float (z : Z) : float :=
  binary_normalize prec32 emax32 z 0 false.

(** A decimal literal [n / 10^k] with [n] and [10^k] exact in the format
    is the correctly rounded quotient. *)
Definition double_lit (n d : Z) : double :=
  SFdiv prec64 emax64 (Z2double n) (Z2double d).
Definition float_lit (n d : Z) : float :=
  SFdiv prec32 emax32 (Z2float n) (Z2float d).

Definition FLT_MAX_f : float := SFmax_float prec32 emax32.
Definition FLT_MIN_f : float := S754_finite false 8388608 (-149).

#[export] Instance scalar_double : Scalar double := {|
  of_Z := Z2double;
  add := SFadd prec64 emax64;
  sub := SFsub prec64 emax64;
  mul := SFmul prec64 emax64;
  div := SFdiv prec64 emax64;
  opp := SFopp;
  ltb := SFltb;
  fabs := SFabs;
  FLT_MAX := to_double FLT_MAX_f;
  lit_1e_7 := double_lit 1 10000000;
  lit_1e_5f := to_double (float_lit 1 100000);
  M_1_SQRT3 := S754_finite false 5200308914369308 (-53);
  to_float := fun x => to_double (to_single x)
|}.

#[export] Instance scalar_float : Scalar float := {|
  of_Z := Z2float;
  add := SFadd prec32 emax32;
  sub := SFsub prec32 emax32;
  mul := SFmul prec32 emax32;
  div := SFdiv prec32 emax32;
  opp := SFopp;
  ltb := SFltb;
  fabs := SFabs;
  FLT_MAX := FLT_MAX_f;
  lit_1e_7 := float_lit 1 10000000;
  lit_1e_5f := float_lit 1 100000;
  M_1_SQRT3 := to_single (S754_finite false 5200308914369308 (-53));
  to_float := fun x => x
|}.

(** The C library on doubles: [sqrt] is correctly rounded, [atan2] is
    whatever the platform provides. *)
Definition libm_double (atan2 : double -> double -> double)
    : Libm double :=
  {| sqrt := SFsqrt prec64 emax64; atan2 := atan2 |}.

Definition libm_float (atan2 : float -> float -> float) : Libm float :=
  {| sqrt := SFsqrt prec32 emax32; atan2 := atan2 |}.
End IEEE.

(* ================================================================= *)
(** ** Exact rational arithmetic *)

Module Exact.
(** The idealisation of the floating-point code: no rounding, the decimal
    literals denote their decimal values, [FLT_MAX] its exact value, and
    the conversion through [float] is the identity.  Division by zero is
    [0] as in [Q]; the statements proved in this model exclude it. *)
Definition Qltb (x y : Q) : bool := negb (Qle_bool y x).

#[export] Instance scalar_Q : Scalar Q := {|
  of_Z := inject_Z;
  add := Qplus;
  sub := Qminus;
  mul := Qmult;
  div := Qdiv;
  opp := Qopp;
  ltb := Qltb;
  fabs := Qabs;
  FLT_MAX := inject_Z ((2 ^ 24 - 1) * 2 ^ 104);
  lit_1e_7 := 1 # 10000000;
  lit_1e_5f := 1 # 100000;
  M_1_SQRT3 := 57735026918962576451 # 100000000000000000000;
  to_float := fun x => x
|}.
End Exact.

(* ================================================================= *)
(** ** image_optimizer.cc: find_kdop_volume *)

Section FindKdopVolume.
Context {T : Type} {ST : Scalar T}.
Local Open Scope scalar_scope.

(** [vec2 axis_extents[32]]: a buffer of 32 entries whose initial content
    is indeterminate.  An access is checked against the size of the
    buffer; [None] stands for an access outside of it. *)
Definition EXTENT_BUFFER_SIZE : nat := 32.

Fixpoint list_set {A : Type} (l : list A) (i : nat) (v : A) : list A :=
  match l, i with
  | [], _ => []
  | _ :: rest, O => v :: rest
  | x :: rest, S i' => x :: list_set rest i' v
  end.

Definition buf_read (buf : list (vec2 T)) (i : nat) : option (vec2 T) :=
  nth_error buf i.

Definition buf_write (buf : list (vec2 T)) (i : nat) (v : vec2 T)
    : option (list (vec2 T)) :=
  if (i <? length buf)%nat then Some (list_set buf i v) else None.

(** [axis_extents[i] = vec2(1e9, -1e9)] *)
Definition start_extent : vec2 T :=
  mk_vec2 (of_Z 1000000000) (- of_Z 1000000000).

Definition init_step (ob : option (list (vec2 T))) (i : nat)
    : option (list (vec2 T)) :=
  match ob with
  | Some buf => buf_write buf i start_extent
  | None => None
  end.

(** Body of the loop over the axes [j] for one point [p]. *)
Definition extent_step (p : vec3 T) (axes : list (vec3 T))
    (ob : option (list (vec2 T))) (j : nat) : option (list (vec2 T)) :=
  match ob with
  | Some buf =>
      match buf_read buf j with
      | Some pair_j =>
          let d := dot p (axis_at axes j) in
          buf_write buf j (mk_vec2 (min (x2 pair_j) d) (max (y2 pair_j) d))
      | None => None
      end
  | None => None
  end.

Definition point_step (points axes : list (vec3 T)) (axis_count : nat)
    (ob : option (list (vec2 T))) (i : nat) : option (list (vec2 T)) :=
  let p := nth i points (vec3_splat zero) in
  fold_left (extent_step p axes) (seq 0 axis_count) ob.

(** What the second loop does to the extent [e] of axis [j] for the point
    of index [i]. *)
Definition widen (points axes : list (vec3 T)) (j : nat) (e : vec2 T)
    (i : nat) : vec2 T :=
  let d := dot (nth i points (vec3_splat zero)) (axis_at axes j) in
  mk_vec2 (min (x2 e) d) (max (y2 e) d).

(** The two loops of [find_kdop_volume] that fill [axis_extents], run on
    a buffer [buf]. *)
Definition find_kdop_extents (points axes : list (vec3 T))
    (axis_count : nat) (buf : list (vec2 T)) : option (list (vec2 T)) :=
  fold_left (point_step points axes axis_count) (seq 0 9)
    (fold_left init_step (seq 0 axis_count) (Some buf)).
End FindKdopVolume.

(* ================================================================= *)
(** ** The optimizers *)

Module Float.
Import IEEE.

Definition vec3_to_double (v : vec3 float) : vec3 double :=
  mk_vec3 (to_double (vx v)) (to_double (vy v)) (to_double (vz v)).
Definition vec2_to_double (v : vec2 float) : vec2 double :=
  mk_vec2 (to_double (x2 v)) (to_double (y2 v)).

(** [float volume = calc_kdop_volume(n, axes, ranges)] with [float]
    arrays: the kernel converts every element it reads to [double] and
    the result is converted back. *)
Definition calc_kdop_volume_f (atan2 : double -> double -> double)
    (axis_count : nat) (axes : list (vec3 float))
    (ranges : list (vec2 float)) : float :=
  to_single
    (calc_kdop_volume (ST := scalar_double) (LT := libm_double atan2)
                      axis_count
                      (map vec3_to_double axes) (map vec2_to_double ranges)).

(** [find_kdop_volume] of image_optimizer.cc. *)
Definition find_kdop_volume (atan2 : double -> double -> double)
    (points axes : list (vec3 float)) (axis_count : nat)
    (buf : list (vec2 float)) : option float :=
  match find_kdop_extents (ST := scalar_float) points axes axis_count buf
  with
  | Some axis_extents =>
      Some (calc_kdop_volume_f atan2 axis_count axes axis_extents)
  | None => None
  end.

(** [v[component_index] = x] on a [vec3]. *)
Definition vec3_set (v : vec3 float) (i : nat) (x : float) : vec3 float :=
  match i with
  | O => mk_vec3 x (vy v) (vz v)
  | S O => mk_vec3 (vx v) x (vz v)
  | _ => mk_vec3 (vx v) (vy v) x
  end.

(** The command-line loop that fills the forced axes: [forced] are the
    values [atof] returned, in order.  Returns the axes and
    [locked_axes].  (A write past the end of [best_axes] is undefined in
    C++; [list_set] leaves the list unchanged.) *)
Definition read_forced (axis_count : nat) (forced : list double)
    : list (vec3 float) * nat :=
  fst (fold_left
    (fun '(best_axes, locked_axes, i) (arg : double) =>
       let component_index := (i mod 3)%nat in
       let locked_axes :=
         if (component_index =? 0)%nat then S locked_axes
         else locked_axes in
       let k := (locked_axes - 1)%nat in
       (list_set best_axes k
          (vec3_set (nth k best_axes (vec3_splat zero)) component_index
                    (to_single arg)),
        locked_axes, S i))
    forced
    (repeat (vec3_splat (zero : float)) axis_count, O, O)).

(** [for i < locked_axes: best_axes[i] = normalize(best_axes[i])];
    [normalize] needs [sqrt] only. *)
Definition normalize_f (v : vec3 float) : vec3 float :=
  normalize (ST := scalar_float) (LT := libm_float (fun y _ => y)) v.

Definition normalize_locked (locked_axes : nat)
    (best_axes : list (vec3 float)) : list (vec3 float) :=
  fold_left (fun l i => list_set l i (normalize_f (nth i l (vec3_splat zero))))
            (seq 0 locked_axes) best_axes.
End Float.

Module SphereOptimizer.
Import IEEE Float.
Local Open Scope scalar_scope.

Record state (R : Type) := mk_state {
  best_volume : float;
  best_axes : list (vec3 float);
  no_improvement : Z;
  perturbation : float;
  rng : R
}.
Arguments mk_state {R} _ _ _ _ _.

Section Driver.
(** [glm::sphericalRand] draws from the hidden generator of [rand()]:
    its state is [R], threaded through the calls. *)
Variable R : Type.
Variable sphericalRand : float -> R -> vec3 float * R.
Variable atan2 : double -> double -> double.
Variable axis_count : nat.
Variable locked_axes : nat.

Definition extents : list (vec2 float) :=
  repeat (mk_vec2 (Z2float (-1)) (Z2float 1)) axis_count.

(** The candidate: a copy of [best_axes] whose free axes
    [locked_axes .. axis_count-1] are perturbed. *)
Definition perturb (b : list (vec3 float)) (p : float) (g : R)
    : list (vec3 float) * R :=
  fold_left
    (fun '(axes, g) i =>
       let '(r, g') := sphericalRand p g in
       (list_set axes i
          (normalize_f (vadd (nth i axes (vec3_splat zero)) r)), g'))
    (seq locked_axes (axis_count - locked_axes))
    (b, g).

(** The candidate of an iteration and its volume. *)
Definition candidate (s : state R) : list (vec3 float) * R :=
  perturb (best_axes s) (perturbation s) (rng s).
Definition candidate_volume (s : state R) : float :=
  let axes := fst (candidate s) in
  calc_kdop_volume_f atan2 (length axes) axes extents.

(** The body of the [for] loop of [main]. *)
Definition iteration (s : state R) : state R :=
  let '(axes, g) := candidate s in
  let volume := calc_kdop_volume_f atan2 (length axes) axes extents in
  if volume <? best_volume s then
    mk_state volume axes 0 (perturbation s) g
  else
    let n := (no_improvement s + 1)%Z in
    if (n >? 1000)%Z then
      mk_state (best_volume s) (best_axes s) 0
               (perturbation s * float_lit 5 10) g
    else
      mk_state (best_volume s) (best_axes s) n (perturbation s) g.

(** [perturbation > 1e-5]: the comparison is made in [double]. *)
Definition continues (s : state R) : bool :=
  to_double (perturbation s) >? double_lit 1 100000.

(** At most [fuel] iterations of the loop. *)
Fixpoint loop (fuel : nat) (s : state R) : state R :=
  match fuel with
  | O => s
  | S fuel' => if continues s then loop fuel' (iteration s) else s
  end.

(** The state before the loop, from the forced axes on the command
    line. *)
Definition init (forced : list double) (g : R) : state R :=
  mk_state (to_single (Z2double (10 ^ 99)))
           (normalize_locked locked_axes
              (fst (read_forced axis_count forced)))
           0 (Z2float 2) g.

(** The loop that prints the axes: a component below 5e-3 in absolute
    value is set to zero, then the axis is normalized. *)
Definition snap_component (c : float) : float :=
  if to_double (fabs c) <? double_lit 5 1000 then zero else c.

Definition snap_axis (v : vec3 float) : vec3 float :=
  normalize_f
    (mk_vec3 (snap_component (vx v)) (snap_component (vy v))
             (snap_component (vz v))).

Definition printed_axes (b : list (vec3 float)) : list (vec3 float) :=
  map (fun i => snap_axis (nth i b (vec3_splat zero))) (seq 0 axis_count).
End Driver.

(** [main] run for at most [fuel] iterations: the final state and the
    axes it prints. *)
Definition main (R : Type) (sphericalRand : float -> R -> vec3 float * R)
    (atan2 : double -> double -> double)
    (axis_count : nat) (forced : list double) (g : R) (fuel : nat)
    : state R * list (vec3 float) :=
  let locked_axes := snd (read_forced axis_count forced) in
  let s := loop sphericalRand atan2 axis_count locked_axes fuel
                (init axis_count locked_axes forced g) in
  (s, printed_axes axis_count (best_axes s)).
End SphereOptimizer.

Module ImageOptimizer.
Import IEEE Float.
Local Open Scope scalar_scope.

Record state := mk_state {
  best_score : float;
  best_axes : list (vec3 float);
  fail_count : Z;
  temperature : float;
  seed : Z
}.

Section Driver.
(** [sample_sphere(seed)] advances the generator state [seed];
    [evaluate_axes_cost] reads the image. Both are parameters. *)
Variable sample_sphere : Z -> vec3 float * Z.
Variable evaluate_axes_cost : list (vec3 float) -> float.
Variable axis_count : nat.
Variable locked_axes : nat.

Definition perturb (b : list (vec3 float)) (t : float) (g : Z)
    : list (vec3 float) * Z :=
  fold_left
    (fun '(axes, g) i =>
       let '(r, g') := sample_sphere g in
       (list_set axes i
          (normalize_f (vadd (nth i axes (vec3_splat zero))
                             (vscale t r))), g'))
    (seq locked_axes (axis_count - locked_axes))
    (b, g).

Definition candidate (s : state) : list (vec3 float) * Z :=
  perturb (best_axes s) (temperature s) (seed s).
Definition candidate_score (s : state) : float :=
  evaluate_axes_cost (fst (candidate s)).

(** The body of the [while] loop of [main]; [temperature *= 0.5] is a
    product in [double] converted back to [float]. *)
Definition iteration (s : state) : state :=
  let '(axes, g) := candidate s in
  let cur_score := evaluate_axes_cost axes in
  if cur_score <? best_score s then
    mk_state cur_score axes 0 (temperature s) g
  else
    let n := (fail_count s + 1)%Z in
    if (n >? 100)%Z then
      mk_state (best_score s) (best_axes s) 0
               (to_single (mul (T := double) (to_double (temperature s))
                               (double_lit 5 10))) g
    else
      mk_state (best_score s) (best_axes s) n (temperature s) g.

Definition continues (s : state) : bool := temperature s >? FLT_MIN_f.

(** The state before the loop: the locked axes are normalized, the free
    ones drawn with [sample_sphere] from the seed 0. *)
Definition init (forced : list double) : state :=
  let '(axes, g) :=
    fold_left
      (fun '(axes, g) i =>
         let '(r, g') := sample_sphere g in (list_set axes i r, g'))
      (seq locked_axes (axis_count - locked_axes))
      (normalize_locked locked_axes (fst (read_forced axis_count forced)),
       0%Z) in
  mk_state (Z2float 1000000000) axes 0 (Z2float 1) g.

Fixpoint loop (fuel : nat) (s : state) : state :=
  match fuel with
  | O => s
  | S fuel' => if continues s then loop fuel' (iteration s) else s
  end.
End Driver.
End ImageOptimizer.

(* ================================================================= *)
(** ** The notions the specification states its claims with *)

Module Spec.
Import Exact.
Local Open Scope Q_scope.

(** The point satisfies both half-space constraints of an axis. *)
Definition inside_range (p axis : vec3 Q) (r : vec2 Q) : Prop :=
  x2 r <= dot p axis <= y2 r.

(** The slab of an axis: the region between its two planes. *)
Definition in_slab (p axis : vec3 Q) (r : vec2 Q) : Prop :=
  Qmin (x2 r) (y2 r) <= dot p axis <= Qmax (x2 r) (y2 r).

(** The amount by which a projection falls outside the range [r]; [0]
    when it is inside. *)
Definition outside_amount (proj : Q) (r : vec2 Q) : Q :=
  if Qlt_le_dec proj (x2 r) then x2 r - proj
  else if Qlt_le_dec (y2 r) proj then proj - y2 r
  else 0.

(** The point [origin + t * direction] of a ray. *)
Definition ray_point (pos dir : vec3 Q) (t : Q) : vec3 Q :=
  vadd pos (vscale t dir).

(** Axis [a] is excluded by the caller. *)
Definition excluded (ex : nat * nat) (a : nat) : Prop :=
  a = fst ex \/ a = snd ex.

(** Axis [a] is skipped by the tracer: it is nearly perpendicular to the
    ray. *)
Definition skipped (dir : vec3 Q) (axes : list (vec3 Q)) (a : nat) : Prop :=
  Qabs (dot dir (axis_at axes a)) < 1 # 10000000.

(** The slab of axis [a] constrains the ray: [a] is neither excluded nor
    skipped. *)
Definition constrains (dir : vec3 Q) (axes : list (vec3 Q))
    (ex : nat * nat) (a : nat) : Prop :=
  ~ excluded ex a /\ ~ skipped dir axes a.

(** The contract of [kdop_trace_range] as it is claimed: when
    [near <= far], every [t] of [[near, far]] gives a point inside every
    slab that is not excluded. *)
Definition trace_contract (pos dir : vec3 Q) (axis_count : nat)
    (axes : list (vec3 Q)) (ranges : list (vec2 Q)) (ex : nat * nat)
    : Prop :=
  let (near, far) := kdop_trace_range pos dir axis_count axes ranges ex in
  near <= far ->
  forall t, near <= t <= far ->
  forall a, (a < axis_count)%nat -> ~ excluded ex a ->
    in_slab (ray_point pos dir t) (axis_at axes a) (range_at ranges a).

(** Minimum and maximum of the projections of the points on an axis. *)
Definition proj_min (points : list (vec3 Q)) (axis : vec3 Q) : Q :=
  match points with
  | [] => 0
  | p :: rest => fold_left (fun m q => Qmin m (dot q axis)) rest (dot p axis)
  end.
Definition proj_max (points : list (vec3 Q)) (axis : vec3 Q) : Q :=
  match points with
  | [] => 0
  | p :: rest => fold_left (fun m q => Qmax m (dot q axis)) rest (dot p axis)
  end.

(** The extents as claimed for [find_kdop_volume]: on a buffer of 32
    entries and for [axis_count <= 32], no access leaves the buffer and
    the extent of every axis is exactly the minimum and the maximum of the
    projections of the nine points. *)
Definition extents_contract (points axes : list (vec3 Q))
    (axis_count : nat) (buf : list (vec2 Q)) : Prop :=
  exists out,
    find_kdop_extents points axes axis_count buf = Some out /\
    forall j, (j < axis_count)%nat ->
      x2 (range_at out j) == proj_min points (axis_at axes j) /\
      y2 (range_at out j) == proj_max points (axis_at axes j).
End Spec.

Module FloatSpec.
Import IEEE.

(** [x <= y] in the sense the best value of a search evolves: equal or
    strictly smaller. *)
Definition SFle (x y : spec_float) : Prop := x = y \/ SFltb x y = true.

(** The sign bit is clear, or the value is a NaN. *)
Definition sign_clear (x : spec_float) : Prop :=
  match x with
  | S754_nan => True
  | S754_zero s | S754_infinity s | S754_finite s _ _ => s = false
  end.

Definition is_finite (x : spec_float) : bool :=
  match x with
  | S754_zero _ | S754_finite _ _ _ => true
  | _ => false
  end.

(** The rational a finite floating-point number denotes ([0] for the
    others). *)
Definition float_value (x : spec_float) : Q :=
  match x with
  | S754_finite s m e =>
      let v := match e with
               | Z0 => inject_Z (Zpos m)
               | Zpos p => inject_Z (Zpos m * 2 ^ Zpos p)
               | Zneg p => Zpos m # (2 ^ p)
               end in
      if s then Qopp v else v
  | _ => 0%Q
  end.

(** Structural equality of floating-point data. *)
Definition SF_eqb (x y : spec_float) : bool :=
  match x, y with
  | S754_zero s1, S754_zero s2 => Bool.eqb s1 s2
  | S754_infinity s1, S754_infinity s2 => Bool.eqb s1 s2
  | S754_nan, S754_nan => true
  | S754_finite s1 m1 e1, S754_finite s2 m2 e2 =>
      Bool.eqb s1 s2 && Pos.eqb m1 m2 && Z.eqb e1 e2
  | _, _ => false
  end.

(** *** What the sort of a side depends on

    The comparison of two vertices of a side is the comparison of the
    values of [atan2] at their keys, the two projections of
    [signed_angle]. *)
Definition key : Type := double * double.

Definition key_eqb (k1 k2 : key) : bool :=
  SF_eqb (fst k1) (fst k2) && SF_eqb (snd k1) (snd k2).

Definition angle_key (ref : vec3 double)
    (tbn : vec3 double * vec3 double * vec3 double) (p : vec3 double)
    : key :=
  let delta := vsub p ref in
  (dot (fst (fst tbn)) delta, dot (snd (fst tbn)) delta).

(** Two implementations of [atan2] order the keys of [D] alike. *)
Definition order_agree (a1 a2 : double -> double -> double)
    (D : list key) : Prop :=
  forall k1 k2, In k1 D -> In k2 D ->
    SFltb (a1 (fst k1) (snd k1)) (a1 (fst k2) (snd k2)) =
    SFltb (a2 (fst k1) (snd k1)) (a2 (fst k2) (snd k2)).

(** [create_tangent_space] does not call [atan2]. *)
Definition tangent_space (normal : vec3 double)
    : vec3 double * vec3 double * vec3 double :=
  create_tangent_space (ST := scalar_double)
    (LT := libm_double (fun y _ => y)) normal.

(** The keys of the vertices of side [i] all belong to [D] (a side of at
    most two vertices is not sorted). *)
Definition side_keys_within (D : list key) (axes : list (vec3 double))
    (i : nat) (vertices : list (vec3 double)) : bool :=
  let tbn := tangent_space (axis_at axes (i / 2)) in
  let ref := side_centroid (ST := scalar_double) vertices in
  (length vertices <=? 2)%nat ||
  forallb (fun p => existsb (key_eqb (angle_key ref tbn p)) D) vertices.

Fixpoint sides_keys_within (D : list key) (axes : list (vec3 double))
    (i : nat) (sides : list (list (vec3 double))) : bool :=
  match sides with
  | [] => true
  | si :: rest =>
      side_keys_within D axes i si &&
      sides_keys_within D axes (S i) rest
  end.

(** Vertices of a side that have the same key are the same point: the
    sorted list is then the same for every correct [std::sort]. *)
Definition vec3_eqb (p q : vec3 double) : bool :=
  SF_eqb (vx p) (vx q) && SF_eqb (vy p) (vy q) && SF_eqb (vz p) (vz q).

Definition side_ties_are_duplicates (axes : list (vec3 double)) (i : nat)
    (vertices : list (vec3 double)) : bool :=
  let tbn := tangent_space (axis_at axes (i / 2)) in
  let ref := side_centroid (ST := scalar_double) vertices in
  forallb (fun p =>
    forallb (fun q =>
      negb (key_eqb (angle_key ref tbn p) (angle_key ref tbn q))
      || vec3_eqb p q) vertices) vertices.

Fixpoint ties_are_duplicates (axes : list (vec3 double)) (i : nat)
    (sides : list (list (vec3 double))) : bool :=
  match sides with
  | [] => true
  | si :: rest =>
      side_ties_are_duplicates axes i si &&
      ties_are_duplicates axes (S i) rest
  end.

(** The keys at which the sorts of a run of the kernel call [atan2]. *)
Definition side_sort_keys (axes : list (vec3 double)) (i : nat)
    (vertices : list (vec3 double)) : list key :=
  if (length vertices <=? 2)%nat then []
  else map (angle_key (side_centroid (ST := scalar_double) vertices)
                      (tangent_space (axis_at axes (i / 2)))) vertices.

Fixpoint sides_sort_keys (axes : list (vec3 double)) (i : nat)
    (sides : list (list (vec3 double))) : list key :=
  match sides with
  | [] => []
  | si :: rest => side_sort_keys axes i si ++ sides_sort_keys axes (S i) rest
  end.

Definition sort_keys (axis_count : nat) (axes : list (vec3 double))
    (ranges : list (vec2 double)) : list key :=
  sides_sort_keys axes 0 (collect_vertices axis_count axes ranges).

(** *** The exact order of angles

    [atan2 y x] is the angle of the direction [(x, y)] in (-pi, pi].  The
    angles of two keys are compared exactly: first by the part of the
    circle, -pi (for [y = -0], [x < 0]), the lower half plane, 0, the upper
    half plane, pi; then, inside a half plane, by the sign of the cross
    product, computed in [Q]. *)
Definition is_negative (x : double) : bool := SFltb x (Z2double 0).
Definition is_positive (x : double) : bool := SFltb (Z2double 0) x.

Definition angle_part (k : key) : Z :=
  let (y, x) := k in
  if is_negative y then 1
  else if is_positive y then 3
  else if is_negative x
       then match y with S754_zero true => 0 | _ => 4 end
       else 2.

Definition angle_ltb (k1 k2 : key) : bool :=
  let p1 := angle_part k1 in
  let p2 := angle_part k2 in
  (p1 <? p2)%Z ||
  ((p1 =? p2)%Z && ((p1 =? 1)%Z || (p1 =? 3)%Z) &&
   negb (Qle_bool (float_value (snd k1) * float_value (fst k2)
                   - float_value (fst k1) * float_value (snd k2)) 0)).

(** [atan2] orders the keys of [K] as their angles are ordered. *)
Definition angular_order (atan2 : double -> double -> double)
    (K : list key) : Prop :=
  forall k1 k2, In k1 K -> In k2 K ->
    SFltb (atan2 (fst k1) (snd k1)) (atan2 (fst k2) (snd k2)) =
    angle_ltb k1 k2.

Definition angular_order_b (atan2 : double -> double -> double)
    (K : list key) : bool :=
  forallb (fun k1 =>
    forallb (fun k2 =>
      Bool.eqb (SFltb (atan2 (fst k1) (snd k1)) (atan2 (fst k2) (snd k2)))
               (angle_ltb k1 k2)) K) K.

(** Two keys of [K] of the same angle are the same key. *)
Definition angles_distinct_b (K : list key) : bool :=
  forallb (fun k1 =>
    forallb (fun k2 =>
      angle_ltb k1 k2 || angle_ltb k2 k1 || key_eqb k1 k2) K) K.

(** Two keys of [K] in the same half plane whose angles differ are apart:
    the cross product of the directions, scaled by their 1-norms, is at
    least [margin]. *)
Definition norm1 (k : key) : Q :=
  (Qabs (float_value (fst k)) + Qabs (float_value (snd k)))%Q.

Definition angles_separated_b (margin : Q) (K : list key) : bool :=
  forallb (fun k1 =>
    forallb (fun k2 =>
      negb (angle_ltb k1 k2 && (angle_part k1 =? angle_part k2)%Z) ||
      Qle_bool (margin * (norm1 k1 * norm1 k2))
               (float_value (snd k1) * float_value (fst k2)
                - float_value (fst k1) * float_value (snd k2))) K) K.

(** An order-preserving stand-in for [atan2]: [y / (|x| + |y|)], unfolded
    around the circle, is increasing in the angle. *)
Definition pseudo_angle (y x : double) : double :=
  let p := SFdiv prec64 emax64 y
             (SFadd prec64 emax64 (SFabs x) (SFabs y)) in
  if is_negative x then
    if is_negative y then SFsub prec64 emax64 (Z2double (-2)) p
    else SFsub prec64 emax64 (Z2double 2) p
  else p.

(** *** Concrete inputs *)

Definition dvec3 (x y z : Z) : vec3 double :=
  mk_vec3 (Z2double x) (Z2double y) (Z2double z).
Definition dvec2 (x y : Z) : vec2 double :=
  mk_vec2 (Z2double x) (Z2double y).

(** The cube [-1, 1]^3. *)
Definition cube_axes : list (vec3 double) :=
  [dvec3 1 0 0; dvec3 0 1 0; dvec3 0 0 1].
Definition cube_ranges : list (vec2 double) :=
  [dvec2 (-1) 1; dvec2 (-1) 1; dvec2 (-1) 1].

(** The same axis twice. *)
Definition parallel_axes : list (vec3 double) :=
  [dvec3 1 0 0; dvec3 1 0 0].
Definition parallel_ranges : list (vec2 double) :=
  [dvec2 (-1) 1; dvec2 (-1) 1].

(** A unit cube far from the origin: the axes (0.6, 0.8, 0),
    (-0.8, 0.6, 0), (0, 0, 1) as [float]s (unit up to the rounding of
    [float]), each with extent (1000, 1001); and the same (axis, extent)
    pairs in another order. *)
Definition far_axes : list (vec3 double) :=
  [mk_vec3 (to_double (float_lit 6 10)) (to_double (float_lit 8 10))
           (Z2double 0);
   mk_vec3 (to_double (SFopp (float_lit 8 10))) (to_double (float_lit 6 10))
           (Z2double 0);
   dvec3 0 0 1].
Definition far_axes_reordered : list (vec3 double) :=
  [dvec3 0 0 1;
   mk_vec3 (to_double (SFopp (float_lit 8 10))) (to_double (float_lit 6 10))
           (Z2double 0);
   mk_vec3 (to_double (float_lit 6 10)) (to_double (float_lit 8 10))
           (Z2double 0)].
Definition far_ranges : list (vec2 double) :=
  [dvec2 1000 1001; dvec2 1000 1001; dvec2 1000 1001].

(** The keys of the sorts of the two runs. *)
Definition far_keys : list key :=
  sort_keys 3 far_axes far_ranges ++
  sort_keys 3 far_axes_reordered far_ranges.

(** The four diagonal directions, in the order of their angles
    -3pi/4, -pi/4, pi/4, 3pi/4. *)
Definition diagonal_keys : list key :=
  [(Z2double (-1), Z2double (-1)); (Z2double (-1), Z2double 1);
   (Z2double 1, Z2double 1); (Z2double 1, Z2double (-1))].

(** What the cube needs of [atan2]: it orders the four diagonal
    directions as the angle does. *)
Definition diagonal_order (atan2 : double -> double -> double) : Prop :=
  SFltb (atan2 (Z2double (-1)) (Z2double (-1)))
        (atan2 (Z2double (-1)) (Z2double 1)) = true /\
  SFltb (atan2 (Z2double (-1)) (Z2double 1))
        (atan2 (Z2double 1) (Z2double 1)) = true /\
  SFltb (atan2 (Z2double 1) (Z2double 1))
        (atan2 (Z2double 1) (Z2double (-1))) = true.

(** An [atan2] that is only right about the quadrant: the angle of the
    diagonal of the quadrant of [(x, y)], pi/4 and 3pi/4 rounded to
    [double]. *)
Definition atan2_quadrant (y x : double) : double :=
  let pi_4 := S754_finite false 7074237752028440 (-53) in
  let pi3_4 := S754_finite false 5305678314021330 (-51) in
  match SFltb y (Z2double 0), SFltb x (Z2double 0) with
  | true, true => SFopp pi3_4
  | true, false => SFopp pi_4
  | false, false => pi_4
  | false, true => pi3_4
  end.
End FloatSpec.

Module SearchSpec.
Import IEEE FloatSpec.

(** The rule both search loops follow, for a loop body [step] on states
    [S]: [best], [axes], [counter] and [radius] read the state,
    [proposal] and [proposed_axes] are the candidate of the iteration.
    The best record is replaced exactly when the proposal is strictly
    smaller, and the counter is then reset; otherwise the counter is
    incremented, and once it exceeds [threshold] the radius is halved and
    the counter reset. *)
Definition accept_reject_rule (S : Type)
    (best : S -> float) (axes : S -> list (vec3 float))
    (counter : S -> Z) (radius : S -> float)
    (proposal : S -> float) (proposed_axes : S -> list (vec3 float))
    (threshold : Z) (halve : float -> float) (step : S -> S) : Prop :=
  forall s,
    (SFltb (proposal s) (best s) = true ->
     best (step s) = proposal s /\
     axes (step s) = proposed_axes s /\
     counter (step s) = 0%Z /\
     radius (step s) = radius s)
    /\
    (SFltb (proposal s) (best s) = false ->
     best (step s) = best s /\
     axes (step s) = axes s /\
     ((threshold < counter s + 1)%Z ->
      counter (step s) = 0%Z /\ radius (step s) = halve (radius s)) /\
     ((counter s + 1 <= threshold)%Z ->
      counter (step s) = (counter s + 1)%Z /\
      radius (step s) = radius s)).

(** The best value never increases along a run [run n] of [n]
    iterations. *)
Definition best_non_increasing (S : Type) (best : S -> float)
    (run : nat -> S -> S) : Prop :=
  forall s m n, (m <= n)%nat -> SFle (best (run n s)) (best (run m s)).
End SearchSpec.

Module Inputs.
Import Exact.
Local Open Scope Q_scope.

(** Where the tracer is called for the edge of the planes x = 1 and
    y = 1 of the cube, with a fourth axis (3/5, 4/5, 0): the ray runs
    along z, which is perpendicular to the fourth axis. *)
Definition cut_axes : list (vec3 Q) :=
  [mk_vec3 1 0 0; mk_vec3 0 1 0; mk_vec3 0 0 1; mk_vec3 (3 # 5) (4 # 5) 0].
Definition cut_ranges : list (vec2 Q) :=
  [mk_vec2 (-1) 1; mk_vec2 (-1) 1; mk_vec2 (-1) 1; mk_vec2 (-1) 1].
Definition cut_pos : vec3 Q := mk_vec3 1 1 0.
Definition cut_dir : vec3 Q := mk_vec3 0 0 1.

(** Nine points whose projections on the x axis are all 2e9, and a
    buffer of 32 entries. *)
Definition far_points : list (vec3 Q) :=
  repeat (mk_vec3 2000000000 0 0) 9.
Definition x_axis : list (vec3 Q) := [mk_vec3 1 0 0].
Definition zero_buffer : list (vec2 Q) :=
  repeat (mk_vec2 0 0) EXTENT_BUFFER_SIZE.
End Inputs.


From Stdlib Require Import Wellfounded Relation_Operators.

(* ================================================================= *)
(** ** image_optimizer.cc: the random generator, [sample_sphere] and
       [evaluate_axes_cost] *)

Section SampleSphere.
Context {T : Type} {ST : Scalar T} {LT : Libm T}.
Local Open Scope scalar_scope.

(** [cos] and [sin] of the C library. *)
Variable cos sin : T -> T.
(** [u.y * 2.0f * M_PI] *)
Variable times_two_pi : T -> T.

(** [sample_sphere(vec2 u)] *)
Definition sample_sphere_vec2 (u : vec2 T) : vec3 T :=
  let cos_theta := of_Z 2 * x2 u - one in
  let sin_theta := sqrt (one - cos_theta * cos_theta) in
  let phi := times_two_pi (y2 u) in
  mk_vec3 (cos phi * sin_theta) (sin phi * sin_theta) cos_theta.
End SampleSphere.

(* ================================================================= *)
(** ** Notions used to state properties of the kernel *)

Section KernelSpec.
Context {T : Type} {ST : Scalar T}.
Local Open Scope scalar_scope.

(** The test of the de-duplication loop: [u] and [v] are closer than
    [epsilon]. *)
Definition close (u v : vec3 T) : bool :=
  let delta := vsub u v in
  dot delta delta <? epsilon * epsilon.

(** Going through [prev :: l], no element is close to the one before
    it. *)
Fixpoint apart_chain (prev : vec3 T) (l : list (vec3 T)) : Prop :=
  match l with
  | [] => True
  | v :: rest => close prev v = false /\ apart_chain v rest
  end.
End KernelSpec.

(** A [Libm] for the exact model, to run the kernel on examples: the
    statements about the exact model hold for every [Libm]. *)
Definition libm_Q : Libm Q := {| sqrt := fun x => x; atan2 := fun y _ => y |}.

(** The step sizes the two search loops go through, as binary32
    numbers: [2 * 2^-k] in the sphere optimizer, [2^-k] in the image
    optimizer. *)
Module StepSizes.
Import IEEE.
Definition perturbation_at (k : nat) : float :=
  S754_finite false 8388608 (-22 - Z.of_nat k).
Definition temperature_at (k : nat) : float :=
  S754_finite false 8388608 (-23 - Z.of_nat k).
End StepSizes.

(** A [float] that is not negative, as the kernel and the cost function
    return it: a NaN, or a value with a clear sign bit whose exponent,
    when it is finite, is at least that of the smallest subnormal
    number of binary32. *)
Module Rank.
Import FloatSpec.

Definition nonneg_float (x : spec_float) : Prop :=
  sign_clear x /\
  match x with
  | S754_finite _ _ e => (-149 <= e)%Z
  | _ => True
  end.

(** The place of such a value in the order of the floats: infinity
    above the finite values, these by exponent, then mantissa. *)
Definition rank (x : spec_float) : nat * (nat * nat) :=
  match x with
  | S754_infinity _ => (1, (0, 0))%nat
  | S754_finite _ m e => (0%nat, (Z.to_nat (e + 150), Pos.to_nat m))
  | _ => (0, (0, 0))%nat
  end.

Definition rank_lt : nat * (nat * nat) -> nat * (nat * nat) -> Prop :=
  slexprod nat (nat * nat) lt (slexprod nat nat lt lt).

(** The number of halvings a step size of the sphere optimizer and of
    the image optimizer is away from the end of the loop. *)
Definition halvings_left (last : Z) (x : spec_float) : nat :=
  match x with
  | S754_finite _ _ e => Z.to_nat (e - last)
  | _ => 0%nat
  end.
End Rank.

(** The command line of [k] complete forced axes: the three components
    of each axis in turn. *)
Definition forced_values (forced_axes : list (vec3 IEEE.double))
    : list IEEE.double :=
  flat_map (fun v => [vx v; vy v; vz v]) forced_axes.

Module Image.
Import IEEE Float.
Local Open Scope Z_scope.

(** Arithmetic on [uint] wraps around modulo 2^32. *)
Definition wrap (z : Z) : Z := z mod 2 ^ 32.

(** [pcg] updates [seed] through the reference and returns its new
    value: the result is (returned value, [seed] after the call). *)
Definition pcg (seed : Z) : Z * Z :=
  let seed := wrap (seed * 747796405 + 2891336453) in
  let seed :=
    wrap (Z.lxor (Z.shiftr seed (Z.shiftr seed 28 + 4)) seed * 277803737) in
  let seed := Z.lxor seed (Z.shiftr seed 22) in
  (seed, seed).

(** [pcg(seed) * 2.3283064365386963e-10f]: the [uint] is converted to
    [float]; the literal is 2^-32. *)
Definition generate_uniform_random (seed : Z) : float * Z :=
  let '(r, seed) := pcg seed in
  (mul (T := float) (Z2float r) (S754_finite false 8388608 (-55)), seed).

(** [M_PI] is the [double] nearest to pi; [u.y * 2.0f] is a [float]
    product, the product with [M_PI] is taken in [double] and stored in
    the [float] [phi]. *)
Definition M_PI : double := S754_finite false 7074237752028440 (-51).

Definition times_two_pi (y : float) : float :=
  to_single
    (mul (T := double) (to_double (mul (T := float) y (Z2float 2))) M_PI).

(** [sample_sphere(uint& seed)] *)
Definition sample_sphere (cosf sinf : float -> float) (seed : Z)
    : vec3 float * Z :=
  let '(ux, seed) := generate_uniform_random seed in
  let '(uy, seed) := generate_uniform_random seed in
  (sample_sphere_vec2 (ST := scalar_float)
     (LT := libm_float (fun y _ => y)) cosf sinf times_two_pi
     (mk_vec2 ux uy), seed).

(** Arithmetic on [int]: a result outside of the range of [int] is
    undefined, [None] here. *)
Definition INT_MIN : Z := - 2 ^ 31.
Definition INT_MAX : Z := 2 ^ 31 - 1.

Definition int (z : Z) : option Z :=
  if (INT_MIN <=? z) && (z <=? INT_MAX) then Some z else None.

Definition int_add (a b : option Z) : option Z :=
  match a, b with
  | Some x, Some y => int (x + y)
  | _, _ => None
  end.

Definition int_mul (a b : option Z) : option Z :=
  match a, b with
  | Some x, Some y => int (x * y)
  | _, _ => None
  end.

(** glm::clamp(x, minVal, maxVal) = min(max(x, minVal), maxVal) *)
Definition clamp (x minVal maxVal : Z) : Z := Z.min (Z.max x minVal) maxVal.

(** The index [xi*3+c+yi*w*3] of channel [c] of the pixel [(xi, yi)]
    (for the red channel the source has no [+c]). *)
Definition pixel_index (w xi yi c : Z) : option Z :=
  int_add (int_add (int_mul (Some xi) (Some 3)) (Some c))
          (int_mul (int_mul (Some yi) (Some w)) (Some 3)).

(** [image_data[i]]: the image is the list of its bytes; a read outside
    of it is [None]. *)
Definition image_read (image_data : list Z) (oi : option Z) : option Z :=
  match oi with
  | Some i => if i <? 0 then None else nth_error image_data (Z.to_nat i)
  | None => None
  end.

(** [neighborhood[k] = v] on the 9-entry array. *)
Definition nb_write (nb : list (vec3 float)) (k : Z) (v : vec3 float)
    : option (list (vec3 float)) :=
  if (0 <=? k) && (k <? Z.of_nat (length nb))
  then Some (list_set nb (Z.to_nat k) v) else None.

Section Cost.
Variable atan2 : double -> double -> double.
(** [pow] on [float]. *)
Variable powf : float -> float -> float.
(** [int(x)] for a [float] [x]: whatever the conversion yields. *)
Variable float_to_int : float -> Z.
(** The indeterminate initial content of the arrays [neighborhood] and
    [axis_extents] of the sample of index [a]. *)
Variable neighborhood0 : nat -> list (vec3 float).
Variable axis_extents0 : nat -> list (vec2 float).

Definition gamma : float := float_lit 22 10.

(** [pow(ri / 255.0f, gamma)] *)
Definition channel (ri : Z) : float :=
  powf (div (T := float) (Z2float ri) (Z2float 255)) gamma.

(** [clamp(int(u * (n-2)+1), 1, n-2)] *)
Definition sample_coord (u : float) (n : Z) : Z :=
  clamp (float_to_int
           (add (T := float) (mul (T := float) u (Z2float (n - 2)))
                (Z2float 1)))
        1 (n - 2).

(** Body of the loops over [i] and [j]. *)
Definition pixel_step (w : Z) (image_data : list Z) (x y i : Z)
    (onb : option (list (vec3 float))) (j : Z)
    : option (list (vec3 float)) :=
  let xi := x + i in
  let yi := y + j in
  match onb,
        image_read image_data (pixel_index w xi yi 0),
        image_read image_data (pixel_index w xi yi 1),
        image_read image_data (pixel_index w xi yi 2) with
  | Some nb, Some ri, Some gi, Some bi =>
      nb_write nb (i + 1 + 3 * (j + 1))
               (mk_vec3 (channel ri) (channel gi) (channel bi))
  | _, _, _, _ => None
  end.

Definition read_neighborhood (w : Z) (image_data : list Z) (x y : Z)
    (nb : list (vec3 float)) : option (list (vec3 float)) :=
  fold_left
    (fun onb i => fold_left (pixel_step w image_data x y i) [-1; 0; 1] onb)
    [-1; 0; 1] (Some nb).

(** The position of sample [a]: both coordinates come from the
    generator started at [seed+a]. *)
Definition sample_position (w h : Z) (seed : Z) (a : nat) : Z * Z :=
  let cur_seed := wrap (seed + Z.of_nat a) in
  let '(u, cur_seed) := generate_uniform_random cur_seed in
  let x := sample_coord u w in
  let '(v, cur_seed) := generate_uniform_random cur_seed in
  let y := sample_coord v h in
  (x, y).

(** Body of the loop over the samples: the volume of sample [a]. *)
Definition sample_volume (w h : Z) (image_data : list Z)
    (axes : list (vec3 float)) (axis_count : nat) (seed : Z) (a : nat)
    : option float :=
  let '(x, y) := sample_position w h seed a in
  match read_neighborhood w image_data x y (neighborhood0 a) with
  | Some neighborhood =>
      find_kdop_volume atan2 neighborhood axes axis_count (axis_extents0 a)
  | None => None
  end.

Definition sum_step (w h : Z) (image_data : list Z)
    (axes : list (vec3 float)) (axis_count : nat) (seed : Z)
    (osum : option float) (a : nat) : option float :=
  match osum, sample_volume w h image_data axes axis_count seed a with
  | Some sum_volume, Some volume =>
      Some (add (T := float) sum_volume volume)
  | _, _ => None
  end.

(** [evaluate_axes_cost]; the samples are added in the order of their
    indices (the program leaves the order to OpenMP). *)
Definition evaluate_axes_cost (w h : Z) (image_data : list Z)
    (axes : list (vec3 float)) (axis_count : nat) (seed : Z)
    (attempt_count : nat) : option float :=
  match fold_left (sum_step w h image_data axes axis_count seed)
                  (seq 0 attempt_count) (Some (Z2float 0)) with
  | Some sum_volume =>
      Some (div (T := float) sum_volume (Z2float (Z.of_nat attempt_count)))
  | None => None
  end.
End Cost.
End Image.

(* ================================================================= *)
(** ** kdop_clipping.glsl: the clipping functions of the shader

    The repository has the shader twice: as a template
    ([kdop_clipping.glsl]) and with the default axes.  The two differ in
    the padding of the extents: the template adds
    [vec2(-epsilon +epsilon)], a vector with both components
    [-epsilon + epsilon]; the file with the default axes adds
    [vec2(-epsilon, +epsilon)]. *)

Section Clipping.
Context {T : Type} {ST : Scalar T} {LT : Libm T}.
Local Open Scope scalar_scope.

(** The comparison [<=] of GLSL. *)
Variable leb : T -> T -> bool.

Definition neighborhood_size : nat := 9.

(** The literal [1e9f]. *)
Definition lit_1e9f : T := of_Z 1000000000.

(** clamp(x, minVal, maxVal) = min(max(x, minVal), maxVal) *)
Definition clamp_glsl (x minVal maxVal : T) : T := min (max x minVal) maxVal.

Definition padding_template : vec2 T :=
  let s := - epsilon + epsilon in mk_vec2 s s.
Definition padding_default : vec2 T := mk_vec2 (- epsilon) epsilon.

(** Body of the loop over the neighborhood in [kdop_clipping]. *)
Definition color_extent_step (axis : vec3 T) (colors : list (vec3 T))
    (extent : vec2 T) (n : nat) : vec2 T :=
  let t := dot (nth n colors (vec3_splat zero)) axis in
  mk_vec2 (min t (x2 extent)) (max t (y2 extent)).

(** The extent of the neighborhood along an axis, padded. *)
Definition color_extent (padding : vec2 T) (axis : vec3 T)
    (colors : list (vec3 T)) : vec2 T :=
  let extent :=
    fold_left (color_extent_step axis colors) (seq 0 neighborhood_size)
              (mk_vec2 lit_1e9f (- lit_1e9f)) in
  mk_vec2 (x2 extent + x2 padding) (y2 extent + y2 padding).

(** The extent of [kdop_variance_clipping]. *)
Definition variance_extent (gamma : T) (axis cur_color : vec3 T)
    (colors : list (vec3 T)) : vec2 T :=
  let moments :=
    fold_left
      (fun m n =>
         let t := dot (nth n colors (vec3_splat zero)) axis in
         mk_vec2 (x2 m + t) (y2 m + t * t))
      (seq 0 neighborhood_size) (mk_vec2 zero zero) in
  let proj_pos := dot cur_color axis in
  let moments :=
    mk_vec2 (x2 moments / of_Z (Z.of_nat neighborhood_size))
            (y2 moments / of_Z (Z.of_nat neighborhood_size)) in
  let mu := x2 moments in
  let sigma := sqrt (y2 moments - mu * mu) in
  mk_vec2 (min (mu - gamma * sigma) proj_pos)
          (max (mu + gamma * sigma) proj_pos).

(** The intersection of the ray with the slab of an axis, accumulated
    into [(near, far)]. *)
Definition slab_step (cur_color dir axis : vec3 T) (extent : vec2 T)
    (nf : T * T) : T * T :=
  let '(near, far) := nf in
  let proj_pos := dot cur_color axis in
  let inv_dir := one / dot dir axis in
  let t0 := (x2 extent - proj_pos) * inv_dir in
  let t1 := (y2 extent - proj_pos) * inv_dir in
  (max near (min t0 t1), min far (max t0 t1)).

(** The end of both functions: the hit test and the clamped step along
    the ray. *)
Definition rectify (cur_color dir : vec3 T) (nf : T * T) : vec3 T :=
  let '(near, far) := nf in
  if leb near far && ((zero <? near) || (zero <? far)) then
    let t := clamp_glsl (if zero <? near then near else far) zero one in
    vadd cur_color (vscale t dir)
  else cur_color.

Definition kdop_clipping (padding : vec2 T) (axes : list (vec3 T))
    (axis_count : nat) (cur_color prev_color : vec3 T)
    (colors : list (vec3 T)) : vec3 T :=
  let dir := vsub prev_color cur_color in
  rectify cur_color dir
    (fold_left
       (fun nf a =>
          let axis := axis_at axes a in
          slab_step cur_color dir axis (color_extent padding axis colors) nf)
       (seq 0 axis_count) (- lit_1e9f, lit_1e9f)).

Definition kdop_variance_clipping (axes : list (vec3 T))
    (axis_count : nat) (cur_color prev_color : vec3 T) (gamma : T)
    (colors : list (vec3 T)) : vec3 T :=
  let dir := vsub prev_color cur_color in
  rectify cur_color dir
    (fold_left
       (fun nf a =>
          let axis := axis_at axes a in
          slab_step cur_color dir axis
                    (variance_extent gamma axis cur_color colors) nf)
       (seq 0 axis_count) (- lit_1e9f, lit_1e9f)).
End Clipping.

(** Equality of vectors of the exact model, component by component. *)
Definition veq (u v : vec3 Q) : Prop :=
  vx u == vx v /\ vy u == vy v /\ vz u == vz v.

(** A neighborhood of nine colours used as an example. *)
Definition example_colors : list (vec3 Q) :=
  mk_vec3 0 0 0 :: mk_vec3 1 0 0 :: repeat (mk_vec3 (1 # 2) 1 0) 7.

(* ================================================================= *)
(** ** Further statements about the binary formats *)

Module DistanceSpec.
Import IEEE FloatSpec.

Definition is_nan (x : spec_float) : bool :=
  match x with S754_nan => true | _ => false end.

(** The point satisfies the two half-space constraints of an axis, in
    the order of [double]. *)
Definition inside_range_d (pos axis : vec3 double) (r : vec2 double)
    : Prop :=
  SFleb (x2 r) (dot pos axis) = true /\ SFleb (dot pos axis) (y2 r) = true.

(** What is said of [kdop_distance]: it is zero exactly when the point
    satisfies the constraints of every axis. *)
Definition distance_contract_d (pos : vec3 double) (axis_count : nat)
    (axes : list (vec3 double)) (ranges : list (vec2 double)) : Prop :=
  kdop_distance pos axis_count axes ranges = Z2double 0 <->
  forall a, (a < axis_count)%nat ->
    inside_range_d pos (axis_at axes a) (range_at ranges a).
End DistanceSpec.


Module ExtentSpec.
Import IEEE Float.





(** A neighbourhood of black, red, green and blue pixels, decoded:
    [pow(0 / 255.0f, gamma) = 0] and [pow(255 / 255.0f, gamma) = 1]. *)
Definition fvec3 (x y z : Z) : vec3 float :=
  mk_vec3 (Z2float x) (Z2float y) (Z2float z).
Definition tile_points : list (vec3 float) :=
  [fvec3 0 0 0; fvec3 1 0 0; fvec3 0 0 0;
   fvec3 0 1 0; fvec3 0 0 0; fvec3 0 0 1;
   fvec3 0 0 0; fvec3 0 0 0; fvec3 0 0 0].

(** The axes [main] of image_optimizer.cc holds when all its
    [axis_count] axes are forced on the command line: they are read and
    normalized, and none is drawn or perturbed.  [forced] are the values
    of [atof]. *)
Definition forced_axes (axis_count : nat) (forced : list double)
    : list (vec3 float) :=
  normalize_locked (snd (read_forced axis_count forced))
                   (fst (read_forced axis_count forced)).


End ExtentSpec.

Module PrintSpec.
Import IEEE.

(** A zero of either sign, or a NaN. *)
Definition zero_or_nan (x : float) : Prop :=
  match x with
  | S754_zero _ | S754_nan => True
  | _ => False
  end.
End PrintSpec.

Module OrderSpec.
Import IEEE Float FloatSpec ExtentSpec.

(** The sort keys of a run of the kernel, side by side. *)
Fixpoint sides_key_lists (axes : list (vec3 double)) (i : nat)
    (sides : list (list (vec3 double))) : list (list key) :=
  match sides with
  | [] => []
  | si :: rest => side_sort_keys axes i si :: sides_key_lists axes (S i) rest
  end.

Definition run_key_lists (axis_count : nat) (axes : list (vec3 float))
    (ranges : list (vec2 float)) : list (list key) :=
  sides_key_lists (map vec3_to_double axes) 0
    (collect_vertices (ST := scalar_double) axis_count
       (map vec3_to_double axes) (map vec2_to_double ranges)).



(** The extents [find_kdop_volume] computes for the decoded pixels of
    [tile]. *)
Definition tile_extents (axis_count : nat) (axes : list (vec3 float))
    : list (vec2 float) :=
  map (fun j => fold_left (widen (ST := scalar_float) tile_points axes j)
                          (seq 0 9) start_extent)
      (seq 0 axis_count).


(** The command line
    [image_optimizer <image> 5 0.6 0.8 0 0.60000008 0.8 0 1 0 0 0 1 0 0 0 1]:
    the second axis is the first one with the next [float] as its first
    component.  And the same five axes in the reverse order. *)
Definition dup_command : list (list double) :=
  [[double_lit 6 10; double_lit 8 10; Z2double 0];
   [double_lit 60000008 100000000; double_lit 8 10; Z2double 0];
   [Z2double 1; Z2double 0; Z2double 0];
   [Z2double 0; Z2double 1; Z2double 0];
   [Z2double 0; Z2double 0; Z2double 1]].

Definition dup_axes : list (vec3 float) :=
  forced_axes 5 (concat dup_command).
Definition dup_axes_reversed : list (vec3 float) :=
  forced_axes 5 (concat (rev dup_command)).
End OrderSpec.

(* ================================================================= *)
(** * Properties *)

(** ** The geometric routines in exact arithmetic *)

Module ExactProofs.
Import Exact.
Local Open Scope Q_scope.

Lemma Qltb_lt (x y : Q) : Qltb x y = true <-> x < y.
Proof.
  unfold Qltb. rewrite negb_true_iff.
  split; intros H.
  - apply Qnot_le_lt. intros Hle. apply Qle_bool_iff in Hle. congruence.
  - apply not_true_is_false. intros Hle. apply Qle_bool_iff in Hle.
    apply (Qlt_not_le _ _ H Hle).
Qed.

Lemma Qltb_ge (x y : Q) : Qltb x y = false <-> y <= x.
Proof.
  unfold Qltb. rewrite negb_false_iff. apply Qle_bool_iff.
Qed.

Lemma dot_Q (a b : vec3 Q) :
  dot a b = vx a * vx b + vy a * vy b + vz a * vz b.
Proof. reflexivity. Qed.

Lemma dot_vadd_vscale (c1 c2 : Q) (a b v : vec3 Q) :
  dot (vadd (vscale c1 a) (vscale c2 b)) v == c1 * dot a v + c2 * dot b v.
Proof. rewrite !dot_Q. cbn. ring. Qed.

Lemma dot_sym (a b : vec3 Q) : dot a b == dot b a.
Proof. rewrite !dot_Q. ring. Qed.

(** C5.  For unit axes [a], [b] with [d = dot a b] and [d * d <> 1], the
    point [c1 * a + c2 * b] the kernel computes for the offsets [h1], [h2]
    lies on both planes: its projection on [a] is [h1] and its projection
    on [b] is [h2]. *)
Theorem edge_point_on_both_planes (a b : vec3 Q) (h1 h2 : Q) :
  dot a a == 1 -> dot b b == 1 -> ~ dot a b * dot a b == 1 ->
  dot (edge_point a b h1 h2) a == h1 /\ dot (edge_point a b h1 h2) b == h2.
Proof.
  intros Ha Hb Hd.
  assert (Hden : ~ 1 - dot a b * dot a b == 0).
  { intros H. apply Hd. lra. }
  unfold edge_point. rewrite !dot_vadd_vscale.
  rewrite Ha, Hb, (dot_sym b a).
  change (@one Q scalar_Q) with 1.
  change (@sub Q scalar_Q) with Qminus.
  change (@mul Q scalar_Q) with Qmult.
  change (@div Q scalar_Q) with Qdiv.
  set (d := dot a b) in *.
  split; field; exact Hden.
Qed.

Lemma edge_point_on_both_planes_witness :
  let a := mk_vec3 (3 # 5) (4 # 5) 0 in
  let b := mk_vec3 0 0 1 in
  dot (edge_point a b (-1) 2) a == -1 /\ dot (edge_point a b (-1) 2) b == 2.
Proof.
  intros a b.
  apply (@edge_point_on_both_planes a b (-1) 2).
  - reflexivity.
  - reflexivity.
  - intros H. vm_compute in H. discriminate H.
Defined.
End ExactProofs.

Module DistanceProofs.
Import Exact Spec ExactProofs.
Local Open Scope Q_scope.

Section Distance.
Variable pos : vec3 Q.
Variable axes : list (vec3 Q).
Variable ranges : list (vec2 Q).

(** The term axis [a] contributes. *)
Let amount (a : nat) : Q :=
  axis_distance pos (axis_at axes a) (range_at ranges a).

Lemma axis_distance_outside (axis : vec3 Q) (r : vec2 Q) :
  axis_distance pos axis r = outside_amount (dot pos axis) r.
Proof.
  unfold axis_distance, outside_amount. cbn [ltb sub scalar_Q].
  destruct (Qlt_le_dec (dot pos axis) (x2 r)) as [H | H].
  - apply Qltb_lt in H. now rewrite H.
  - apply Qltb_ge in H. rewrite H.
    destruct (Qlt_le_dec (y2 r) (dot pos axis)) as [H' | H'].
    + apply Qltb_lt in H'. now rewrite H'.
    + apply Qltb_ge in H'. now rewrite H'.
Qed.

Lemma outside_amount_nonneg (proj : Q) (r : vec2 Q) :
  0 <= outside_amount proj r.
Proof.
  unfold outside_amount.
  destruct (Qlt_le_dec proj (x2 r)); [lra |].
  destruct (Qlt_le_dec (y2 r) proj); lra.
Qed.

Lemma outside_amount_zero (proj : Q) (r : vec2 Q) :
  outside_amount proj r == 0 <-> x2 r <= proj <= y2 r.
Proof.
  unfold outside_amount.
  destruct (Qlt_le_dec proj (x2 r)); [lra |].
  destruct (Qlt_le_dec (y2 r) proj); lra.
Qed.

Lemma distance_step_cases (m : Q) (a : nat) :
  (distance_step pos axes ranges m a = amount a /\ m < amount a) \/
  (distance_step pos axes ranges m a = m /\ amount a <= m).
Proof.
  unfold distance_step. fold (amount a). cbn [ltb scalar_Q].
  destruct (Qltb m (amount a)) eqn:E.
  - left. split; [reflexivity | now apply Qltb_lt].
  - right. split; [reflexivity | now apply Qltb_ge].
Qed.

(** The loop keeps the running maximum: it never decreases, dominates
    the term of every axis met, and is the start value or one of these
    terms. *)
Lemma distance_fold (l : list nat) :
  forall m0,
    let D := fold_left (distance_step pos axes ranges) l m0 in
    m0 <= D /\
    (forall a, In a l -> amount a <= D) /\
    (D = m0 \/ exists a, In a l /\ D = amount a).
Proof.
  induction l as [| a l IH]; intros m0; cbn [fold_left].
  - repeat split; [lra | intros a [] | now left].
  - destruct (IH (distance_step pos axes ranges m0 a)) as (Hle & Hub & Hat).
    destruct (distance_step_cases m0 a) as [[E Hlt] | [E Hge]];
      rewrite E in *.
    + repeat split.
      * lra.
      * intros b [<- | Hb]; [exact Hle | now apply Hub].
      * right. destruct Hat as [-> | (b & Hb & ->)].
        -- exists a. split; [now left | reflexivity].
        -- exists b. split; [now right | reflexivity].
    + repeat split.
      * exact Hle.
      * intros b [<- | Hb]; [lra | now apply Hub].
      * destruct Hat as [-> | (b & Hb & ->)]; [now left |].
        right. exists b. split; [now right | reflexivity].
Qed.
End Distance.

(** In exact arithmetic [kdop_distance] is never negative; it is the
    maximum over the axes of the amount by which the projection of the
    point falls outside the range of the axis (an upper bound of all these
    amounts that is one of them, or 0); and it is 0 exactly when the point
    satisfies the constraints of every axis. *)
Theorem kdop_distance_max_violation
    (pos : vec3 Q) (axis_count : nat)
    (axes : list (vec3 Q)) (ranges : list (vec2 Q)) :
  let D := kdop_distance pos axis_count axes ranges in
  let amount a :=
    outside_amount (dot pos (axis_at axes a)) (range_at ranges a) in
  0 <= D /\
  (forall a, (a < axis_count)%nat -> amount a <= D) /\
  (D == 0 \/ exists a, (a < axis_count)%nat /\ D == amount a) /\
  (D == 0 <->
   forall a, (a < axis_count)%nat ->
     inside_range pos (axis_at axes a) (range_at ranges a)).
Proof.
  intros D amount.
  destruct (distance_fold pos axes ranges (seq 0 axis_count) zero)
    as (Hle & Hub & Hat).
  fold (kdop_distance pos axis_count axes ranges) in Hle, Hub, Hat.
  fold D in Hle, Hub, Hat.
  change (@zero Q scalar_Q) with 0 in *.
  assert (Hub' : forall a, (a < axis_count)%nat -> amount a <= D).
  { intros a Ha. unfold amount. rewrite <- axis_distance_outside.
    apply Hub. apply in_seq. lia. }
  assert (Hat' : D == 0 \/ exists a, (a < axis_count)%nat /\ D == amount a).
  { destruct Hat as [-> | (a & Ha & E)]; [now left |].
    right. exists a. split; [apply in_seq in Ha; lia |].
    unfold amount. rewrite <- axis_distance_outside. now rewrite E. }
  split; [exact Hle |]. split; [exact Hub' |]. split; [exact Hat' |].
  split.
  - intros HD a Ha. apply outside_amount_zero.
    specialize (Hub' a Ha). unfold amount in Hub'.
    pose proof (outside_amount_nonneg (dot pos (axis_at axes a))
                                      (range_at ranges a)).
    lra.
  - intros Hall.
    destruct Hat' as [E | (a & Ha & E)]; [exact E |].
    rewrite E. apply outside_amount_zero. apply (Hall a Ha).
Qed.
End DistanceProofs.

Module TraceProofs.
Import Exact Spec ExactProofs.
Local Open Scope Q_scope.

Lemma min_Qmin (x y : Q) : min x y == Qmin x y.
Proof.
  unfold min. cbn [ltb scalar_Q].
  destruct (Qltb y x) eqn:E.
  - apply Qltb_lt in E. symmetry. apply Q.min_r. lra.
  - apply Qltb_ge in E. symmetry. apply Q.min_l. exact E.
Qed.

Lemma max_Qmax (x y : Q) : max x y == Qmax x y.
Proof.
  unfold max. cbn [ltb scalar_Q].
  destruct (Qltb x y) eqn:E.
  - apply Qltb_lt in E. symmetry. apply Q.max_r. lra.
  - apply Qltb_ge in E. symmetry. apply Q.max_l. exact E.
Qed.

Lemma proj_ray (pos dir axis : vec3 Q) (t : Q) :
  dot (ray_point pos dir t) axis == dot pos axis + t * dot dir axis.
Proof. unfold ray_point. rewrite !dot_Q. cbn. ring. Qed.

(** Crossing parameter of a plane at offset [h]: for [d > 0] the ray is
    above the plane from the crossing on, for [d < 0] up to it. *)
Lemma crossing_pos (h pp d t : Q) :
  0 < d ->
  ((h - pp) * (1 / d) <= t <-> h <= pp + t * d) /\
  (t <= (h - pp) * (1 / d) <-> pp + t * d <= h).
Proof.
  intros Hd.
  assert (E : (h - pp) * (1 / d) * d == h - pp) by (field; lra).
  split.
  - rewrite <- (Qmult_le_r _ _ d Hd), E. lra.
  - rewrite <- (Qmult_le_r _ _ d Hd), E. lra.
Qed.

Lemma crossing_neg (h pp d t : Q) :
  d < 0 ->
  ((h - pp) * (1 / d) <= t <-> pp + t * d <= h) /\
  (t <= (h - pp) * (1 / d) <-> h <= pp + t * d).
Proof.
  intros Hd.
  assert (Hd' : 0 < - d) by lra.
  assert (E : (h - pp) * (1 / d) * (- d) == - (h - pp)) by (field; lra).
  assert (E' : t * (- d) == - (t * d)) by ring.
  split.
  - rewrite <- (Qmult_le_r _ _ (- d) Hd'), E, E'. lra.
  - rewrite <- (Qmult_le_r _ _ (- d) Hd'), E, E'. lra.
Qed.

(** The parameters between the two crossings of a slab are those of the
    points between its planes. *)
Lemma slab_interval (x y pp d t : Q) :
  ~ d == 0 ->
  (min ((x - pp) * (1 / d)) ((y - pp) * (1 / d)) <= t /\
   t <= max ((x - pp) * (1 / d)) ((y - pp) * (1 / d)))
  <->
  Qmin x y <= pp + t * d <= Qmax x y.
Proof.
  intros Hd.
  rewrite min_Qmin, max_Qmax.
  rewrite Q.min_le_iff, Q.max_le_iff, Q.min_le_iff, Q.max_le_iff.
  destruct (Q_dec d 0) as [[Hneg | Hpos] | Heq]; [| | contradiction].
  - destruct (crossing_neg x pp t Hneg) as [A1 A2].
    destruct (crossing_neg y pp t Hneg) as [B1 B2].
    rewrite A1, A2, B1, B2. tauto.
  - destruct (crossing_pos x pp t Hpos) as [A1 A2].
    destruct (crossing_pos y pp t Hpos) as [B1 B2].
    rewrite A1, A2, B1, B2. tauto.
Qed.

Section Trace.
Variable pos dir : vec3 Q.
Variable axes : list (vec3 Q).
Variable ranges : list (vec2 Q).
Variable ex : nat * nat.

Let holds (t : Q) (a : nat) : Prop :=
  constrains dir axes ex a ->
  in_slab (ray_point pos dir t) (axis_at axes a) (range_at ranges a).

Lemma excluded_test (a : nat) :
  (a =? fst ex)%nat || (a =? snd ex)%nat = true <-> excluded ex a.
Proof.
  unfold excluded. rewrite orb_true_iff, !Nat.eqb_eq. tauto.
Qed.

Lemma trace_step_interval (near far : Q) (a : nat) (t : Q) :
  (fst (trace_step pos dir axes ranges ex (near, far) a) <= t /\
   t <= snd (trace_step pos dir axes ranges ex (near, far) a))
  <->
  (near <= t <= far) /\ holds t a.
Proof.
  unfold trace_step, holds, constrains.
  destruct ((a =? fst ex)%nat || (a =? snd ex)%nat) eqn:Eex.
  { apply excluded_test in Eex. cbn [fst snd]. tauto. }
  assert (Hex : ~ excluded ex a).
  { intros H. apply excluded_test in H. congruence. }
  cbn [ltb fabs lit_1e_7 scalar_Q].
  destruct (Qltb (Qabs (dot dir (axis_at axes a))) (1 # 10000000)) eqn:Esk.
  { apply Qltb_lt in Esk. cbn [fst snd]. unfold skipped. tauto. }
  apply Qltb_ge in Esk.
  assert (Hsk : ~ skipped dir axes a) by (unfold skipped; lra).
  assert (Hd : ~ dot dir (axis_at axes a) == 0).
  { intros H0. rewrite H0 in Esk. cbn in Esk. lra. }
  cbn [fst snd].
  change (@one Q scalar_Q) with 1.
  change (@sub Q scalar_Q) with Qminus.
  change (@mul Q scalar_Q) with Qmult.
  change (@div Q scalar_Q) with Qdiv.
  pose proof (slab_interval (x2 (range_at ranges a))
                (y2 (range_at ranges a)) (dot pos (axis_at axes a)) t Hd)
    as Hslab.
  unfold in_slab. rewrite proj_ray.
  rewrite (max_Qmax near), (min_Qmin far).
  rewrite Q.max_lub_iff, Q.min_glb_iff.
  tauto.
Qed.

Lemma trace_fold_interval (l : list nat) :
  forall near far t,
    (fst (fold_left (trace_step pos dir axes ranges ex) l (near, far))
       <= t /\
     t <= snd (fold_left (trace_step pos dir axes ranges ex) l
                         (near, far)))
    <->
    (near <= t <= far) /\ (forall a, In a l -> holds t a).
Proof.
  induction l as [| a l IH]; intros near far t; cbn [fold_left].
  - cbn [fst snd]. split; [intros H; split; [exact H | intros a []] | tauto].
  - destruct (trace_step pos dir axes ranges ex (near, far) a)
      as [near' far'] eqn:E.
    rewrite IH.
    pose proof (trace_step_interval near far a t) as Hs.
    rewrite E in Hs. cbn [fst snd] in Hs.
    split.
    + intros [Hnf Hl]. apply Hs in Hnf. destruct Hnf as [Hnf Ha].
      split; [exact Hnf |]. intros b [<- | Hb]; [exact Ha | now apply Hl].
    + intros [Hnf Hl]. split.
      * apply Hs. split; [exact Hnf | apply Hl; now left].
      * intros b Hb. apply Hl. now right.
Qed.
End Trace.

(** For an extent with [min <= max] the slab is the set of points that
    satisfy both half-space constraints. *)
Lemma in_slab_inside_range (p axis : vec3 Q) (r : vec2 Q) :
  x2 r <= y2 r -> (in_slab p axis r <-> inside_range p axis r).
Proof.
  intros H. unfold in_slab, inside_range.
  rewrite (Q.min_l _ _ H), (Q.max_r _ _ H). tauto.
Qed.

(** C3, as the code has it.  A parameter [t] lies in the returned
    [[near, far]] exactly when it lies in [[-FLT_MAX, FLT_MAX]] and the
    point [pos + t * dir] is in the slab of every axis that is neither
    excluded nor skipped.  So for [near <= far] every [t] of the interval
    gives a point inside all these slabs, a skipped axis constrains
    nothing, and [near > far] leaves no such [t] within the [FLT_MAX]
    bounds. *)
Theorem kdop_trace_range_interval
    (pos dir : vec3 Q) (axis_count : nat)
    (axes : list (vec3 Q)) (ranges : list (vec2 Q)) (ex : nat * nat)
    (t : Q) :
  let hits := kdop_trace_range pos dir axis_count axes ranges ex in
  let bound := inject_Z ((2 ^ 24 - 1) * 2 ^ 104) in
  (fst hits <= t <= snd hits
   <->
   - bound <= t <= bound /\
   forall a, (a < axis_count)%nat ->
     ~ excluded ex a -> ~ skipped dir axes a ->
     in_slab (ray_point pos dir t) (axis_at axes a) (range_at ranges a))
  /\
  (snd hits < fst hits ->
   ~ (- bound <= t <= bound /\
      forall a, (a < axis_count)%nat ->
        ~ excluded ex a -> ~ skipped dir axes a ->
        in_slab (ray_point pos dir t) (axis_at axes a) (range_at ranges a))).
Proof.
  intros hits bound.
  assert (H : fst hits <= t <= snd hits <->
              - bound <= t <= bound /\
              forall a, (a < axis_count)%nat ->
                ~ excluded ex a -> ~ skipped dir axes a ->
                in_slab (ray_point pos dir t) (axis_at axes a)
                        (range_at ranges a)).
  { unfold hits, kdop_trace_range.
    rewrite trace_fold_interval.
    change (@opp Q scalar_Q (@FLT_MAX Q scalar_Q)) with (- bound).
    change (@FLT_MAX Q scalar_Q) with bound.
    unfold constrains.
    split; intros [Hb Hall]; (split; [exact Hb |]).
    - intros a Ha He Hs. apply Hall; [apply in_seq; lia | tauto].
    - intros a Ha [He Hs]. apply Hall; [apply in_seq in Ha; lia | | ]; assumption. }
  split; [exact H |].
  intros Hlt Hin. apply H in Hin. lra.
Qed.
End TraceProofs.

(** ** The volume in exact arithmetic *)

Module ExactVolume.
Import Exact.
Local Open Scope Q_scope.

Section Sign.
Context {LT : Libm Q}.

Lemma tetra_volume_nonneg (va vb ref2 ref_center : vec3 Q) :
  0 <= tetra_volume va vb ref2 ref_center.
Proof.
  unfold tetra_volume. cbn [div fabs of_Z scalar_Q].
  apply Qle_shift_div_l; [reflexivity |].
  rewrite Qmult_0_l. apply Qabs_nonneg.
Qed.

Lemma fan_volume_nonneg (ref2 ref_center : vec3 Q) (rest : list (vec3 Q)) :
  forall va total,
    0 <= total -> 0 <= fan_volume ref2 ref_center va rest total.
Proof.
  induction rest as [| vb rest IH]; intros va total H; cbn [fan_volume];
    [exact H |].
  apply IH. cbn [add scalar_Q].
  pose proof (tetra_volume_nonneg va vb ref2 ref_center). lra.
Qed.

Lemma side_step_nonneg (axes : list (vec3 Q)) (ref_center : vec3 Q)
    (total : Q) (i : nat) (vertices : list (vec3 Q)) :
  0 <= total -> 0 <= side_step axes ref_center total i vertices.
Proof.
  intros H. unfold side_step.
  destruct (length vertices <=? 2)%nat; [exact H |].
  destruct (length (dedup _) <=? 2)%nat; [exact H |].
  destruct (dedup _) as [| ref2 [| va rest]]; try exact H.
  now apply fan_volume_nonneg.
Qed.

(** Without rounding, infinities and NaNs the sum of the tetrahedra is at
    least 0 for all inputs, whatever [sqrt] and [atan2] are. *)
Lemma exact_volume_nonneg (axis_count : nat) (axes : list (vec3 Q))
    (ranges : list (vec2 Q)) :
  0 <= calc_kdop_volume axis_count axes ranges.
Proof.
  unfold calc_kdop_volume.
  generalize (find_ref_center (collect_vertices axis_count axes ranges)).
  generalize (collect_vertices axis_count axes ranges).
  intros sides ref_center.
  assert (H : forall i total, 0 <= total ->
                0 <= sides_volume axes ref_center i sides total).
  { induction sides as [| si rest IH]; intros i total Ht;
      cbn [sides_volume]; [exact Ht |].
    apply IH. now apply side_step_nonneg. }
  apply H. apply Qle_refl.
Qed.
End Sign.
End ExactVolume.

(** ** IEEE comparisons and signs *)

Module FloatFacts.
Import IEEE FloatSpec.

(** Case analysis on the comparisons of exponents and mantissas that
    [SFcompare] makes on two finite numbers. *)
Ltac compare_cases :=
  repeat match goal with
    | |- context [Z.compare ?a ?b] =>
        destruct (Z.compare_spec a b); try subst
    | |- context [Pos.compare_cont Eq ?a ?b] =>
        change (Pos.compare_cont Eq a b) with (Pos.compare a b);
        destruct (Pos.compare_spec a b); try subst
    end;
  cbn; intros; try discriminate; try reflexivity; try lia.

Lemma SFltb_irrefl (x : spec_float) : SFltb x x = false.
Proof.
  unfold SFltb, SFcompare.
  destruct x as [[] | [] | | [] m e]; try reflexivity; compare_cases.
Qed.

Lemma SFltb_asym (x y : spec_float) :
  SFltb x y = true -> SFltb y x = false.
Proof.
  unfold SFltb, SFcompare.
  destruct x as [[] | [] | | [] m1 e1], y as [[] | [] | | [] m2 e2];
    try (intros; reflexivity); try discriminate; compare_cases.
Qed.

Lemma SFltb_trans (x y z : spec_float) :
  SFltb x y = true -> SFltb y z = true -> SFltb x z = true.
Proof.
  unfold SFltb, SFcompare.
  destruct x as [[] | [] | | [] m1 e1], y as [[] | [] | | [] m2 e2],
           z as [[] | [] | | [] m3 e3];
    try (intros; reflexivity); try discriminate;
    try (intros _; discriminate); compare_cases.
Qed.

Lemma SFle_refl (x : spec_float) : SFle x x.
Proof. now left. Qed.

Lemma SFle_trans (x y z : spec_float) : SFle x y -> SFle y z -> SFle x z.
Proof.
  intros [-> | Hxy] [-> | Hyz]; try (now left); try (now right).
  right. exact (SFltb_trans _ _ _ Hxy Hyz).
Qed.

Lemma binary_round_aux_sign (prec emax : Z) (sx : bool) (mx ex : Z)
    (lx : location) :
  match binary_round_aux prec emax sx mx ex lx with
  | S754_nan => True
  | S754_zero s | S754_infinity s | S754_finite s _ _ => s = sx
  end.
Proof.
  unfold binary_round_aux.
  destruct (shr_fexp prec emax mx ex lx) as [mrs' e'].
  destruct (shr_fexp prec emax _ e' loc_Exact) as [mrs'' e''].
  destruct (shr_m mrs''); [reflexivity | | exact I].
  destruct (Z.leb e'' (emax - prec)); reflexivity.
Qed.

Lemma binary_round_sign (prec emax : Z) (sx : bool) (mx : positive)
    (ex : Z) :
  match binary_round prec emax sx mx ex with
  | S754_nan => True
  | S754_zero s | S754_infinity s | S754_finite s _ _ => s = sx
  end.
Proof.
  unfold binary_round.
  destruct (shl_align mx ex _) as [mz ez].
  apply binary_round_aux_sign.
Qed.

Lemma SFabs_sign_clear (x : spec_float) : sign_clear (SFabs x).
Proof. destruct x; cbn; auto. Qed.

Lemma SFdiv_sign_clear (prec emax : Z) (x y : spec_float) :
  sign_clear x -> sign_clear y -> sign_clear (SFdiv prec emax x y).
Proof.
  destruct x as [sx | sx | | sx mx ex], y as [sy | sy | | sy my ey];
    cbn; intros Hx Hy; try exact I; subst; try reflexivity.
  destruct (SFdiv_core_binary prec emax (Z.pos mx) ex (Z.pos my) ey)
    as [[mz ez] lz].
  exact (binary_round_aux_sign prec emax false mz ez lz).
Qed.

Lemma SFadd_sign_clear (prec emax : Z) (x y : spec_float) :
  sign_clear x -> sign_clear y -> sign_clear (SFadd prec emax x y).
Proof.
  destruct x as [sx | sx | | sx mx ex], y as [sy | sy | | sy my ey];
    cbn; intros Hx Hy; try exact I; subst; try reflexivity.
  exact (binary_round_sign prec emax false _ _).
Qed.

(** A value with clear sign is a NaN or is at least [+0]. *)
Lemma sign_clear_nonneg (x : spec_float) :
  sign_clear x -> x = S754_nan \/ SFleb (S754_zero false) x = true.
Proof.
  destruct x as [s | s | | s m e]; cbn; intros H; subst; auto.
Qed.
End FloatFacts.

(** ** The sort of a side depends on [atan2] through the order of the keys *)

Section SortFacts.
Variable A : Type.

Lemma insert_In (lt : A -> A -> bool) (x y : A) (l : list A) :
  In y (insert lt x l) -> y = x \/ In y l.
Proof.
  induction l as [| z l IH]; cbn.
  - intros [<- | []]. now left.
  - destruct (lt z x); cbn.
    + intros [<- | H]; [right; now left |].
      destruct (IH H) as [-> | H']; [now left | right; now right].
    + intros [<- | H]; [now left | now right].
Qed.

Lemma sort_In (lt : A -> A -> bool) (y : A) (l : list A) :
  In y (sort lt l) -> In y l.
Proof.
  induction l as [| x l IH]; [cbn; tauto |].
  change (sort lt (x :: l)) with (insert lt x (sort lt l)).
  intros H. apply insert_In in H. destruct H as [-> | H]; [now left |].
  right. now apply IH.
Qed.

Lemma insert_ext (lt1 lt2 : A -> A -> bool) (x : A) (l : list A) :
  (forall y, In y l -> lt1 y x = lt2 y x) ->
  insert lt1 x l = insert lt2 x l.
Proof.
  induction l as [| z l IH]; cbn; intros H; [reflexivity |].
  rewrite (H z (or_introl eq_refl)).
  destruct (lt2 z x); [| reflexivity].
  f_equal. apply IH. intros y Hy. apply H. now right.
Qed.

Lemma sort_ext (lt1 lt2 : A -> A -> bool) (l : list A) :
  (forall a b, In a l -> In b l -> lt1 a b = lt2 a b) ->
  sort lt1 l = sort lt2 l.
Proof.
  induction l as [| x l IH]; intros H; [reflexivity |].
  change (insert lt1 x (sort lt1 l) = insert lt2 x (sort lt2 l)).
  rewrite IH by (intros a b Ha Hb; apply H; now right).
  apply insert_ext. intros y Hy.
  apply H; [right; exact (sort_In _ _ _ Hy) | now left].
Qed.
End SortFacts.

Module VolumeProofs.
Import IEEE FloatSpec FloatFacts.

Lemma SF_eqb_eq (x y : spec_float) : SF_eqb x y = true -> x = y.
Proof.
  destruct x as [s1 | s1 | | s1 m1 e1], y as [s2 | s2 | | s2 m2 e2];
    cbn; try discriminate; try reflexivity.
  - intros H. apply eqb_prop in H. now subst.
  - intros H. apply eqb_prop in H. now subst.
  - rewrite !andb_true_iff. intros [[H1 H2] H3].
    apply eqb_prop in H1. apply Pos.eqb_eq in H2. apply Z.eqb_eq in H3.
    now subst.
Qed.

Lemma key_eqb_eq (k1 k2 : key) : key_eqb k1 k2 = true -> k1 = k2.
Proof.
  destruct k1, k2. unfold key_eqb. cbn. rewrite andb_true_iff.
  intros [H1 H2]. apply SF_eqb_eq in H1, H2. now subst.
Qed.

Section Agree.
Variable a1 a2 : double -> double -> double.
Variable D : list key.
Hypothesis agree : order_agree a1 a2 D.

Lemma create_tangent_space_libm (a : double -> double -> double)
    (normal : vec3 double) :
  create_tangent_space (ST := scalar_double) (LT := libm_double a) normal
  = tangent_space normal.
Proof. reflexivity. Qed.

Lemma angle_lt_key (a : double -> double -> double)
    (ref : vec3 double) (tbn : vec3 double * vec3 double * vec3 double)
    (p q : vec3 double) :
  angle_lt (ST := scalar_double) (LT := libm_double a) ref tbn p q =
  SFltb (a (fst (angle_key ref tbn p)) (snd (angle_key ref tbn p)))
        (a (fst (angle_key ref tbn q)) (snd (angle_key ref tbn q))).
Proof. reflexivity. Qed.

Lemma side_step_agree (axes : list (vec3 double))
    (ref_center : vec3 double) (total : double) (i : nat)
    (vertices : list (vec3 double)) :
  side_keys_within D axes i vertices = true ->
  side_step (ST := scalar_double) (LT := libm_double a1)
            axes ref_center total i vertices =
  side_step (ST := scalar_double) (LT := libm_double a2)
            axes ref_center total i vertices.
Proof.
  intros Hk. unfold side_step.
  unfold side_keys_within in Hk.
  destruct (length vertices <=? 2)%nat; [reflexivity |].
  cbn [orb] in Hk.
  rewrite !create_tangent_space_libm.
  set (tbn := tangent_space (axis_at axes (i / 2))) in *.
  set (ref := side_centroid vertices) in *.
  rewrite (sort_ext (angle_lt (LT := libm_double a1) ref tbn)
                    (angle_lt (LT := libm_double a2) ref tbn));
    [reflexivity |].
  intros p q Hp Hq. rewrite !angle_lt_key.
  rewrite forallb_forall in Hk.
  pose proof (Hk p Hp) as Kp. pose proof (Hk q Hq) as Kq.
  apply existsb_exists in Kp, Kq.
  destruct Kp as (kp & Hkp & Ep), Kq as (kq & Hkq & Eq).
  apply key_eqb_eq in Ep, Eq.
  rewrite Ep, Eq. apply agree; assumption.
Qed.

Lemma sides_volume_agree (axes : list (vec3 double))
    (ref_center : vec3 double) (sides : list (list (vec3 double))) :
  forall i total,
    sides_keys_within D axes i sides = true ->
    sides_volume (ST := scalar_double) (LT := libm_double a1)
                 axes ref_center i sides total =
    sides_volume (ST := scalar_double) (LT := libm_double a2)
                 axes ref_center i sides total.
Proof.
  induction sides as [| si rest IH]; intros i total H; cbn;
    [reflexivity |].
  cbn in H. apply andb_true_iff in H. destruct H as [H1 H2].
  rewrite (side_step_agree axes ref_center total i si H1).
  apply IH. exact H2.
Qed.

Lemma calc_kdop_volume_agree (axis_count : nat)
    (axes : list (vec3 double)) (ranges : list (vec2 double)) :
  sides_keys_within D axes 0
    (collect_vertices axis_count axes ranges) = true ->
  calc_kdop_volume (LT := libm_double a1) axis_count axes ranges =
  calc_kdop_volume (LT := libm_double a2) axis_count axes ranges.
Proof.
  intros H. unfold calc_kdop_volume. now apply sides_volume_agree.
Qed.
End Agree.
Lemma atan2_quadrant_diagonal_order : diagonal_order atan2_quadrant.
Proof. repeat split; vm_compute; reflexivity. Qed.

Lemma diagonal_order_agree (atan2 : double -> double -> double) :
  diagonal_order atan2 -> order_agree atan2 atan2_quadrant diagonal_keys.
Proof.
  intros (Hab & Hbc & Hcd).
  pose proof (SFltb_trans _ _ _ Hab Hbc) as Hac.
  pose proof (SFltb_trans _ _ _ Hbc Hcd) as Hbd.
  pose proof (SFltb_trans _ _ _ Hab Hbd) as Had.
  intros k1 k2 H1 H2. cbn in H1, H2.
  destruct H1 as [<- | [<- | [<- | [<- | []]]]];
    destruct H2 as [<- | [<- | [<- | [<- | []]]]];
    cbn [fst snd];
    match goal with
    | |- _ = ?rhs =>
        let b := eval vm_compute in rhs in change rhs with b
    end;
    first [ assumption
          | apply SFltb_irrefl
          | apply SFltb_asym; assumption ].
Qed.

(** On the cube, vertices of a side with the same key are the same
    corner. *)
Lemma cube_ties_are_duplicates :
  ties_are_duplicates cube_axes 0
    (collect_vertices (ST := scalar_double) 3 cube_axes cube_ranges) = true.
Proof. vm_compute. reflexivity. Qed.

(** C1.  For the three basis axes with extents (-1, 1), and an [atan2]
    that orders the four diagonal directions as the angle does,
    [calc_kdop_volume] returns the double 8 - 2^-50: within 1e-4 of 8 (and
    equal to 8 once converted to [float], as the callers do). *)
Theorem cube_volume (atan2 : double -> double -> double) :
  diagonal_order atan2 ->
  let v := calc_kdop_volume (ST := scalar_double)
             (LT := libm_double atan2) 3 cube_axes cube_ranges in
  v = S754_finite false 9007199254740991 (-50) /\
  is_finite v = true /\
  (Qabs (float_value v - 8) <= 1 # 10000)%Q /\
  to_single v = Z2float 8.
Proof.
  intros H v.
  assert (E : v = S754_finite false 9007199254740991 (-50)).
  { unfold v.
    rewrite (calc_kdop_volume_agree (diagonal_order_agree H)).
    - vm_compute. reflexivity.
    - vm_compute. reflexivity. }
  rewrite E. split; [reflexivity |]. split; [reflexivity |].
  split; [| vm_compute; reflexivity].
  vm_compute. discriminate.
Qed.

Lemma cube_volume_witness :
  let v := calc_kdop_volume (ST := scalar_double)
             (LT := libm_double atan2_quadrant) 3 cube_axes cube_ranges in
  v = S754_finite false 9007199254740991 (-50) /\
  is_finite v = true /\
  (Qabs (float_value v - 8) <= 1 # 10000)%Q /\
  to_single v = Z2float 8.
Proof.
  apply (@cube_volume atan2_quadrant).
  repeat split; vm_compute; reflexivity.
Defined.

(** C6.  For the single axis (1, 0, 0) with extent (-1, 1) no side
    receives a vertex and [calc_kdop_volume] returns +0, whatever
    [atan2] is. *)
Theorem single_axis_volume (atan2 : double -> double -> double) :
  collect_vertices (ST := scalar_double) 1 [dvec3 1 0 0] [dvec2 (-1) 1]
    = [[]; []] /\
  calc_kdop_volume (ST := scalar_double) (LT := libm_double atan2)
    1 [dvec3 1 0 0] [dvec2 (-1) 1] = S754_zero false /\
  is_finite (calc_kdop_volume (ST := scalar_double)
               (LT := libm_double atan2) 1 [dvec3 1 0 0] [dvec2 (-1) 1])
    = true.
Proof. split; [reflexivity | split; reflexivity]. Qed.

(** *** The sign of the volume *)

Section Sign.
Variable atan2 : double -> double -> double.

Lemma tetra_volume_sign_clear (va vb ref2 ref_center : vec3 double) :
  sign_clear (tetra_volume (ST := scalar_double) va vb ref2 ref_center).
Proof.
  unfold tetra_volume. cbn [div fabs of_Z scalar_double].
  apply SFdiv_sign_clear; [apply SFabs_sign_clear | reflexivity].
Qed.

Lemma fan_volume_sign_clear (ref2 ref_center : vec3 double)
    (rest : list (vec3 double)) :
  forall va total,
    sign_clear total ->
    sign_clear (fan_volume (ST := scalar_double) ref2 ref_center va rest
                           total).
Proof.
  induction rest as [| vb rest IH]; intros va total H; cbn [fan_volume];
    [exact H |].
  apply IH. cbn [add scalar_double].
  apply SFadd_sign_clear; [exact H | apply tetra_volume_sign_clear].
Qed.

Lemma side_step_sign_clear (axes : list (vec3 double))
    (ref_center : vec3 double) (total : double) (i : nat)
    (vertices : list (vec3 double)) :
  sign_clear total ->
  sign_clear (side_step (ST := scalar_double) (LT := libm_double atan2)
                        axes ref_center total i vertices).
Proof.
  intros H. unfold side_step.
  destruct (length vertices <=? 2)%nat; [exact H |].
  destruct (length (dedup _) <=? 2)%nat; [exact H |].
  destruct (dedup _) as [| ref2 [| va rest]]; try exact H.
  now apply fan_volume_sign_clear.
Qed.

Lemma sides_volume_sign_clear (axes : list (vec3 double))
    (ref_center : vec3 double) (sides : list (list (vec3 double))) :
  forall i total,
    sign_clear total ->
    sign_clear (sides_volume (ST := scalar_double)
                  (LT := libm_double atan2) axes ref_center i sides
                  total).
Proof.
  induction sides as [| si rest IH]; intros i total H; cbn [sides_volume];
    [exact H |].
  apply IH. now apply side_step_sign_clear.
Qed.
End Sign.

(** C2, as the code has it.  Whatever the axes, the extents and [atan2],
    the value [calc_kdop_volume] returns is a NaN or is at least 0; it is
    never negative. *)
Theorem volume_nan_or_nonneg (atan2 : double -> double -> double)
    (axis_count : nat) (axes : list (vec3 double))
    (ranges : list (vec2 double)) :
  let v := calc_kdop_volume (ST := scalar_double)
             (LT := libm_double atan2) axis_count axes ranges in
  (v = S754_nan \/ SFleb (Z2double 0) v = true) /\
  SFltb v (Z2double 0) = false.
Proof.
  intros v.
  assert (H : sign_clear v).
  { unfold v, calc_kdop_volume. apply sides_volume_sign_clear.
    reflexivity. }
  split; [exact (sign_clear_nonneg v H) |].
  destruct v as [s | s | | s m e]; cbn in H; subst; reflexivity.
Qed.

Lemma nan_agree (a1 a2 : double -> double -> double) :
  order_agree a1 a2 [(S754_nan, S754_nan)].
Proof.
  intros k1 k2 [<- | []] [<- | []]. cbn [fst snd].
  now rewrite !SFltb_irrefl.
Qed.

(** C2 fails as stated: with the axis (1, 0, 0) given twice the edge
    system is singular, NaN vertices pass the distance filter and the
    returned volume is a NaN, for which [0 <= v] is false. *)
Lemma parallel_axes_volume_nan :
  (forall atan2 : double -> double -> double,
     calc_kdop_volume (ST := scalar_double) (LT := libm_double atan2)
       2 parallel_axes parallel_ranges = S754_nan) /\
  SFleb (Z2double 0) S754_nan = false.
Proof.
  split; [| reflexivity].
  intros atan2.
  rewrite (calc_kdop_volume_agree (nan_agree atan2 atan2_quadrant)).
  - vm_compute. reflexivity.
  - vm_compute. reflexivity.
Qed.
(** *** The order of the axes *)

Lemma angular_order_b_spec (atan2 : double -> double -> double)
    (K : list key) :
  angular_order_b atan2 K = true -> angular_order atan2 K.
Proof.
  unfold angular_order_b, angular_order. rewrite forallb_forall.
  intros H k1 k2 H1 H2.
  specialize (H k1 H1). rewrite forallb_forall in H.
  apply eqb_prop. exact (H k2 H2).
Qed.

Lemma angular_order_agree (a1 a2 : double -> double -> double)
    (K : list key) :
  angular_order a1 K -> angular_order a2 K -> order_agree a1 a2 K.
Proof.
  intros H1 H2 k1 k2 Hk1 Hk2. now rewrite H1, H2.
Qed.

Lemma pseudo_angle_far_keys : angular_order pseudo_angle far_keys.
Proof. apply angular_order_b_spec. vm_compute. reflexivity. Qed.

(** Keys of [far_keys] of the same angle are the same key: an [atan2] need
    only tell apart angles that differ. *)
Lemma far_keys_angles_distinct : angles_distinct_b far_keys = true.
Proof. vm_compute. reflexivity. Qed.

(** And keys of different angles are at least 3e-5 apart, far more than
    the error of an [atan2]. *)
Lemma far_keys_angles_separated :
  angles_separated_b (3 # 100000) far_keys = true.
Proof. vm_compute. reflexivity. Qed.

Lemma far_ties_are_duplicates :
  ties_are_duplicates far_axes 0
    (collect_vertices (ST := scalar_double) 3 far_axes far_ranges) = true /\
  ties_are_duplicates far_axes_reordered 0
    (collect_vertices (ST := scalar_double) 3 far_axes_reordered far_ranges)
    = true.
Proof. split; vm_compute; reflexivity. Qed.

(** The kernel alone, on extents that no program of the repository
    passes to it.  For the unit cube far from the origin the edge points on
    the planes at offset 1001 of the two slanted axes overshoot by more
    than [epsilon], so these two sides get no vertex; what is summed then
    depends on the apex, the first vertex of the first side.  With any
    [atan2] that orders the sort keys as the angles, the kernel returns
    about 0.167 for one order of the three (axis, extent) pairs and about
    0.500 for another (the volume of the region is about 1). *)
Theorem far_cube_volume_depends_on_order
    (atan2 : double -> double -> double) :
  angular_order atan2 far_keys ->
  let v1 := calc_kdop_volume (ST := scalar_double)
              (LT := libm_double atan2) 3 far_axes far_ranges in
  let v2 := calc_kdop_volume (ST := scalar_double)
              (LT := libm_double atan2) 3 far_axes_reordered far_ranges in
  Permutation (combine far_axes far_ranges)
              (combine far_axes_reordered far_ranges) /\
  map (@length _) (collect_vertices (ST := scalar_double) 3 far_axes
                                    far_ranges)
    = [12; 0; 12; 0; 8; 8]%nat /\
  v1 = S754_finite false 6005202648476330 (-55) /\
  v2 = S754_finite false 4503755398228650 (-53) /\
  (float_value v1 < 17 # 100)%Q /\
  (49 # 100 < float_value v2)%Q.
Proof.
  intros H v1 v2.
  pose proof (angular_order_agree H pseudo_angle_far_keys) as Hagree.
  assert (E1 : v1 = S754_finite false 6005202648476330 (-55)).
  { unfold v1. rewrite (calc_kdop_volume_agree Hagree).
    - vm_compute. reflexivity.
    - vm_compute. reflexivity. }
  assert (E2 : v2 = S754_finite false 4503755398228650 (-53)).
  { unfold v2. rewrite (calc_kdop_volume_agree Hagree).
    - vm_compute. reflexivity.
    - vm_compute. reflexivity. }
  rewrite E1, E2.
  split.
  { unfold far_axes, far_axes_reordered, far_ranges. cbn [combine].
    eapply perm_trans; [apply perm_skip, perm_swap |].
    eapply perm_trans; [apply perm_swap |].
    apply perm_skip, perm_swap. }
  split; [vm_compute; reflexivity |].
  split; [reflexivity |]. split; [reflexivity |].
  split; vm_compute; reflexivity.
Qed.

Lemma far_cube_volume_depends_on_order_witness :
  let v1 := calc_kdop_volume (ST := scalar_double)
              (LT := libm_double pseudo_angle) 3 far_axes far_ranges in
  let v2 := calc_kdop_volume (ST := scalar_double)
              (LT := libm_double pseudo_angle) 3 far_axes_reordered
              far_ranges in
  Permutation (combine far_axes far_ranges)
              (combine far_axes_reordered far_ranges) /\
  map (@length _) (collect_vertices (ST := scalar_double) 3 far_axes
                                    far_ranges)
    = [12; 0; 12; 0; 8; 8]%nat /\
  v1 = S754_finite false 6005202648476330 (-55) /\
  v2 = S754_finite false 4503755398228650 (-53) /\
  (float_value v1 < 17 # 100)%Q /\
  (49 # 100 < float_value v2)%Q.
Proof.
  apply (@far_cube_volume_depends_on_order pseudo_angle).
  apply angular_order_b_spec. vm_compute. reflexivity.
Defined.
End VolumeProofs.

(** ** The search loops *)

Module SearchProofs.
Import IEEE FloatSpec FloatFacts SearchSpec.

Section Sphere.
Variable R : Type.
Variable sphericalRand : float -> R -> vec3 float * R.
Variable atan2 : double -> double -> double.
Variable axis_count locked_axes : nat.

Let state := SphereOptimizer.state R.
Let iteration : state -> state :=
  SphereOptimizer.iteration sphericalRand atan2 axis_count locked_axes.
Let loop : nat -> state -> state :=
  SphereOptimizer.loop sphericalRand atan2 axis_count locked_axes.
Let volume : state -> float :=
  SphereOptimizer.candidate_volume sphericalRand atan2 axis_count
                                   locked_axes.
Let proposed : state -> list (vec3 float) :=
  fun s => fst (SphereOptimizer.candidate sphericalRand axis_count
                                          locked_axes s).

Lemma sphere_rule :
  accept_reject_rule
    (@SphereOptimizer.best_volume R) (@SphereOptimizer.best_axes R)
    (@SphereOptimizer.no_improvement R) (@SphereOptimizer.perturbation R)
    volume proposed 1000
    (fun p => SFmul prec32 emax32 p (float_lit 5 10)) iteration.
Proof.
  intros s.
  unfold iteration, volume, proposed, SphereOptimizer.iteration,
    SphereOptimizer.candidate_volume.
  destruct (SphereOptimizer.candidate sphericalRand axis_count
              locked_axes s) as [axes g].
  cbn [fst ltb mul scalar_float].
  destruct (SFltb _ (SphereOptimizer.best_volume s)) eqn:E.
  - split; [intros _ | discriminate]. cbn. repeat split.
  - split; [discriminate | intros _].
    destruct (Z.gtb_spec (SphereOptimizer.no_improvement s + 1) 1000);
      cbn; repeat split; intros; try lia; reflexivity.
Qed.

Lemma sphere_iteration_best (s : state) :
  SFle (SphereOptimizer.best_volume (iteration s))
       (SphereOptimizer.best_volume s).
Proof.
  destruct (sphere_rule s) as [Hacc Hrej].
  destruct (SFltb (volume s) (SphereOptimizer.best_volume s)) eqn:E.
  - destruct (Hacc eq_refl) as (-> & _). now right.
  - destruct (Hrej eq_refl) as (-> & _). now left.
Qed.

Lemma sphere_loop_add (m n : nat) :
  forall s, loop (m + n) s = loop n (loop m s).
Proof.
  induction m as [| m IH]; intros s; [reflexivity |].
  cbn [Nat.add]. unfold loop in *. cbn [SphereOptimizer.loop].
  destruct (SphereOptimizer.continues s) eqn:E; [apply IH |].
  destruct n; cbn [SphereOptimizer.loop]; [reflexivity |].
  now rewrite E.
Qed.

Lemma sphere_loop_best (n : nat) :
  forall s, SFle (SphereOptimizer.best_volume (loop n s))
                 (SphereOptimizer.best_volume s).
Proof.
  induction n as [| n IH]; intros s; [apply SFle_refl |].
  unfold loop in *. cbn [SphereOptimizer.loop].
  destruct (SphereOptimizer.continues s); [| apply SFle_refl].
  eapply SFle_trans; [apply IH | apply sphere_iteration_best].
Qed.

Lemma sphere_best_non_increasing :
  best_non_increasing (@SphereOptimizer.best_volume R) loop.
Proof.
  intros s m n Hmn.
  replace n with (m + (n - m))%nat by lia.
  rewrite sphere_loop_add. apply sphere_loop_best.
Qed.
End Sphere.

Section Image.
Variable sample_sphere : Z -> vec3 float * Z.
Variable evaluate_axes_cost : list (vec3 float) -> float.
Variable axis_count locked_axes : nat.

Let iteration : ImageOptimizer.state -> ImageOptimizer.state :=
  ImageOptimizer.iteration sample_sphere evaluate_axes_cost axis_count
                           locked_axes.
Let loop : nat -> ImageOptimizer.state -> ImageOptimizer.state :=
  ImageOptimizer.loop sample_sphere evaluate_axes_cost axis_count
                      locked_axes.
Let score : ImageOptimizer.state -> float :=
  ImageOptimizer.candidate_score sample_sphere evaluate_axes_cost
                                 axis_count locked_axes.
Let proposed : ImageOptimizer.state -> list (vec3 float) :=
  fun s => fst (ImageOptimizer.candidate sample_sphere axis_count
                                         locked_axes s).

Lemma image_rule :
  accept_reject_rule
    ImageOptimizer.best_score ImageOptimizer.best_axes
    ImageOptimizer.fail_count ImageOptimizer.temperature
    score proposed 100
    (fun t => to_single (SFmul prec64 emax64 (to_double t)
                               (double_lit 5 10)))
    iteration.
Proof.
  intros s.
  unfold iteration, score, proposed, ImageOptimizer.iteration,
    ImageOptimizer.candidate_score.
  destruct (ImageOptimizer.candidate sample_sphere axis_count
              locked_axes s) as [axes g].
  cbn [fst ltb mul scalar_float scalar_double].
  destruct (SFltb _ (ImageOptimizer.best_score s)) eqn:E.
  - split; [intros _ | discriminate]. cbn. repeat split.
  - split; [discriminate | intros _].
    destruct (Z.gtb_spec (ImageOptimizer.fail_count s + 1) 100);
      cbn; repeat split; intros; try lia; reflexivity.
Qed.

Lemma image_iteration_best (s : ImageOptimizer.state) :
  SFle (ImageOptimizer.best_score (iteration s))
       (ImageOptimizer.best_score s).
Proof.
  destruct (image_rule s) as [Hacc Hrej].
  destruct (SFltb (score s) (ImageOptimizer.best_score s)) eqn:E.
  - destruct (Hacc eq_refl) as (-> & _). now right.
  - destruct (Hrej eq_refl) as (-> & _). now left.
Qed.

Lemma image_loop_add (m n : nat) :
  forall s, loop (m + n) s = loop n (loop m s).
Proof.
  induction m as [| m IH]; intros s; [reflexivity |].
  cbn [Nat.add]. unfold loop in *. cbn [ImageOptimizer.loop].
  destruct (ImageOptimizer.continues s) eqn:E; [apply IH |].
  destruct n; cbn [ImageOptimizer.loop]; [reflexivity |].
  now rewrite E.
Qed.

Lemma image_loop_best (n : nat) :
  forall s, SFle (ImageOptimizer.best_score (loop n s))
                 (ImageOptimizer.best_score s).
Proof.
  induction n as [| n IH]; intros s; [apply SFle_refl |].
  unfold loop in *. cbn [ImageOptimizer.loop].
  destruct (ImageOptimizer.continues s); [| apply SFle_refl].
  eapply SFle_trans; [apply IH | apply image_iteration_best].
Qed.

Lemma image_best_non_increasing :
  best_non_increasing ImageOptimizer.best_score loop.
Proof.
  intros s m n Hmn.
  replace n with (m + (n - m))%nat by lia.
  rewrite image_loop_add. apply image_loop_best.
Qed.
End Image.

(** C8.  Both search loops follow the accept/reject rule, with threshold
    1000 in the sphere optimizer and 100 in the image optimizer, and in
    both the best value never increases along the run.  The factor of the
    radius is one half in both. *)
Theorem search_loops_accept_strict_improvements :
  (forall (R : Type) (sphericalRand : float -> R -> vec3 float * R)
          (atan2 : double -> double -> double)
          (axis_count locked_axes : nat),
     accept_reject_rule
       (@SphereOptimizer.best_volume R) (@SphereOptimizer.best_axes R)
       (@SphereOptimizer.no_improvement R)
       (@SphereOptimizer.perturbation R)
       (SphereOptimizer.candidate_volume sphericalRand atan2 axis_count
                                         locked_axes)
       (fun s => fst (SphereOptimizer.candidate sphericalRand axis_count
                                                locked_axes s))
       1000
       (fun p => SFmul prec32 emax32 p (float_lit 5 10))
       (SphereOptimizer.iteration sphericalRand atan2 axis_count
                                  locked_axes)
     /\
     best_non_increasing (@SphereOptimizer.best_volume R)
       (SphereOptimizer.loop sphericalRand atan2 axis_count locked_axes))
  /\
  (forall (sample_sphere : Z -> vec3 float * Z)
          (evaluate_axes_cost : list (vec3 float) -> float)
          (axis_count locked_axes : nat),
     accept_reject_rule
       ImageOptimizer.best_score ImageOptimizer.best_axes
       ImageOptimizer.fail_count ImageOptimizer.temperature
       (ImageOptimizer.candidate_score sample_sphere evaluate_axes_cost
                                       axis_count locked_axes)
       (fun s => fst (ImageOptimizer.candidate sample_sphere axis_count
                                               locked_axes s))
       100
       (fun t => to_single (SFmul prec64 emax64 (to_double t)
                                  (double_lit 5 10)))
       (ImageOptimizer.iteration sample_sphere evaluate_axes_cost
                                 axis_count locked_axes)
     /\
     best_non_increasing ImageOptimizer.best_score
       (ImageOptimizer.loop sample_sphere evaluate_axes_cost axis_count
                            locked_axes))
  /\
  (float_value (float_lit 5 10) == 1 # 2)%Q /\
  (float_value (double_lit 5 10) == 1 # 2)%Q.
Proof.
  split; [| split; [| split; reflexivity]].
  - intros. split;
      [apply sphere_rule | apply sphere_best_non_increasing].
  - intros. split;
      [apply image_rule | apply image_best_non_increasing].
Qed.
End SearchProofs.

(** ** The axes the sphere optimizer prints *)

Section ListSet.
Variable A : Type.

Lemma list_set_length (l : list A) (i : nat) (v : A) :
  length (list_set l i v) = length l.
Proof.
  revert i. induction l as [| x l IH]; intros [| i]; cbn; auto.
Qed.

Lemma nth_list_set_other (l : list A) (i j : nat) (v d : A) :
  j <> i -> nth j (list_set l i v) d = nth j l d.
Proof.
  revert i j. induction l as [| x l IH]; intros [| i] [| j] H; cbn;
    try reflexivity; try congruence.
  apply IH. congruence.
Qed.

Lemma nth_list_set_same (l : list A) (i : nat) (v d : A) :
  (i < length l)%nat -> nth i (list_set l i v) d = v.
Proof.
  revert i. induction l as [| x l IH]; intros [| i] H; cbn in *;
    try lia; [reflexivity |].
  apply IH. lia.
Qed.

Lemma nth_error_list_set_other (l : list A) (i j : nat) (v : A) :
  j <> i -> nth_error (list_set l i v) j = nth_error l j.
Proof.
  revert i j. induction l as [| x l IH]; intros [| i] [| j] H; cbn;
    try reflexivity; try congruence.
  apply IH. congruence.
Qed.

Lemma nth_error_list_set_same (l : list A) (i : nat) (v : A) :
  (i < length l)%nat -> nth_error (list_set l i v) i = Some v.
Proof.
  revert i. induction l as [| x l IH]; intros [| i] H; cbn in *;
    try lia; [reflexivity |].
  apply IH. lia.
Qed.
End ListSet.

Module PrintProofs.
Import IEEE Float FloatSpec.

Local Notation "'vzero'" := (vec3_splat (zero : float)).

Lemma normalize_locked_nth (k : nat) (l : list (vec3 float)) (i : nat) :
  (i < length l)%nat ->
  length (normalize_locked k l) = length l /\
  nth i (normalize_locked k l) vzero =
    if (i <? k)%nat then normalize_f (nth i l vzero) else nth i l vzero.
Proof.
  intros Hi. unfold normalize_locked.
  induction k as [| k [IHlen IHnth]].
  - cbn. auto.
  - rewrite seq_S, fold_left_app. cbn [fold_left Nat.add].
    set (l' := fold_left _ (seq 0 k) l) in *.
    split; [rewrite list_set_length; exact IHlen |].
    destruct (Nat.eq_dec i k) as [-> | Hne].
    + rewrite nth_list_set_same by lia.
      rewrite IHnth, Nat.ltb_irrefl.
      replace (k <? S k)%nat with true by (symmetry; apply Nat.ltb_lt; lia).
      reflexivity.
    + rewrite nth_list_set_other by exact Hne.
      rewrite IHnth.
      destruct (Nat.ltb_spec i k), (Nat.ltb_spec i (S k));
        try reflexivity; lia.
Qed.

Lemma read_forced_length (axis_count : nat) (forced : list double) :
  length (fst (read_forced axis_count forced)) = axis_count.
Proof.
  unfold read_forced.
  assert (H : forall st : list (vec3 float) * nat * nat,
            length (fst (fst (fold_left
              (fun '(best_axes, locked_axes, i) (arg : double) =>
                 let component_index := (i mod 3)%nat in
                 let locked_axes :=
                   if (component_index =? 0)%nat then S locked_axes
                   else locked_axes in
                 let k := (locked_axes - 1)%nat in
                 (list_set best_axes k
                    (vec3_set (nth k best_axes (vec3_splat zero))
                              component_index (to_single arg)),
                  locked_axes, S i))
              forced st))) = length (fst (fst st))).
  { induction forced as [| arg forced IH]; intros [[b k] i];
      [reflexivity |].
    cbn [fold_left]. rewrite IH. cbn [fst]. apply list_set_length. }
  rewrite H. cbn [fst]. apply repeat_length.
Qed.

Section Sphere.
Variable R : Type.
Variable sphericalRand : float -> R -> vec3 float * R.
Variable atan2 : double -> double -> double.
Variable axis_count locked_axes : nat.

(** The perturbation writes the free axes only. *)
Lemma perturb_fold_locked (l : list nat) (p : float) (j : nat) :
  (forall i, In i l -> (locked_axes <= i)%nat) ->
  (j < locked_axes)%nat ->
  forall st : list (vec3 float) * R,
    nth j (fst (fold_left
      (fun '(axes, g) i =>
         let '(r, g') := sphericalRand p g in
         (list_set axes i
            (normalize_f (vadd (nth i axes (vec3_splat zero)) r)), g'))
      l st)) vzero = nth j (fst st) vzero.
Proof.
  intros Hl Hj.
  induction l as [| i l IH]; intros [axes g]; [reflexivity |].
  cbn [fold_left].
  destruct (sphericalRand p g) as [r g'].
  rewrite IH by (intros k Hk; apply Hl; now right).
  cbn [fst]. apply nth_list_set_other.
  specialize (Hl i (or_introl eq_refl)). lia.
Qed.

Lemma perturb_locked (b : list (vec3 float)) (p : float) (g : R)
    (j : nat) :
  (j < locked_axes)%nat ->
  nth j (fst (SphereOptimizer.perturb sphericalRand axis_count
                locked_axes b p g)) vzero = nth j b vzero.
Proof.
  intros Hj. unfold SphereOptimizer.perturb.
  rewrite perturb_fold_locked; [reflexivity | | exact Hj].
  intros i Hi. apply in_seq in Hi. lia.
Qed.

Lemma iteration_locked (s : SphereOptimizer.state R) (j : nat) :
  (j < locked_axes)%nat ->
  nth j (SphereOptimizer.best_axes
           (SphereOptimizer.iteration sphericalRand atan2 axis_count
              locked_axes s)) vzero =
  nth j (SphereOptimizer.best_axes s) vzero.
Proof.
  intros Hj. unfold SphereOptimizer.iteration.
  pose proof (perturb_locked (SphereOptimizer.best_axes s)
                (SphereOptimizer.perturbation s)
                (SphereOptimizer.rng s) Hj) as Hp.
  unfold SphereOptimizer.candidate.
  destruct (SphereOptimizer.perturb _ _ _ _ _ _) as [axes g].
  cbn [fst] in Hp.
  destruct (ltb _ _); [exact Hp |].
  destruct (_ >? _)%Z; reflexivity.
Qed.

(** The locked axes are the same after any number of iterations. *)
Lemma loop_locked (fuel : nat) (j : nat) :
  (j < locked_axes)%nat ->
  forall s,
    nth j (SphereOptimizer.best_axes
             (SphereOptimizer.loop sphericalRand atan2 axis_count
                locked_axes fuel s)) vzero =
    nth j (SphereOptimizer.best_axes s) vzero.
Proof.
  intros Hj. induction fuel as [| fuel IH]; intros s; [reflexivity |].
  cbn [SphereOptimizer.loop].
  destruct (SphereOptimizer.continues s); [| reflexivity].
  rewrite IH. now apply iteration_locked.
Qed.
End Sphere.

Lemma printed_axes_nth (axis_count : nat) (b : list (vec3 float))
    (i : nat) :
  (i < axis_count)%nat ->
  nth i (SphereOptimizer.printed_axes axis_count b) vzero =
  SphereOptimizer.snap_axis (nth i b vzero).
Proof.
  intros Hi. unfold SphereOptimizer.printed_axes.
  rewrite (nth_indep _ vzero (SphereOptimizer.snap_axis (nth 0 b vzero)))
    by (rewrite length_map, length_seq; exact Hi).
  rewrite (map_nth (fun i => SphereOptimizer.snap_axis (nth i b vzero))
                   (seq 0 axis_count) 0%nat i).
  rewrite seq_nth by exact Hi. reflexivity.
Qed.

End PrintProofs.

(** ** The extent buffer of [find_kdop_volume] *)

Section ExtentBuffer.
Context {T : Type} {ST : Scalar T}.

Variable points axes : list (vec3 T).

Lemma init_fold (n : nat) (buf : list (vec2 T)) :
  (n <= length buf)%nat ->
  exists b,
    fold_left init_step (seq 0 n) (Some buf) = Some b /\
    length b = length buf /\
    (forall j, (j < n)%nat -> nth_error b j = Some start_extent) /\
    (forall j, (n <= j)%nat -> nth_error b j = nth_error buf j).
Proof.
  induction n as [| n IH]; intros Hn.
  - exists buf. cbn. repeat split; auto. intros j Hj. lia.
  - destruct IH as (b & Hfold & Hlen & Hlo & Hhi); [lia |].
    rewrite seq_S, fold_left_app, Hfold. cbn [fold_left Nat.add init_step].
    unfold buf_write.
    replace (n <? length b)%nat with true
      by (symmetry; apply Nat.ltb_lt; lia).
    eexists. split; [reflexivity |].
    split; [rewrite list_set_length; exact Hlen |].
    split; intros j Hj.
    + destruct (Nat.eq_dec j n) as [-> | Hne].
      * apply nth_error_list_set_same. lia.
      * rewrite nth_error_list_set_other by exact Hne. apply Hlo. lia.
    + rewrite nth_error_list_set_other by lia. apply Hhi. lia.
Qed.

Lemma init_fold_None (l : list nat) : fold_left init_step l None = None.
Proof. induction l; cbn; auto. Qed.

Lemma extent_fold_None (p : vec3 T) (l : list nat) :
  fold_left (extent_step p axes) l None = None.
Proof. induction l; cbn; auto. Qed.

Lemma point_fold_None (n : nat) (l : list nat) :
  fold_left (point_step points axes n) l None = None.
Proof.
  induction l as [| i l IH]; cbn [fold_left]; [reflexivity |].
  unfold point_step at 2. now rewrite extent_fold_None.
Qed.

(** Past the end of the buffer the first loop already fails. *)
Lemma init_fold_overflow (n : nat) (buf : list (vec2 T)) :
  (length buf < n)%nat ->
  fold_left init_step (seq 0 n) (Some buf) = None.
Proof.
  intros Hn.
  replace n with (length buf + S (n - length buf - 1))%nat by lia.
  rewrite seq_app, fold_left_app.
  destruct (init_fold (n := length buf) buf (le_n _))
    as (b & -> & Hlen & _).
  cbn [seq fold_left init_step Nat.add]. unfold buf_write.
  replace (length buf <? length b)%nat with false
    by (symmetry; apply Nat.ltb_ge; lia).
  apply init_fold_None.
Qed.

Lemma extent_fold (i : nat) (n : nat) (b : list (vec2 T)) :
  (n <= length b)%nat ->
  exists b',
    fold_left (extent_step (nth i points (vec3_splat zero)) axes)
              (seq 0 n) (Some b) = Some b' /\
    length b' = length b /\
    (forall j e, (j < n)%nat -> nth_error b j = Some e ->
                 nth_error b' j = Some (widen points axes j e i)) /\
    (forall j, (n <= j)%nat -> nth_error b' j = nth_error b j).
Proof.
  induction n as [| n IH]; intros Hn.
  - exists b. cbn. repeat split; auto. intros j e Hj. lia.
  - destruct IH as (b1 & Hfold & Hlen & Hlo & Hhi); [lia |].
    rewrite seq_S, fold_left_app, Hfold.
    cbn [fold_left Nat.add extent_step]. unfold buf_read, buf_write.
    rewrite (Hhi n (le_n _)).
    destruct (nth_error b n) as [e |] eqn:En;
      [| apply nth_error_None in En; lia].
    replace (n <? length b1)%nat with true
      by (symmetry; apply Nat.ltb_lt; lia).
    eexists. split; [reflexivity |].
    split; [rewrite list_set_length; exact Hlen |].
    split.
    + intros j e' Hj Hj'.
      destruct (Nat.eq_dec j n) as [-> | Hne].
      * rewrite nth_error_list_set_same by lia.
        rewrite En in Hj'. injection Hj' as <-. reflexivity.
      * rewrite nth_error_list_set_other by exact Hne.
        apply Hlo; [lia | exact Hj'].
    + intros j Hj. rewrite nth_error_list_set_other by lia.
      apply Hhi. lia.
Qed.

Lemma point_fold (n : nat) (l : list nat) :
  forall b,
    (n <= length b)%nat ->
    exists b',
      fold_left (point_step points axes n) l (Some b) = Some b' /\
      length b' = length b /\
      (forall j e, (j < n)%nat -> nth_error b j = Some e ->
                   nth_error b' j = Some (fold_left (widen points axes j) l e)).
Proof.
  induction l as [| i l IH]; intros b Hn.
  - exists b. cbn. repeat split; auto.
  - cbn [fold_left]. unfold point_step at 2.
    destruct (extent_fold i b Hn) as (b1 & -> & Hlen1 & Hlo1 & _).
    destruct (IH b1) as (b2 & Hfold & Hlen2 & Hlo2); [lia |].
    exists b2. split; [exact Hfold |]. split; [lia |].
    intros j e Hj He. apply Hlo2; [exact Hj |]. now apply Hlo1.
Qed.

(** With room for [axis_count] entries no access leaves the buffer, and
    the extent of axis [j] is the initial extent widened by the nine
    points in turn. *)
Lemma find_kdop_extents_in_bounds (axis_count : nat)
    (buf : list (vec2 T)) :
  (axis_count <= length buf)%nat ->
  exists out,
    find_kdop_extents points axes axis_count buf = Some out /\
    length out = length buf /\
    forall j, (j < axis_count)%nat ->
      nth_error out j =
        Some (fold_left (widen points axes j) (seq 0 9) start_extent).
Proof.
  intros Hn. unfold find_kdop_extents.
  destruct (init_fold buf Hn) as (b & -> & Hlen & Hlo & _).
  destruct (@point_fold axis_count (seq 0 9) b) as (out & -> & Hlen' & Hout);
    [lia |].
  exists out. split; [reflexivity |]. split; [lia |].
  intros j Hj. apply Hout; [exact Hj | now apply Hlo].
Qed.

Lemma find_kdop_extents_overflow (axis_count : nat)
    (buf : list (vec2 T)) :
  (length buf < axis_count)%nat ->
  find_kdop_extents points axes axis_count buf = None.
Proof.
  intros Hn. unfold find_kdop_extents.
  rewrite init_fold_overflow by exact Hn. apply point_fold_None.
Qed.
End ExtentBuffer.

Module ExtentProofs.
Import Exact Spec Inputs ExactProofs TraceProofs.
Local Open Scope Q_scope.

Section Folds.
Variable d : nat -> Q.

Lemma fold_Qmin_compat (l : list nat) :
  forall a b, a == b ->
    fold_left (fun m i => Qmin m (d i)) l a ==
    fold_left (fun m i => Qmin m (d i)) l b.
Proof.
  induction l as [| i l IH]; intros a b H; cbn; [exact H |].
  apply IH. now rewrite H.
Qed.

Lemma fold_Qmax_compat (l : list nat) :
  forall a b, a == b ->
    fold_left (fun m i => Qmax m (d i)) l a ==
    fold_left (fun m i => Qmax m (d i)) l b.
Proof.
  induction l as [| i l IH]; intros a b H; cbn; [exact H |].
  apply IH. now rewrite H.
Qed.

Lemma fold_Qmin_start (l : list nat) :
  forall a b,
    fold_left (fun m i => Qmin m (d i)) l (Qmin a b) ==
    Qmin a (fold_left (fun m i => Qmin m (d i)) l b).
Proof.
  induction l as [| i l IH]; intros a b; cbn; [reflexivity |].
  rewrite <- IH. apply fold_Qmin_compat.
  symmetry. apply Q.min_assoc.
Qed.

Lemma fold_Qmax_start (l : list nat) :
  forall a b,
    fold_left (fun m i => Qmax m (d i)) l (Qmax a b) ==
    Qmax a (fold_left (fun m i => Qmax m (d i)) l b).
Proof.
  induction l as [| i l IH]; intros a b; cbn; [reflexivity |].
  rewrite <- IH. apply fold_Qmax_compat.
  symmetry. apply Q.max_assoc.
Qed.
End Folds.

Lemma widen_fold (points axes : list (vec3 Q)) (j : nat) (l : list nat) :
  forall e,
    x2 (fold_left (widen points axes j) l e) ==
      fold_left (fun m i => Qmin m (dot (nth i points (vec3_splat zero))
                                        (axis_at axes j))) l (x2 e) /\
    y2 (fold_left (widen points axes j) l e) ==
      fold_left (fun m i => Qmax m (dot (nth i points (vec3_splat zero))
                                        (axis_at axes j))) l (y2 e).
Proof.
  induction l as [| i l IH]; intros e; cbn [fold_left];
    [split; reflexivity |].
  destruct (IH (widen points axes j e i)) as [Hx Hy].
  rewrite Hx, Hy. unfold widen. cbn [x2 y2].
  split.
  - apply fold_Qmin_compat. apply min_Qmin.
  - apply fold_Qmax_compat. apply max_Qmax.
Qed.

(** The folds over the indices 0..8 are the folds over the nine
    points. *)
Lemma nine_points (points : list (vec3 Q)) (axis : vec3 Q) (lo hi : Q) :
  length points = 9%nat ->
  fold_left (fun m i => Qmin m (dot (nth i points (vec3_splat zero)) axis))
            (seq 0 9) lo == Qmin lo (proj_min points axis) /\
  fold_left (fun m i => Qmax m (dot (nth i points (vec3_splat zero)) axis))
            (seq 0 9) hi == Qmax hi (proj_max points axis).
Proof.
  intros H.
  do 9 (destruct points as [| ? points]; [discriminate H |]).
  destruct points; [| discriminate H].
  unfold proj_min, proj_max. cbn [seq fold_left nth].
  split.
  - rewrite !Q.min_assoc. reflexivity.
  - rewrite !Q.max_assoc. reflexivity.
Qed.

(** In exact arithmetic, on a buffer of 32 entries and nine points: for
    [axis_count <= 32] no access leaves the buffer and the extent of
    every axis is the minimum of 1e9 and the projections of the nine
    points, and the maximum of -1e9 and these projections; so it is
    exactly their minimum and maximum as soon as one projection is at
    most 1e9 and one at least -1e9.  For [axis_count > 32] an access
    leaves the buffer. *)
Theorem find_kdop_extents_buffer
    (points axes : list (vec3 Q)) (axis_count : nat)
    (buf : list (vec2 Q)) :
  length points = 9%nat ->
  length buf = EXTENT_BUFFER_SIZE ->
  ((axis_count <= 32)%nat ->
   exists out,
     find_kdop_extents points axes axis_count buf = Some out /\
     forall j, (j < axis_count)%nat ->
       let lo := proj_min points (axis_at axes j) in
       let hi := proj_max points (axis_at axes j) in
       x2 (range_at out j) == Qmin 1000000000 lo /\
       y2 (range_at out j) == Qmax (-1000000000) hi /\
       (lo <= 1000000000 -> x2 (range_at out j) == lo) /\
       (-1000000000 <= hi -> y2 (range_at out j) == hi))
  /\
  ((32 < axis_count)%nat ->
   find_kdop_extents points axes axis_count buf = None).
Proof.
  intros Hpoints Hbuf. unfold EXTENT_BUFFER_SIZE in Hbuf. split.
  - intros Hn.
    destruct (@find_kdop_extents_in_bounds Q scalar_Q points axes
                axis_count buf) as (out & Hout & Hlen & Hval); [lia |].
    exists out. split; [exact Hout |].
    intros j Hj lo hi.
    assert (E : range_at out j =
                fold_left (widen points axes j) (seq 0 9) start_extent).
    { unfold range_at. apply nth_error_nth. now apply Hval. }
    destruct (widen_fold points axes j (seq 0 9) start_extent) as [Hx Hy].
    destruct (nine_points points (axis_at axes j) (x2 start_extent)
                          (y2 start_extent) Hpoints) as [Hmin Hmax].
    rewrite E, Hx, Hy, Hmin, Hmax. fold lo hi.
    change (x2 (@start_extent Q scalar_Q)) with (inject_Z 1000000000).
    change (y2 (@start_extent Q scalar_Q)) with (- inject_Z 1000000000).
    assert (E1 : inject_Z 1000000000 == 1000000000) by reflexivity.
    rewrite E1.
    split; [reflexivity |]. split; [reflexivity |].
    split; intros H.
    + apply Q.min_r. exact H.
    + apply Q.max_r. exact H.
  - intros Hn. apply find_kdop_extents_overflow. lia.
Qed.

Lemma find_kdop_extents_buffer_witness :
  (exists out,
     find_kdop_extents far_points x_axis 1 zero_buffer = Some out /\
     forall j, (j < 1)%nat ->
       let lo := proj_min far_points (axis_at x_axis j) in
       let hi := proj_max far_points (axis_at x_axis j) in
       x2 (range_at out j) == Qmin 1000000000 lo /\
       y2 (range_at out j) == Qmax (-1000000000) hi /\
       (lo <= 1000000000 -> x2 (range_at out j) == lo) /\
       (-1000000000 <= hi -> y2 (range_at out j) == hi)).
Proof.
  apply (@find_kdop_extents_buffer far_points x_axis 1 zero_buffer).
  - reflexivity.
  - reflexivity.
  - lia.
Defined.

(** The function alone, on points that [evaluate_axes_cost] does not
    pass to it: nine points of projection 2e9 on the x axis leave the
    lower extent at the initial 1e9, which is not the minimum of the
    projections. *)
Lemma extents_contract_fails :
  ~ extents_contract far_points x_axis 1 zero_buffer.
Proof.
  intros (out & Hout & H).
  vm_compute in Hout. injection Hout as <-.
  destruct (H 0%nat (le_n 1)) as [Hx _].
  vm_compute in Hx. discriminate Hx.
Qed.
End ExtentProofs.

Module TraceCounterexample.
Import Exact Spec Inputs.
Local Open Scope Q_scope.

(** C3 fails as stated: the fourth axis is not excluded, the ray is
    perpendicular to it and the tracer skips it; the tracer returns
    [[-1, 1]], and at [t = 0] the point (1, 1, 0) projects to 7/5 on the
    fourth axis, outside its slab [[-1, 1]]. *)
Lemma trace_contract_fails :
  ~ trace_contract cut_pos cut_dir 4 cut_axes cut_ranges (0%nat, 1%nat).
Proof.
  unfold trace_contract.
  destruct (kdop_trace_range cut_pos cut_dir 4 cut_axes cut_ranges
                             (0%nat, 1%nat)) as [near far] eqn:E.
  vm_compute in E. injection E as <- <-.
  intros H.
  assert (Hslab : in_slab (ray_point cut_pos cut_dir 0)
                          (axis_at cut_axes 3) (range_at cut_ranges 3)).
  { apply H.
    - vm_compute. discriminate.
    - split; vm_compute; discriminate.
    - lia.
    - unfold excluded. cbn. lia. }
  destruct Hslab as [_ Hhi]. vm_compute in Hhi. apply Hhi. reflexivity.
Qed.
End TraceCounterexample.

(** ** The vertex lists of the kernel, in any arithmetic *)

Section FoldFacts.
Variables A B : Type.

Lemma fold_left_invariant (P : A -> Prop) (f : A -> B -> A) (l : list B) :
  forall a,
    P a -> (forall a b, P a -> In b l -> P (f a b)) -> P (fold_left f l a).
Proof.
  induction l as [| b l IH]; intros a Ha Hf; cbn; [exact Ha |].
  apply IH.
  - apply Hf; [exact Ha | now left].
  - intros a' b' Ha' Hb'. apply Hf; [exact Ha' | now right].
Qed.

Lemma fold_left_ext_in (f g : A -> B -> A) (l : list B) :
  (forall a b, In b l -> f a b = g a b) ->
  forall a, fold_left f l a = fold_left g l a.
Proof.
  induction l as [| b l IH]; intros H a; cbn; [reflexivity |].
  rewrite (H a b) by now left.
  apply IH. intros a' b' Hb'. apply H. now right.
Qed.
End FoldFacts.

Module KernelFacts.
Section Generic.
Context {T : Type} {ST : Scalar T}.

Lemma push_back_length (sides : list (list (vec3 T))) (i : nat)
    (v : vec3 T) :
  length (push_back sides i v) = length sides.
Proof.
  revert i. induction sides as [| si rest IH]; intros [| i]; cbn;
    try reflexivity.
  now rewrite IH.
Qed.

Lemma push_back_Forall (P : vec3 T -> Prop)
    (sides : list (list (vec3 T))) (i : nat) (v : vec3 T) :
  Forall (Forall P) sides -> P v -> Forall (Forall P) (push_back sides i v).
Proof.
  intros Hs Hv. revert i.
  induction Hs as [| si rest Hsi Hrest IH]; intros [| i]; cbn;
    try constructor; auto.
  apply Forall_app. split; [exact Hsi | now constructor].
Qed.

(** What [push_back] does to the list of side [i]. *)
Lemma push_back_nth (sides : list (list (vec3 T))) (k i : nat)
    (v u : vec3 T) :
  In u (nth i (push_back sides k v) []) ->
  In u (nth i sides []) \/ (i = k /\ u = v).
Proof.
  revert k i.
  induction sides as [| si rest IH]; intros [| k] [| i]; cbn; auto.
  - rewrite in_app_iff. cbn. intros [H | [H | []]]; auto.
  - intros H. apply IH in H. destruct H as [H | [-> ->]]; auto.
Qed.

(** An invariant of the vertex lists that every pushed vertex satisfies
    holds of the result of an edge step. *)
Lemma edge_step_invariant (I : list (list (vec3 T)) -> Prop)
    (axis_count : nat) (axes : list (vec3 T)) (ranges : list (vec2 T))
    (a b : nat) (sides : list (list (vec3 T))) (i : nat) :
  I sides ->
  (forall s v,
      I s ->
      ltb (kdop_distance v axis_count axes ranges) epsilon = true ->
      (exists t,
          v = vadd (edge_point (axis_at axes a) (axis_at axes b)
                      (vec2_get (range_at ranges a) (i mod 2))
                      (vec2_get (range_at ranges b) (i / 2)))
                   (vscale t (cross (axis_at axes a) (axis_at axes b)))) ->
      I (push_back (push_back s (a * 2 + i mod 2) v) (b * 2 + i / 2) v)) ->
  I (edge_step axis_count axes ranges a b sides i).
Proof.
  intros Hs Hpush. unfold edge_step.
  set (point := edge_point _ _ _ _).
  set (dir := cross _ _).
  set (hits := kdop_trace_range _ _ _ _ _ _).
  destruct (ltb (snd hits) (fst hits)); [exact Hs |].
  set (va := vadd point (vscale (fst hits) dir)).
  set (vb := vadd point (vscale (snd hits) dir)).
  destruct (ltb (kdop_distance va axis_count axes ranges) epsilon) eqn:Ea;
    destruct (ltb (kdop_distance vb axis_count axes ranges) epsilon) eqn:Eb;
    try exact Hs.
  - apply Hpush; [| exact Eb | now exists (snd hits)].
    apply Hpush; [exact Hs | exact Ea | now exists (fst hits)].
  - apply Hpush; [exact Hs | exact Ea | now exists (fst hits)].
  - apply Hpush; [exact Hs | exact Eb | now exists (snd hits)].
Qed.

(** The same for the whole first loop nest: [a] and [b] range over the
    pairs of distinct indices below [axis_count], [i] over the four
    combinations of offsets. *)
Lemma collect_vertices_invariant (I : list (list (vec3 T)) -> Prop)
    (axis_count : nat) (axes : list (vec3 T)) (ranges : list (vec2 T)) :
  I (repeat [] (axis_count * 2)) ->
  (forall a b i s v,
      (a < axis_count)%nat -> (b < axis_count)%nat -> a <> b ->
      (i < 4)%nat ->
      I s ->
      ltb (kdop_distance v axis_count axes ranges) epsilon = true ->
      (exists t,
          v = vadd (edge_point (axis_at axes a) (axis_at axes b)
                      (vec2_get (range_at ranges a) (i mod 2))
                      (vec2_get (range_at ranges b) (i / 2)))
                   (vscale t (cross (axis_at axes a) (axis_at axes b)))) ->
      I (push_back (push_back s (a * 2 + i mod 2) v) (b * 2 + i / 2) v)) ->
  I (collect_vertices axis_count axes ranges).
Proof.
  intros H0 Hpush. unfold collect_vertices.
  apply fold_left_invariant; [exact H0 |].
  intros s a Hs Ha. apply in_seq in Ha.
  apply fold_left_invariant; [exact Hs |].
  intros s' b Hs' Hb. apply in_seq in Hb.
  unfold pair_step. destruct (b =? a)%nat eqn:E; [exact Hs' |].
  apply Nat.eqb_neq in E.
  apply fold_left_invariant; [exact Hs' |].
  intros s'' i Hs'' Hi. apply in_seq in Hi.
  apply edge_step_invariant; [exact Hs'' |].
  intros s0 v Hs0 Hv Ht.
  apply Hpush; auto; lia.
Qed.

Lemma collect_vertices_sides (axis_count : nat)
    (axes : list (vec3 T)) (ranges : list (vec2 T)) :
  length (collect_vertices axis_count axes ranges) = (axis_count * 2)%nat.
Proof.
  apply (collect_vertices_invariant
           (fun s => length s = (axis_count * 2)%nat)).
  - apply repeat_length.
  - intros a b i s v _ _ _ _ Hs _ _. now rewrite !push_back_length.
Qed.

Lemma kept_vertex_filter (axis_count : nat)
    (axes : list (vec3 T)) (ranges : list (vec2 T))
    (side : list (vec3 T)) (v : vec3 T) :
  In side (collect_vertices axis_count axes ranges) ->
  In v side ->
  ltb (kdop_distance v axis_count axes ranges) epsilon = true.
Proof.
  revert side v.
  apply (collect_vertices_invariant
           (fun s => forall side v, In side s -> In v side ->
              ltb (kdop_distance v axis_count axes ranges) epsilon = true)).
  - intros side v Hs. apply repeat_spec in Hs. subst. intros [].
  - intros a b i s u _ _ _ _ Hs Hu _ side v Hside Hv.
    assert (P : forall s' k,
               (forall side v, In side s' -> In v side ->
                  ltb (kdop_distance v axis_count axes ranges) epsilon
                  = true) ->
               forall side v, In side (push_back s' k u) -> In v side ->
                  ltb (kdop_distance v axis_count axes ranges) epsilon
                  = true).
    { clear - Hu. intros s' k H side v Hside Hv.
      assert (F : Forall (Forall (fun v =>
                    ltb (kdop_distance v axis_count axes ranges) epsilon
                    = true)) (push_back s' k u)).
      { apply push_back_Forall; [| exact Hu].
        apply Forall_forall. intros x Hx. apply Forall_forall.
        intros y Hy. exact (H x y Hx Hy). }
      rewrite Forall_forall in F. specialize (F side Hside).
      rewrite Forall_forall in F. exact (F v Hv). }
    exact (P _ _ (P _ _ Hs) side v Hside Hv).
Qed.
End Generic.
End KernelFacts.

Module KernelProofs.
Import KernelFacts.

Section Generic.
Context {T : Type} {ST : Scalar T}.

(** X1.  Every vertex kept in a vertex list passed the filter:
    [kdop_distance] of the vertex to the k-DOP is below [epsilon]. *)
Theorem collect_vertices_filtered (axis_count : nat)
    (axes : list (vec3 T)) (ranges : list (vec2 T)) :
  Forall
    (Forall (fun v =>
       ltb (kdop_distance v axis_count axes ranges) epsilon = true))
    (collect_vertices axis_count axes ranges).
Proof.
  apply (collect_vertices_invariant
           (Forall (Forall (fun v =>
              ltb (kdop_distance v axis_count axes ranges) epsilon = true)))).
  - apply Forall_forall. intros s Hs. apply repeat_spec in Hs. subst.
    constructor.
  - intros a b i s v _ _ _ _ Hs Hv _.
    apply push_back_Forall; [| exact Hv].
    apply push_back_Forall; [exact Hs | exact Hv].
Qed.

(** *** Degenerate inputs *)

Section Volume.
Context {LT : Libm T}.

Lemma sides_volume_no_face (axes : list (vec3 T)) (ref_center : vec3 T)
    (sides : list (list (vec3 T))) :
  Forall (fun s => (length s <= 2)%nat) sides ->
  forall i total, sides_volume axes ref_center i sides total = total.
Proof.
  induction 1 as [| si rest Hsi Hrest IH]; intros i total; cbn;
    [reflexivity |].
  rewrite IH. unfold side_step.
  apply Nat.leb_le in Hsi. now rewrite Hsi.
Qed.

(** X2.  With fewer than two axes there is no pair of planes to
    intersect: every vertex list stays empty and the volume is zero,
    for all axes and ranges. *)
Theorem fewer_than_two_axes (axis_count : nat)
    (axes : list (vec3 T)) (ranges : list (vec2 T)) :
  (axis_count <= 1)%nat ->
  collect_vertices axis_count axes ranges = repeat [] (axis_count * 2) /\
  calc_kdop_volume axis_count axes ranges = zero.
Proof.
  intros H.
  assert (E : collect_vertices axis_count axes ranges
              = repeat [] (axis_count * 2)).
  { destruct axis_count as [| [| n]]; [reflexivity | reflexivity | lia]. }
  split; [exact E |].
  unfold calc_kdop_volume. rewrite E.
  apply sides_volume_no_face.
  apply Forall_forall. intros s Hs. apply repeat_spec in Hs. subst. cbn. lia.
Qed.

(** *** The kernel reads the arrays below [axis_count] only *)

Section Reads.
Variable axis_count : nat.
Variables axes axes' : list (vec3 T).
Variables ranges ranges' : list (vec2 T).
Hypothesis same_axes :
  forall a, (a < axis_count)%nat -> axis_at axes a = axis_at axes' a.
Hypothesis same_ranges :
  forall a, (a < axis_count)%nat -> range_at ranges a = range_at ranges' a.

Lemma kdop_trace_range_reads (pos dir : vec3 T) (ex : nat * nat) :
  kdop_trace_range pos dir axis_count axes ranges ex =
  kdop_trace_range pos dir axis_count axes' ranges' ex.
Proof.
  unfold kdop_trace_range. apply fold_left_ext_in.
  intros nf a Ha. apply in_seq in Ha. unfold trace_step.
  rewrite same_axes, same_ranges by lia. reflexivity.
Qed.

Lemma kdop_distance_reads (pos : vec3 T) :
  kdop_distance pos axis_count axes ranges =
  kdop_distance pos axis_count axes' ranges'.
Proof.
  unfold kdop_distance. apply fold_left_ext_in.
  intros m a Ha. apply in_seq in Ha. unfold distance_step.
  rewrite same_axes, same_ranges by lia. reflexivity.
Qed.

Lemma collect_vertices_reads :
  collect_vertices axis_count axes ranges =
  collect_vertices axis_count axes' ranges'.
Proof.
  unfold collect_vertices. apply fold_left_ext_in.
  intros s a Ha. apply in_seq in Ha.
  apply fold_left_ext_in.
  intros s' b Hb. apply in_seq in Hb.
  unfold pair_step. destruct (b =? a)%nat; [reflexivity |].
  apply fold_left_ext_in.
  intros s'' i _. unfold edge_step.
  rewrite !(same_axes (a := a)), !(same_axes (a := b)) by lia.
  rewrite !(same_ranges (a := a)), !(same_ranges (a := b)) by lia.
  rewrite !kdop_trace_range_reads.
  rewrite !kdop_distance_reads. reflexivity.
Qed.

Lemma sides_volume_reads (ref_center : vec3 T)
    (sides : list (list (vec3 T))) :
  forall i total,
    (i + length sides <= axis_count * 2)%nat ->
    sides_volume axes ref_center i sides total =
    sides_volume axes' ref_center i sides total.
Proof.
  induction sides as [| si rest IH]; intros i total Hi; cbn; [reflexivity |].
  cbn in Hi. rewrite IH by lia. f_equal.
  unfold side_step. rewrite same_axes; [reflexivity |].
  apply Nat.Div0.div_lt_upper_bound. lia.
Qed.

Lemma calc_kdop_volume_reads :
  calc_kdop_volume axis_count axes ranges =
  calc_kdop_volume axis_count axes' ranges'.
Proof.
  unfold calc_kdop_volume. rewrite <- collect_vertices_reads.
  apply sides_volume_reads.
  rewrite collect_vertices_sides. lia.
Qed.

(** X3.  [calc_kdop_volume] depends on the entries of [axes] and
    [ranges] of index below [axis_count] only: with two pairs of arrays
    that agree there, the ray tracer, the distance, the vertex lists and
    the volume are the same. *)
Theorem calc_kdop_volume_reads_below_axis_count :
  (forall pos dir ex,
     kdop_trace_range pos dir axis_count axes ranges ex =
     kdop_trace_range pos dir axis_count axes' ranges' ex) /\
  (forall pos,
     kdop_distance pos axis_count axes ranges =
     kdop_distance pos axis_count axes' ranges') /\
  collect_vertices axis_count axes ranges =
  collect_vertices axis_count axes' ranges' /\
  calc_kdop_volume axis_count axes ranges =
  calc_kdop_volume axis_count axes' ranges'.
Proof.
  split; [exact kdop_trace_range_reads |].
  split; [exact kdop_distance_reads |].
  split; [exact collect_vertices_reads |].
  unfold calc_kdop_volume. rewrite <- collect_vertices_reads.
  apply sides_volume_reads.
  rewrite collect_vertices_sides. lia.
Qed.
End Reads.

(** *** The apex of the fan *)

Lemma find_ref_center_cases (sides : list (list (vec3 T))) :
  (exists before side after,
      sides = before ++ side :: after /\
      Forall (fun s => (length s <= 2)%nat) before /\
      (2 < length side)%nat /\
      find_ref_center sides = nth 0 side (vec3_splat zero) /\
      In (find_ref_center sides) side)
  \/
  (Forall (fun s => (length s <= 2)%nat) sides /\
   find_ref_center sides = vec3_splat zero).
Proof.
  induction sides as [| si rest IH];
    [right; split; [constructor | reflexivity] |].
  cbn [find_ref_center].
  destruct (2 <? length si)%nat eqn:E.
  - apply Nat.ltb_lt in E. left. exists [], si, rest.
    split; [reflexivity |]. split; [constructor |].
    split; [exact E |]. split; [reflexivity |].
    destruct si as [| v si']; [cbn in E; lia | now left].
  - apply Nat.ltb_ge in E.
    destruct IH
      as [(before & side & after & -> & Hb & Hlen & Hr & Hv) | [Hall Hr]].
    + left. exists (si :: before), side, after.
      split; [reflexivity |]. split; [now constructor |]. auto.
    + right. split; [now constructor | exact Hr].
Qed.

(** X4.  The apex [ref_center] of the tetrahedra.  Either some side has
    more than two vertices: then [ref_center] is the first vertex of the
    first such side, a vertex that passed the distance filter (it can be
    the zero vector, when that vertex is the origin).  Or no side has
    more than two vertices: then [ref_center] is the zero vector it is
    initialized with, and the volume returned is zero. *)
Theorem ref_center_kept_or_no_volume (axis_count : nat)
    (axes : list (vec3 T)) (ranges : list (vec2 T)) :
  let sides := collect_vertices axis_count axes ranges in
  let ref_center := find_ref_center sides in
  (exists before side after,
      sides = before ++ side :: after /\
      Forall (fun s => (length s <= 2)%nat) before /\
      (2 < length side)%nat /\
      ref_center = nth 0 side (vec3_splat zero) /\
      ltb (kdop_distance ref_center axis_count axes ranges) epsilon = true)
  \/
  (Forall (fun s => (length s <= 2)%nat) sides /\
   ref_center = vec3_splat zero /\
   calc_kdop_volume axis_count axes ranges = zero).
Proof.
  intros sides ref_center.
  destruct (find_ref_center_cases sides)
    as [(before & side & after & E & Hb & Hlen & Hr & Hv) | [Hall Hr]].
  - left. exists before, side, after. repeat split; auto.
    assert (Hin : In side sides) by (rewrite E; apply in_elt).
    exact (kept_vertex_filter _ _ _ _ _ Hin Hv).
  - right. repeat split; auto.
    unfold calc_kdop_volume. now apply sides_volume_no_face.
Qed.
End Volume.

(** *** De-duplication *)

Lemma dedup_from_In (prev : vec3 T) (l : list (vec3 T)) (v : vec3 T) :
  In v (dedup_from prev l) -> In v l.
Proof.
  revert prev. induction l as [| cur rest IH]; intros prev; cbn; [tauto |].
  destruct (ltb _ _).
  - intros H. right. exact (IH _ H).
  - intros [H | H]; [now left | right; exact (IH _ H)].
Qed.

Lemma dedup_from_length (prev : vec3 T) (l : list (vec3 T)) :
  (length (dedup_from prev l) <= length l)%nat.
Proof.
  revert prev. induction l as [| cur rest IH]; intros prev; cbn; [lia |].
  destruct (ltb _ _); cbn.
  - specialize (IH prev). lia.
  - specialize (IH cur). lia.
Qed.

Lemma dedup_from_apart (prev : vec3 T) (l : list (vec3 T)) :
  apart_chain prev (dedup_from prev l).
Proof.
  revert prev. induction l as [| cur rest IH]; intros prev; cbn; [exact I |].
  destruct (ltb _ _) eqn:E; [apply IH |].
  cbn. split; [exact E | apply IH].
Qed.

(** X5.  The de-duplication loop only erases: what it keeps are
    vertices of the list, not more than before; and no kept vertex is
    within [epsilon] of the kept vertex before it (for the first one:
    of the last vertex of the list before the loop). *)
Theorem dedup_keeps_vertices_apart (l : list (vec3 T)) :
  (forall v, In v (dedup l) -> In v l) /\
  (length (dedup l) <= length l)%nat /\
  apart_chain (last l (vec3_splat zero)) (dedup l).
Proof.
  unfold dedup. split; [| split].
  - intros v. apply dedup_from_In.
  - apply dedup_from_length.
  - apply dedup_from_apart.
Qed.
End Generic.

Import Exact.

Lemma fewer_than_two_axes_witness :
  collect_vertices (ST := IEEE.scalar_double) 1
    [FloatSpec.dvec3 0 1 0] [FloatSpec.dvec2 (-2) 3] = repeat [] (1 * 2) /\
  calc_kdop_volume (ST := IEEE.scalar_double)
    (LT := IEEE.libm_double FloatSpec.atan2_quadrant) 1
    [FloatSpec.dvec3 0 1 0] [FloatSpec.dvec2 (-2) 3]
  = zero (ST := IEEE.scalar_double).
Proof.
  apply (@fewer_than_two_axes IEEE.double IEEE.scalar_double
           (IEEE.libm_double FloatSpec.atan2_quadrant) 1).
  lia.
Defined.

Lemma calc_kdop_volume_reads_below_axis_count_witness :
  let axes := [mk_vec3 1 0 0; mk_vec3 0 1 0] in
  let ranges := [mk_vec2 (-1) 1; mk_vec2 (-1) 1] in
  let axes' := axes ++ [mk_vec3 5 5 5] in
  let ranges' := ranges ++ [mk_vec2 7 (-7)] in
  (forall pos dir ex,
     kdop_trace_range pos dir 2 axes ranges ex =
     kdop_trace_range pos dir 2 axes' ranges' ex) /\
  (forall pos,
     kdop_distance pos 2 axes ranges = kdop_distance pos 2 axes' ranges') /\
  collect_vertices 2 axes ranges = collect_vertices 2 axes' ranges' /\
  calc_kdop_volume (LT := libm_Q) 2 axes ranges =
  calc_kdop_volume (LT := libm_Q) 2 axes' ranges'.
Proof.
  intros axes ranges axes' ranges'.
  apply (@calc_kdop_volume_reads_below_axis_count Q scalar_Q libm_Q 2).
  - intros [| [| a]] Ha; [reflexivity | reflexivity | lia].
  - intros [| [| a]] Ha; [reflexivity | reflexivity | lia].
Defined.
End KernelProofs.
(** ** The kernel in exact arithmetic *)

Module ExactKernel.
Import Exact Spec ExactProofs KernelFacts.
Local Open Scope Q_scope.

Lemma cross_orthogonal (a b : vec3 Q) :
  dot (cross a b) a == 0 /\ dot (cross a b) b == 0.
Proof. rewrite !dot_Q. cbn. split; ring. Qed.

Lemma dot_ray (p d axis : vec3 Q) (t : Q) :
  dot (vadd p (vscale t d)) axis == dot p axis + t * dot d axis.
Proof. rewrite !dot_Q. cbn. ring. Qed.

(** The projections of the point of an edge line on the two axes. *)
Lemma edge_point_proj (a b : vec3 Q) (h1 h2 : Q) :
  dot a a == 1 -> dot b b == 1 -> ~ dot a b * dot a b == 1 ->
  dot (edge_point a b h1 h2) a == h1 /\ dot (edge_point a b h1 h2) b == h2.
Proof.
  intros Ha Hb Hd.
  assert (Hden : ~ 1 - dot a b * dot a b == 0).
  { intros H. apply Hd. lra. }
  unfold edge_point. rewrite !dot_vadd_vscale.
  rewrite Ha, Hb, (dot_sym b a).
  change (@one Q scalar_Q) with 1.
  change (@sub Q scalar_Q) with Qminus.
  change (@mul Q scalar_Q) with Qmult.
  change (@div Q scalar_Q) with Qdiv.
  set (d := dot a b) in *.
  split; field; exact Hden.
Qed.

(** Every point of the edge line of two planes is on both planes. *)
Lemma edge_line_proj (a b : vec3 Q) (h1 h2 t : Q) :
  dot a a == 1 -> dot b b == 1 -> ~ dot a b * dot a b == 1 ->
  let v := vadd (edge_point a b h1 h2) (vscale t (cross a b)) in
  dot v a == h1 /\ dot v b == h2.
Proof.
  intros Ha Hb Hd v. unfold v. rewrite !dot_ray.
  destruct (edge_point_proj h1 h2 Ha Hb Hd) as [-> ->].
  destruct (cross_orthogonal a b) as [-> ->].
  split; ring.
Qed.

Lemma side_index (a k : nat) :
  (k < 2)%nat ->
  ((a * 2 + k) / 2 = a)%nat /\ ((a * 2 + k) mod 2 = k)%nat.
Proof.
  intros Hk. split.
  - rewrite Nat.add_comm.
    rewrite Nat.div_add by lia. rewrite Nat.div_small by lia. lia.
  - rewrite Nat.add_comm, Nat.Div0.mod_add. now apply Nat.mod_small.
Qed.

(** X6.  For unit axes no two of which are parallel, the vertices kept
    for side [i] all lie on the plane of that side: their projection on
    the axis [i / 2] is the lower ([i mod 2 = 0]) or upper extent of the
    axis. *)
Theorem vertices_on_side_planes (axis_count : nat)
    (axes : list (vec3 Q)) (ranges : list (vec2 Q)) (i : nat) (v : vec3 Q) :
  (forall a, (a < axis_count)%nat ->
     dot (axis_at axes a) (axis_at axes a) == 1) ->
  (forall a b, (a < axis_count)%nat -> (b < axis_count)%nat -> a <> b ->
     ~ dot (axis_at axes a) (axis_at axes b)
       * dot (axis_at axes a) (axis_at axes b) == 1) ->
  In v (nth i (collect_vertices axis_count axes ranges) []) ->
  dot v (axis_at axes (i / 2))
  == vec2_get (range_at ranges (i / 2)) (i mod 2).
Proof.
  intros Hunit Hpar. revert i v.
  apply (collect_vertices_invariant
           (fun s => forall i v, In v (nth i s []) ->
              dot v (axis_at axes (i / 2))
              == vec2_get (range_at ranges (i / 2)) (i mod 2))).
  - intros i v. rewrite nth_repeat. intros [].
  - intros a b k s u Ha Hb Hab Hk Hs _ [t ->] i v Hin.
    destruct (@edge_line_proj (axis_at axes a) (axis_at axes b)
                (vec2_get (range_at ranges a) (k mod 2))
                (vec2_get (range_at ranges b) (k / 2)) t
                (Hunit a Ha) (Hunit b Hb) (Hpar a b Ha Hb Hab))
      as [Pa Pb].
    apply push_back_nth in Hin. destruct Hin as [Hin | [-> ->]].
    + apply push_back_nth in Hin. destruct Hin as [Hin | [-> ->]].
      * now apply Hs.
      * destruct (@side_index a (k mod 2)) as [-> ->];
          [apply Nat.mod_upper_bound; lia |].
        exact Pa.
    + destruct (@side_index b (k / 2)) as [-> ->];
        [apply Nat.Div0.div_lt_upper_bound; lia |].
      exact Pb.
Qed.

Lemma vertices_on_side_planes_witness :
  let axes := [mk_vec3 1 0 0; mk_vec3 0 1 0; mk_vec3 0 0 1] in
  let ranges := [mk_vec2 (-1) 1; mk_vec2 (-2) 2; mk_vec2 (-3) 3] in
  let v := hd (vec3_splat 0) (nth 3 (collect_vertices 3 axes ranges) []) in
  dot v (axis_at axes (3 / 2)) == vec2_get (range_at ranges (3 / 2)) (3 mod 2).
Proof.
  intros axes ranges v.
  apply (@vertices_on_side_planes 3 axes ranges 3 v).
  - intros [| [| [| a]]] Ha; try reflexivity. lia.
  - intros [| [| [| a]]] [| [| [| b]]] Ha Hb Hab H; try lia;
      vm_compute in H; discriminate H.
  - vm_compute. left. reflexivity.
Defined.

(** X7.  Every kept vertex is within [epsilon] of the slab of every
    axis whose range is not empty: its projection on the axis leaves
    the range by less than 1e-5. *)
Theorem vertices_within_epsilon (axis_count : nat)
    (axes : list (vec3 Q)) (ranges : list (vec2 Q))
    (side : list (vec3 Q)) (v : vec3 Q) (a : nat) :
  In side (collect_vertices axis_count axes ranges) ->
  In v side ->
  (a < axis_count)%nat ->
  x2 (range_at ranges a) <= y2 (range_at ranges a) ->
  x2 (range_at ranges a) - (1 # 100000) < dot v (axis_at axes a) /\
  dot v (axis_at axes a) < y2 (range_at ranges a) + (1 # 100000).
Proof.
  intros Hside Hv Ha Hxy.
  pose proof (kept_vertex_filter _ _ _ _ _ Hside Hv) as F.
  apply Qltb_lt in F.
  change (@epsilon Q scalar_Q) with (1 # 100000) in F.
  unfold kdop_distance in F.
  destruct (DistanceProofs.distance_fold v axes ranges (seq 0 axis_count)
              zero) as (_ & Hmax & _).
  specialize (Hmax a). rewrite in_seq in Hmax.
  specialize (Hmax (conj (Nat.le_0_l a) Ha)).
  rewrite DistanceProofs.axis_distance_outside in Hmax.
  unfold outside_amount in Hmax.
  destruct (Qlt_le_dec _ _); [lra |].
  destruct (Qlt_le_dec _ _); lra.
Qed.

Lemma vertices_within_epsilon_witness :
  let axes := [mk_vec3 1 0 0; mk_vec3 0 1 0; mk_vec3 0 0 1] in
  let ranges := [mk_vec2 (-1) 1; mk_vec2 (-2) 2; mk_vec2 (-3) 3] in
  let side := nth 3 (collect_vertices 3 axes ranges) [] in
  let v := hd (vec3_splat 0) side in
  x2 (range_at ranges 2) - (1 # 100000) < dot v (axis_at axes 2) /\
  dot v (axis_at axes 2) < y2 (range_at ranges 2) + (1 # 100000).
Proof.
  intros axes ranges side v.
  apply (@vertices_within_epsilon 3 axes ranges side v 2).
  - vm_compute. do 3 right. left. reflexivity.
  - vm_compute. left. reflexivity.
  - lia.
  - vm_compute. discriminate.
Defined.

(** *** [kdop_distance] and the order of the axes *)

Lemma combine_nth_at (axes : list (vec3 Q)) (ranges : list (vec2 Q))
    (a : nat) :
  length axes = length ranges ->
  nth a (combine axes ranges) (vec3_splat zero, mk_vec2 zero zero)
  = (axis_at axes a, range_at ranges a).
Proof. intros H. now apply combine_nth. Qed.

Lemma permuted_index (n : nat) (axes axes' : list (vec3 Q))
    (ranges ranges' : list (vec2 Q)) (a : nat) :
  length axes = n -> length ranges = n ->
  length axes' = n -> length ranges' = n ->
  Permutation (combine axes ranges) (combine axes' ranges') ->
  (a < n)%nat ->
  exists a', (a' < n)%nat /\
    axis_at axes' a' = axis_at axes a /\
    range_at ranges' a' = range_at ranges a.
Proof.
  intros L1 L2 L3 L4 P Ha.
  assert (Hin : In (axis_at axes a, range_at ranges a)
                   (combine axes ranges)).
  { rewrite <- combine_nth_at by congruence.
    apply nth_In. rewrite length_combine. lia. }
  apply (Permutation_in _ P) in Hin.
  apply (In_nth _ _ (vec3_splat zero, mk_vec2 zero zero)) in Hin.
  destruct Hin as (a' & Ha' & E).
  rewrite length_combine in Ha'.
  rewrite combine_nth_at in E by congruence.
  exists a'. split; [lia |]. now inversion E.
Qed.

Lemma kdop_distance_le (n : nat) (pos : vec3 Q)
    (axes axes' : list (vec3 Q)) (ranges ranges' : list (vec2 Q)) :
  (forall a, (a < n)%nat ->
     exists a', (a' < n)%nat /\
       axis_at axes' a' = axis_at axes a /\
       range_at ranges' a' = range_at ranges a) ->
  kdop_distance pos n axes ranges <= kdop_distance pos n axes' ranges'.
Proof.
  intros Hidx. unfold kdop_distance.
  destruct (DistanceProofs.distance_fold pos axes ranges (seq 0 n) zero)
    as (_ & _ & Hatt).
  destruct (DistanceProofs.distance_fold pos axes' ranges' (seq 0 n) zero)
    as (H0 & Hmax & _).
  destruct Hatt as [-> | (a & Ha & ->)]; [exact H0 |].
  apply in_seq in Ha.
  destruct (Hidx a) as (a' & Ha' & <- & <-); [lia |].
  apply Hmax. apply in_seq. lia.
Qed.

(** X8.  [kdop_distance] does not depend on the order of the axes: two
    arrays of [n] (axis, range) pairs that are permutations of each
    other give the same distance for every point. *)
Theorem kdop_distance_permutation (n : nat) (pos : vec3 Q)
    (axes axes' : list (vec3 Q)) (ranges ranges' : list (vec2 Q)) :
  length axes = n -> length ranges = n ->
  length axes' = n -> length ranges' = n ->
  Permutation (combine axes ranges) (combine axes' ranges') ->
  kdop_distance pos n axes ranges == kdop_distance pos n axes' ranges'.
Proof.
  intros L1 L2 L3 L4 P.
  apply Qle_antisym; apply kdop_distance_le; intros a Ha.
  - now apply (@permuted_index n axes axes' ranges ranges').
  - apply (@permuted_index n axes' axes ranges' ranges); auto.
    now apply Permutation_sym.
Qed.

Lemma kdop_distance_permutation_witness :
  let a1 := mk_vec3 1 0 0 in
  let a2 := mk_vec3 0 (3 # 5) (4 # 5) in
  let r1 := mk_vec2 (-1) 1 in
  let r2 := mk_vec2 0 2 in
  kdop_distance (mk_vec3 5 5 5) 2 [a1; a2] [r1; r2]
  == kdop_distance (mk_vec3 5 5 5) 2 [a2; a1] [r2; r1].
Proof.
  intros a1 a2 r1 r2.
  apply (@kdop_distance_permutation 2 (mk_vec3 5 5 5)
           [a1; a2] [a2; a1] [r1; r2] [r2; r1]); try reflexivity.
  cbn. apply perm_swap.
Defined.

(** *** The tetrahedra of the fan *)

(** X9.  The term a tetrahedron adds to the volume is its geometric
    volume: a sixth of the absolute value of the triple product of the
    edge vectors from the apex [ref_center]. *)
Theorem tetra_volume_triple_product (va vb ref2 ref_center : vec3 Q) :
  tetra_volume va vb ref2 ref_center
  == Qabs (dot (vsub va ref_center)
               (cross (vsub vb ref_center) (vsub ref2 ref_center))) / 6.
Proof.
  unfold tetra_volume.
  change (@div Q scalar_Q) with Qdiv.
  change (@fabs Q scalar_Q) with Qabs.
  change (@of_Z Q scalar_Q 6) with 6.
  apply Qmult_comp; [| reflexivity].
  apply Qabs_wd.
  unfold determinant, mat4_column. rewrite dot_Q. cbn. ring.
Qed.

(** *** The tangent frame of a side *)

Section Frame.
Context {LT : Libm Q}.

Lemma normalize_cross_orthogonal (normal major : vec3 Q) :
  dot (normalize (cross normal major)) normal == 0.
Proof.
  unfold normalize, vmuls.
  generalize (inversesqrt (dot (cross normal major) (cross normal major))).
  intros s. rewrite !dot_Q. cbn. ring.
Qed.

(** X10.  The three vectors [create_tangent_space] returns are pairwise
    orthogonal, for every normal and whatever [sqrt] returns; the third
    one is the normal itself. *)
Theorem tangent_space_orthogonal (normal : vec3 Q) :
  let tbn := create_tangent_space normal in
  let tangent := fst (fst tbn) in
  let bitangent := snd (fst tbn) in
  snd tbn = normal /\
  dot tangent normal == 0 /\
  dot bitangent normal == 0 /\
  dot bitangent tangent == 0.
Proof.
  unfold create_tangent_space. cbn zeta.
  destruct (ltb (fabs (vx normal)) M_1_SQRT3);
    [| destruct (ltb (fabs (vy normal)) M_1_SQRT3)];
    (split; [reflexivity |]);
    unfold normalize, vmuls;
    match goal with
    | |- context [inversesqrt ?x] => generalize (inversesqrt x)
    end;
    intros s; rewrite !dot_Q; cbn; repeat split; ring.
Qed.

Lemma Qsquare_nonneg (x : Q) : 0 <= x * x.
Proof.
  destruct (Qlt_le_dec x 0) as [H | H].
  - setoid_replace (x * x) with ((- x) * (- x)) by ring.
    apply Qmult_le_0_compat; lra.
  - apply Qmult_le_0_compat; lra.
Qed.

Lemma square_pos (x : Q) :
  (57735026918962576451 # 100000000000000000000) <= Qabs x -> 0 < x * x.
Proof.
  intros H.
  assert (Hp : 0 < Qabs x).
  { eapply Qlt_le_trans; [| exact H]. reflexivity. }
  setoid_replace (x * x) with (Qabs x * Qabs x).
  - now apply Qmult_lt_0_compat.
  - rewrite <- Qabs_Qmult. symmetry. apply Qabs_pos. apply Qsquare_nonneg.
Qed.

Lemma lagrange (a b : vec3 Q) :
  dot (cross a b) (cross a b) == dot a a * dot b b - dot a b * dot a b.
Proof. rewrite !dot_Q. cbn. ring. Qed.

Lemma dot_vmuls (c : vec3 Q) (s : Q) :
  dot (vmuls c s) (vmuls c s) == dot c c * (s * s).
Proof. rewrite !dot_Q. cbn. ring. Qed.

(** X11.  For a unit normal the vector that is normalized into the
    tangent is not the zero vector: the major axis chosen is never
    parallel to the normal.  Where [sqrt] is exact on its squared
    length, tangent and bitangent are unit vectors. *)
Theorem tangent_direction_nonzero (normal : vec3 Q) :
  dot normal normal == 1 ->
  let tbn := create_tangent_space normal in
  exists c,
    fst (fst tbn) = normalize c /\
    0 < dot c c /\
    (sqrt (dot c c) * sqrt (dot c c) == dot c c ->
     dot (fst (fst tbn)) (fst (fst tbn)) == 1 /\
     dot (snd (fst tbn)) (snd (fst tbn)) == 1).
Proof.
  intros Hunit tbn.
  assert (Hmajor : exists m,
            fst (fst tbn) = normalize (cross normal m) /\
            snd (fst tbn) = cross normal (normalize (cross normal m)) /\
            0 < dot (cross normal m) (cross normal m)).
  { unfold tbn, create_tangent_space. cbn zeta.
    rewrite dot_Q in Hunit.
    destruct (ltb (fabs (vx normal)) M_1_SQRT3) eqn:Ex;
      [| destruct (ltb (fabs (vy normal)) M_1_SQRT3) eqn:Ey];
      (eexists; split; [reflexivity | split; [reflexivity |]]);
      rewrite dot_Q; cbn;
      change (inject_Z 0) with 0; change (inject_Z 1) with 1.
    - apply Qltb_lt in Ex. cbn in Ex.
      apply Qabs_Qlt_condition in Ex.
      assert (H1 : 0 < (1 - vx normal) * (1 + vx normal))
        by (apply Qmult_lt_0_compat; lra).
      lra.
    - apply Qltb_ge in Ex. cbn in Ex. apply square_pos in Ex.
      pose proof (Qsquare_nonneg (vz normal)). lra.
    - apply Qltb_ge in Ex. cbn in Ex. apply square_pos in Ex.
      pose proof (Qsquare_nonneg (vy normal)). lra. }
  destruct Hmajor as (m & Et & Eb & Hc).
  set (c := cross normal m) in *.
  exists c. split; [exact Et |]. split; [exact Hc |].
  intros Hs. rewrite Eb, Et.
  assert (Hs0 : ~ sqrt (dot c c) == 0).
  { intros H. rewrite H in Hs. lra. }
  assert (Ht : dot (normalize c) (normalize c) == 1).
  { unfold normalize, inversesqrt. rewrite dot_vmuls.
    change (@one Q scalar_Q) with 1.
    change (@div Q scalar_Q) with Qdiv.
    rewrite <- Hs at 1. field. exact Hs0. }
  split; [exact Ht |].
  rewrite lagrange, Hunit, Ht.
  assert (Ho : dot normal (normalize c) == 0).
  { rewrite dot_sym. apply normalize_cross_orthogonal. }
  rewrite Ho. ring.
Qed.
End Frame.

Lemma tangent_direction_nonzero_witness :
  let normal := mk_vec3 (3 # 5) (4 # 5) 0 in
  let tbn := create_tangent_space (LT := libm_Q) normal in
  exists c,
    fst (fst tbn) = normalize (LT := libm_Q) c /\
    0 < dot c c /\
    (sqrt (Libm := libm_Q) (dot c c)
     * sqrt (Libm := libm_Q) (dot c c) == dot c c ->
     dot (fst (fst tbn)) (fst (fst tbn)) == 1 /\
     dot (snd (fst tbn)) (snd (fst tbn)) == 1).
Proof.
  intros normal.
  apply (@tangent_direction_nonzero libm_Q normal).
  reflexivity.
Defined.
End ExactKernel.
(** ** The search loops *)

Section FoldListSet.
Variables A G : Type.
Variable step : list A * G -> nat -> list A * G.
Hypothesis step_sets :
  forall axes g i, exists v g', step (axes, g) i = (list_set axes i v, g').

(** A loop that assigns to [axes[i]] for the indices [i] of [l] keeps
    the length of [axes] and its entries at the other indices. *)
Lemma fold_list_set (l : list nat) :
  forall st,
    length (fst (fold_left step l st)) = length (fst st) /\
    forall j d, ~ In j l ->
      nth j (fst (fold_left step l st)) d = nth j (fst st) d.
Proof.
  induction l as [| i l IH]; intros [axes g]; cbn [fold_left];
    [split; reflexivity |].
  destruct (step_sets axes g i) as (v & g' & ->).
  destruct (IH (list_set axes i v, g')) as [Hlen Hnth]. cbn [fst] in *.
  split; [rewrite Hlen; apply list_set_length |].
  intros j d Hj. rewrite Hnth by (intros H; apply Hj; now right).
  apply nth_list_set_other. intros ->. apply Hj. now left.
Qed.
End FoldListSet.

(** *** Floats that are not negative, and their order *)

Module RankFacts.
Import IEEE Float FloatSpec FloatFacts Rank.

Lemma shr_fexp_exponent (prec emax m e : Z) (l : location) :
  (emin prec emax <= snd (shr_fexp prec emax m e l))%Z.
Proof.
  unfold shr_fexp, shr, fexp.
  destruct (Z.max (Zdigits2 m + e - prec) (emin prec emax) - e)%Z eqn:E;
    cbn [snd]; lia.
Qed.

Lemma binary_round_aux_exponent (prec emax : Z) (sx : bool) (mx ex : Z)
    (lx : location) :
  match binary_round_aux prec emax sx mx ex lx with
  | S754_finite _ _ e => (emin prec emax <= e)%Z
  | _ => True
  end.
Proof.
  unfold binary_round_aux.
  destruct (shr_fexp prec emax mx ex lx) as [mrs' e'].
  pose proof (shr_fexp_exponent prec emax
                (round_nearest_even (shr_m mrs') (loc_of_shr_record mrs'))
                e' loc_Exact) as H.
  destruct (shr_fexp prec emax _ e' loc_Exact) as [mrs'' e''].
  cbn [snd] in H.
  destruct (shr_m mrs''); try exact I.
  destruct (e'' <=? emax - prec)%Z; [exact H | exact I].
Qed.

Lemma binary_round_exponent (prec emax : Z) (sx : bool) (mx : positive)
    (ex : Z) :
  match binary_round prec emax sx mx ex with
  | S754_finite _ _ e => (emin prec emax <= e)%Z
  | _ => True
  end.
Proof.
  unfold binary_round. destruct (shl_align _ _ _) as [mz ez].
  apply binary_round_aux_exponent.
Qed.

Lemma binary_normalize_nonneg (m e : Z) :
  (0 <= m)%Z -> nonneg_float (binary_normalize prec32 emax32 m e false).
Proof.
  intros Hm. unfold binary_normalize.
  destruct m as [| p | p]; [split; [reflexivity | exact I] | | lia].
  pose proof (binary_round_sign prec32 emax32 false p e) as Hs.
  pose proof (binary_round_exponent prec32 emax32 false p e) as He.
  destruct (binary_round prec32 emax32 false p e); split; auto.
Qed.

(** Converting a value that is not negative to [float]. *)
Lemma to_single_nonneg (x : spec_float) :
  sign_clear x -> nonneg_float (to_single x).
Proof.
  destruct x as [s | s | | s m e]; cbn; intros H; subst;
    try (split; [reflexivity | exact I]); try (split; exact I).
  pose proof (binary_round_sign prec32 emax32 false m e) as Hs.
  pose proof (binary_round_exponent prec32 emax32 false m e) as He.
  destruct (binary_round prec32 emax32 false m e); split; auto.
Qed.

Lemma SFadd_nonneg (x y : spec_float) :
  nonneg_float x -> nonneg_float y ->
  nonneg_float (SFadd prec32 emax32 x y).
Proof.
  intros [Hx Hx'] [Hy Hy'].
  split; [now apply SFadd_sign_clear |].
  destruct x as [sx | sx | | sx mx ex], y as [sy | sy | | sy my ey];
    cbn in *; subst; try exact I; try assumption.
  match goal with
  | |- context [binary_normalize ?p ?q ?m ?e ?z] =>
      generalize m; intros mz
  end.
  unfold binary_normalize.
  destruct mz as [| p | p]; [exact I | |].
  - exact (binary_round_exponent prec32 emax32 false p _).
  - exact (binary_round_exponent prec32 emax32 true p _).
Qed.

Lemma SFdiv_nonneg (x y : spec_float) :
  sign_clear x -> sign_clear y -> nonneg_float (SFdiv prec32 emax32 x y).
Proof.
  intros Hx Hy.
  split; [now apply SFdiv_sign_clear |].
  destruct x as [sx | sx | | sx mx ex], y as [sy | sy | | sy my ey];
    cbn; try exact I.
  destruct (SFdiv_core_binary prec32 emax32 (Z.pos mx) ex (Z.pos my) ey)
    as [[mz ez] lz].
  exact (binary_round_aux_exponent prec32 emax32 _ mz ez lz).
Qed.

Lemma rank_lt_wf : well_founded rank_lt.
Proof.
  apply wf_slexprod; [apply lt_wf |].
  apply wf_slexprod; apply lt_wf.
Qed.

(** A smaller value has a smaller rank. *)
Lemma rank_decreases (x y : spec_float) :
  nonneg_float x -> nonneg_float y -> SFltb x y = true ->
  rank_lt (rank x) (rank y).
Proof.
  unfold nonneg_float, sign_clear, SFltb, SFcompare, rank_lt.
  destruct x as [sx | sx | | sx mx ex], y as [sy | sy | | sy my ey];
    cbn [rank]; intros [Hx Hx'] [Hy Hy']; subst; try discriminate.
  - intros _. apply left_slex. lia.
  - intros _. apply right_slex. apply left_slex. lia.
  - intros _. apply left_slex. lia.
  - destruct (Z.compare_spec ex ey) as [-> | Hlt | Hgt]; try discriminate.
    + change (Pos.compare_cont Eq mx my) with (Pos.compare mx my).
      destruct (Pos.compare_spec mx my) as [| Hlt |]; try discriminate.
      intros _. apply right_slex. apply right_slex.
      now apply Pos2Nat.inj_lt.
    + intros _. apply right_slex. apply left_slex. lia.
Qed.

(** The volume the sphere optimizer computes for a candidate is not
    negative. *)
Lemma calc_kdop_volume_f_nonneg (atan2 : double -> double -> double)
    (axis_count : nat) (axes : list (vec3 float))
    (ranges : list (vec2 float)) :
  nonneg_float (calc_kdop_volume_f atan2 axis_count axes ranges).
Proof.
  unfold calc_kdop_volume_f. apply to_single_nonneg.
  unfold calc_kdop_volume.
  apply VolumeProofs.sides_volume_sign_clear. reflexivity.
Qed.
End RankFacts.

Module DriverProofs.
Import IEEE Float FloatSpec StepSizes Rank RankFacts.

Local Notation "'vzero'" := (vec3_splat (zero : float)).

Lemma normalize_locked_length (k : nat) (l : list (vec3 float)) :
  length (normalize_locked k l) = length l.
Proof.
  unfold normalize_locked.
  induction k as [| k IH]; [reflexivity |].
  rewrite seq_S, fold_left_app. cbn [fold_left Nat.add].
  now rewrite list_set_length.
Qed.

(** Halving a step size gives the next one, and the guards of the loops
    hold up to the last step size only. *)
Lemma perturbation_halved (k : nat) :
  (k < 18)%nat ->
  SFmul prec32 emax32 (perturbation_at k) (float_lit 5 10)
  = perturbation_at (S k).
Proof.
  intros H.
  assert (E : forallb (fun k =>
                SF_eqb (SFmul prec32 emax32 (perturbation_at k)
                              (float_lit 5 10))
                       (perturbation_at (S k))) (seq 0 18) = true)
    by (vm_compute; reflexivity).
  rewrite forallb_forall in E.
  apply VolumeProofs.SF_eqb_eq. apply E. apply in_seq. lia.
Qed.

Lemma perturbation_guard (k : nat) :
  (k <= 18)%nat ->
  SFltb (double_lit 1 100000) (to_double (perturbation_at k))
  = (k <? 18)%nat.
Proof.
  intros H.
  assert (E : forallb (fun k =>
                Bool.eqb (SFltb (double_lit 1 100000)
                                (to_double (perturbation_at k)))
                         (k <? 18)%nat) (seq 0 19) = true)
    by (vm_compute; reflexivity).
  rewrite forallb_forall in E.
  apply eqb_prop. apply E. apply in_seq. lia.
Qed.

Lemma temperature_halved (k : nat) :
  (k < 126)%nat ->
  to_single (SFmul prec64 emax64 (to_double (temperature_at k))
                   (double_lit 5 10))
  = temperature_at (S k).
Proof.
  intros H.
  assert (E : forallb (fun k =>
                SF_eqb (to_single (SFmul prec64 emax64
                                     (to_double (temperature_at k))
                                     (double_lit 5 10)))
                       (temperature_at (S k))) (seq 0 126) = true)
    by (vm_compute; reflexivity).
  rewrite forallb_forall in E.
  apply VolumeProofs.SF_eqb_eq. apply E. apply in_seq. lia.
Qed.

Lemma temperature_guard (k : nat) :
  (k <= 126)%nat ->
  SFltb FLT_MIN_f (temperature_at k) = (k <? 126)%nat.
Proof.
  intros H.
  assert (E : forallb (fun k =>
                Bool.eqb (SFltb FLT_MIN_f (temperature_at k))
                         (k <? 126)%nat) (seq 0 127) = true)
    by (vm_compute; reflexivity).
  rewrite forallb_forall in E.
  apply eqb_prop. apply E. apply in_seq. lia.
Qed.

Section Sphere.
Variable R : Type.
Variable sphericalRand : float -> R -> vec3 float * R.
Variable atan2 : double -> double -> double.
Variable axis_count locked_axes : nat.

Let state := SphereOptimizer.state R.
Let iteration : state -> state :=
  SphereOptimizer.iteration sphericalRand atan2 axis_count locked_axes.
Let loop : nat -> state -> state :=
  SphereOptimizer.loop sphericalRand atan2 axis_count locked_axes.
Let init : list double -> R -> state :=
  SphereOptimizer.init axis_count locked_axes.

(** The invariant of the loop on the counter and the step size. *)
Let paced (s : state) : Prop :=
  (0 <= SphereOptimizer.no_improvement s <= 1000)%Z /\
  exists k, (k <= 18)%nat /\
    SphereOptimizer.perturbation s = perturbation_at k.

Lemma sphere_continues_at (s : state) (k : nat) :
  (k <= 18)%nat ->
  SphereOptimizer.perturbation s = perturbation_at k ->
  SphereOptimizer.continues s = (k <? 18)%nat.
Proof.
  intros Hk E. unfold SphereOptimizer.continues. rewrite E.
  now apply perturbation_guard.
Qed.

Lemma sphere_iteration_paced (s : state) :
  paced s -> SphereOptimizer.continues s = true -> paced (iteration s).
Proof.
  intros [Hn (k & Hk & E)] Hc.
  rewrite (sphere_continues_at s Hk E) in Hc. apply Nat.ltb_lt in Hc.
  unfold iteration, SphereOptimizer.iteration.
  destruct (SphereOptimizer.candidate _ _ _ _) as [axes g].
  destruct (ltb _ _).
  - split; cbn; [lia | now exists k].
  - destruct (_ >? _)%Z eqn:En.
    + split; cbn; [lia |]. exists (S k). split; [lia |].
      rewrite E. now apply perturbation_halved.
    + split; cbn; [lia | now exists k].
Qed.

Lemma sphere_loop_paced (fuel : nat) :
  forall s, paced s -> paced (loop fuel s).
Proof.
  induction fuel as [| fuel IH]; intros s Hs; [exact Hs |].
  unfold loop in *. cbn [SphereOptimizer.loop].
  destruct (SphereOptimizer.continues s) eqn:E; [| exact Hs].
  apply IH. now apply sphere_iteration_paced.
Qed.

(** X12.  Along every run of the sphere optimizer the counter
    [no_improvement] stays between 0 and 1000 and the perturbation is
    one of the 19 values [2 * 2^-k], [k <= 18]; the loop goes on exactly
    while [k < 18]: it stops after the 18th halving, at 2^-17. *)
Theorem sphere_step_sizes (forced : list double) (g : R) (fuel : nat) :
  let s := loop fuel (init forced g) in
  (0 <= SphereOptimizer.no_improvement s <= 1000)%Z /\
  exists k, (k <= 18)%nat /\
    SphereOptimizer.perturbation s = perturbation_at k /\
    SphereOptimizer.continues s = (k <? 18)%nat.
Proof.
  intros s.
  assert (H : paced s).
  { apply sphere_loop_paced. split; cbn; [lia |].
    exists 0%nat. split; [lia | reflexivity]. }
  destruct H as [Hn (k & Hk & E)].
  split; [exact Hn |]. exists k. split; [exact Hk |]. split; [exact E |].
  now apply sphere_continues_at.
Qed.

(** The perturbation loop assigns to the free axes. *)
Lemma sphere_perturb_shape (b : list (vec3 float)) (p : float) (g : R) :
  length (fst (SphereOptimizer.perturb sphericalRand axis_count locked_axes
                 b p g)) = length b.
Proof.
  unfold SphereOptimizer.perturb.
  match goal with
  | |- context [fold_left ?f ?l ?st] =>
      assert (Hs : forall axes g i, exists v g',
                 f (axes, g) i = (list_set axes i v, g'));
      [| destruct (@fold_list_set _ _ f Hs l st) as [H _]]
  end.
  - intros axes g0 i. cbn beta iota.
    destruct (sphericalRand p g0) as [r g']. eexists. eexists. reflexivity.
  - exact H.
Qed.

Lemma sphere_iteration_length (s : state) :
  length (SphereOptimizer.best_axes s) = axis_count ->
  length (SphereOptimizer.best_axes (iteration s)) = axis_count.
Proof.
  intros H. unfold iteration, SphereOptimizer.iteration.
  pose proof (sphere_perturb_shape (SphereOptimizer.best_axes s)
                (SphereOptimizer.perturbation s) (SphereOptimizer.rng s))
    as Hp.
  unfold SphereOptimizer.candidate.
  destruct (SphereOptimizer.perturb _ _ _ _ _ _) as [axes g].
  cbn [fst] in Hp.
  destruct (ltb _ _); [cbn; congruence |].
  destruct (_ >? _)%Z; exact H.
Qed.

Lemma sphere_loop_length (fuel : nat) :
  forall s,
    length (SphereOptimizer.best_axes s) = axis_count ->
    length (SphereOptimizer.best_axes (loop fuel s)) = axis_count.
Proof.
  induction fuel as [| fuel IH]; intros s Hs; [exact Hs |].
  unfold loop in *. cbn [SphereOptimizer.loop].
  destruct (SphereOptimizer.continues s); [| exact Hs].
  apply IH. now apply sphere_iteration_length.
Qed.

(** X13.  In the sphere optimizer [best_axes] and every candidate have
    exactly [axis_count] axes, as many as there are extents: the kernel
    is always called on arrays of the size it is told. *)
Theorem sphere_axes_count (forced : list double) (g : R) (fuel : nat) :
  let s := loop fuel (init forced g) in
  length (SphereOptimizer.best_axes s) = axis_count /\
  length (fst (SphereOptimizer.candidate sphericalRand axis_count
                 locked_axes s)) = axis_count /\
  length (SphereOptimizer.extents axis_count) = axis_count.
Proof.
  intros s.
  assert (H : length (SphereOptimizer.best_axes s) = axis_count).
  { apply sphere_loop_length. cbn.
    rewrite normalize_locked_length. apply PrintProofs.read_forced_length. }
  split; [exact H |]. split.
  - unfold SphereOptimizer.candidate. now rewrite sphere_perturb_shape.
  - apply repeat_length.
Qed.

(** *** Termination *)

Let measure (s : state) : nat * (nat * nat) * nat :=
  (rank (SphereOptimizer.best_volume s),
   (halvings_left (-40) (SphereOptimizer.perturbation s) * 1001
    + Z.to_nat (1000 - SphereOptimizer.no_improvement s))%nat).

Let measure_lt :
    nat * (nat * nat) * nat -> nat * (nat * nat) * nat -> Prop :=
  slexprod (nat * (nat * nat)) nat rank_lt lt.

Lemma sphere_iteration_measure (s : state) :
  paced s -> nonneg_float (SphereOptimizer.best_volume s) ->
  SphereOptimizer.continues s = true ->
  nonneg_float (SphereOptimizer.best_volume (iteration s)) /\
  measure_lt (measure (iteration s)) (measure s).
Proof.
  intros [Hn (k & Hk & E)] Hb Hc.
  rewrite (sphere_continues_at s Hk E) in Hc. apply Nat.ltb_lt in Hc.
  unfold measure, iteration, SphereOptimizer.iteration.
  destruct (SphereOptimizer.candidate _ _ _ _) as [axes g].
  pose proof (calc_kdop_volume_f_nonneg atan2 (length axes) axes
                (SphereOptimizer.extents axis_count)) as Hv.
  destruct (ltb _ _) eqn:Ev.
  - cbn [SphereOptimizer.best_volume SphereOptimizer.perturbation
         SphereOptimizer.no_improvement].
    split; [exact Hv |].
    apply left_slex. now apply rank_decreases.
  - destruct (_ >? _)%Z eqn:En;
      cbn [SphereOptimizer.best_volume SphereOptimizer.perturbation
           SphereOptimizer.no_improvement];
      (split; [exact Hb |]); apply right_slex; rewrite E.
    + cbn [mul scalar_float].
      rewrite perturbation_halved by exact Hc.
      unfold perturbation_at, halvings_left. lia.
    + lia.
Qed.

Lemma sphere_terminates_from (s : state) :
  paced s -> nonneg_float (SphereOptimizer.best_volume s) ->
  exists fuel, SphereOptimizer.continues (loop fuel s) = false.
Proof.
  remember (measure s) as mu eqn:Emu. revert s Emu.
  induction mu as [mu IH]
    using (well_founded_induction
             (wf_slexprod _ _ _ _ rank_lt_wf lt_wf)).
  intros s -> Hp Hb.
  destruct (SphereOptimizer.continues s) eqn:Ec.
  - destruct (sphere_iteration_measure Hp Hb Ec) as [Hb' Hlt].
    destruct (IH _ Hlt (iteration s) eq_refl
                 (sphere_iteration_paced Hp Ec) Hb') as [fuel Hfuel].
    exists (S fuel). unfold loop in *. cbn [SphereOptimizer.loop].
    now rewrite Ec.
  - exists 0%nat. exact Ec.
Qed.

Lemma sphere_loop_stopped (fuel : nat) (s : state) :
  SphereOptimizer.continues s = false -> loop fuel s = s.
Proof.
  intros H. destruct fuel; unfold loop; cbn [SphereOptimizer.loop];
    [reflexivity | now rewrite H].
Qed.

(** X14.  The sphere optimizer terminates, whatever the random source
    and [atan2] are: some number of iterations leads to a state where
    the loop stops, with the perturbation at 2^-17; running longer
    changes nothing. *)
Theorem sphere_optimizer_terminates (forced : list double) (g : R) :
  exists fuel,
    let s := loop fuel (init forced g) in
    SphereOptimizer.continues s = false /\
    SphereOptimizer.perturbation s = perturbation_at 18 /\
    forall more, loop (fuel + more) (init forced g) = s.
Proof.
  assert (Hp : paced (init forced g)).
  { split; cbn; [lia |]. exists 0%nat. split; [lia | reflexivity]. }
  destruct (@sphere_terminates_from (init forced g) Hp) as [fuel Hfuel].
  { unfold init, SphereOptimizer.init.
    cbn [SphereOptimizer.best_volume].
    apply to_single_nonneg. vm_compute. reflexivity. }
  exists fuel. cbn zeta. split; [exact Hfuel |]. split.
  - destruct (sphere_loop_paced fuel Hp) as [_ (k & Hk & E)].
    rewrite (sphere_continues_at _ Hk E) in Hfuel.
    apply Nat.ltb_ge in Hfuel. rewrite E. f_equal. lia.
  - intros more. unfold loop.
    rewrite SearchProofs.sphere_loop_add.
    now apply sphere_loop_stopped.
Qed.
End Sphere.

Section Image.
Variable sample_sphere : Z -> vec3 float * Z.
Variable evaluate_axes_cost : list (vec3 float) -> float.
Variable axis_count locked_axes : nat.

Let iteration : ImageOptimizer.state -> ImageOptimizer.state :=
  ImageOptimizer.iteration sample_sphere evaluate_axes_cost axis_count
                           locked_axes.
Let loop : nat -> ImageOptimizer.state -> ImageOptimizer.state :=
  ImageOptimizer.loop sample_sphere evaluate_axes_cost axis_count
                      locked_axes.
Let init : list double -> ImageOptimizer.state :=
  ImageOptimizer.init sample_sphere axis_count locked_axes.

Let paced (s : ImageOptimizer.state) : Prop :=
  (0 <= ImageOptimizer.fail_count s <= 100)%Z /\
  exists k, (k <= 126)%nat /\
    ImageOptimizer.temperature s = temperature_at k.

Lemma image_continues_at (s : ImageOptimizer.state) (k : nat) :
  (k <= 126)%nat ->
  ImageOptimizer.temperature s = temperature_at k ->
  ImageOptimizer.continues s = (k <? 126)%nat.
Proof.
  intros Hk E. unfold ImageOptimizer.continues. rewrite E.
  now apply temperature_guard.
Qed.

Lemma image_iteration_paced (s : ImageOptimizer.state) :
  paced s -> ImageOptimizer.continues s = true -> paced (iteration s).
Proof.
  intros [Hn (k & Hk & E)] Hc.
  rewrite (image_continues_at s Hk E) in Hc. apply Nat.ltb_lt in Hc.
  unfold iteration, ImageOptimizer.iteration.
  destruct (ImageOptimizer.candidate _ _ _ _) as [axes g].
  destruct (ltb _ _).
  - split; cbn; [lia | now exists k].
  - destruct (_ >? _)%Z eqn:En.
    + split; cbn; [lia |]. exists (S k). split; [lia |].
      rewrite E. now apply temperature_halved.
    + split; cbn; [lia | now exists k].
Qed.

Lemma image_loop_paced (fuel : nat) :
  forall s, paced s -> paced (loop fuel s).
Proof.
  induction fuel as [| fuel IH]; intros s Hs; [exact Hs |].
  unfold loop in *. cbn [ImageOptimizer.loop].
  destruct (ImageOptimizer.continues s) eqn:E; [| exact Hs].
  apply IH. now apply image_iteration_paced.
Qed.

Lemma image_init_paced (forced : list double) : paced (init forced).
Proof.
  unfold init, ImageOptimizer.init.
  destruct (fold_left _ _ _) as [axes g].
  split; cbn; [lia |]. exists 0%nat. split; [lia | reflexivity].
Qed.

(** X15.  Along every run of the image optimizer [fail_count] stays
    between 0 and 100 and the temperature is one of the values [2^-k],
    [k <= 126]; the loop goes on exactly while [k < 126]: it stops when
    the temperature reaches [FLT_MIN] = 2^-126. *)
Theorem image_step_sizes (forced : list double) (fuel : nat) :
  let s := loop fuel (init forced) in
  (0 <= ImageOptimizer.fail_count s <= 100)%Z /\
  exists k, (k <= 126)%nat /\
    ImageOptimizer.temperature s = temperature_at k /\
    ImageOptimizer.continues s = (k <? 126)%nat.
Proof.
  intros s.
  assert (H : paced s)
    by (apply image_loop_paced, image_init_paced).
  destruct H as [Hn (k & Hk & E)].
  split; [exact Hn |]. exists k. split; [exact Hk |]. split; [exact E |].
  now apply image_continues_at.
Qed.

(** The two loops that assign axes: the draw of the free axes before
    the loop and the perturbation. *)
Lemma image_perturb_shape (b : list (vec3 float)) (t : float) (g : Z) :
  let axes := fst (ImageOptimizer.perturb sample_sphere axis_count
                     locked_axes b t g) in
  length axes = length b /\
  forall j, (j < locked_axes)%nat -> nth j axes vzero = nth j b vzero.
Proof.
  unfold ImageOptimizer.perturb.
  match goal with
  | |- context [fold_left ?f ?l ?st] =>
      assert (Hs : forall axes g i, exists v g',
                 f (axes, g) i = (list_set axes i v, g'));
      [| destruct (@fold_list_set _ _ f Hs l st) as [Hlen Hnth]]
  end.
  - intros axes g0 i. cbn beta iota.
    destruct (sample_sphere g0) as [r g']. eexists. eexists. reflexivity.
  - cbn zeta. split; [exact Hlen |].
    intros j Hj. apply Hnth. intros H. apply in_seq in H. lia.
Qed.

Lemma image_init_shape (forced : list double) :
  let start := normalize_locked locked_axes
                 (fst (read_forced axis_count forced)) in
  length (ImageOptimizer.best_axes (init forced)) = length start /\
  forall j, (j < locked_axes)%nat ->
    nth j (ImageOptimizer.best_axes (init forced)) vzero
    = nth j start vzero.
Proof.
  unfold init, ImageOptimizer.init.
  match goal with
  | |- context [fold_left ?f ?l ?st] =>
      assert (Hs : forall axes g i, exists v g',
                 f (axes, g) i = (list_set axes i v, g'));
      [| destruct (@fold_list_set _ _ f Hs l st) as [Hlen Hnth]]
  end.
  - intros axes g0 i. cbn beta iota.
    destruct (sample_sphere g0) as [r g']. eexists. eexists. reflexivity.
  - cbn zeta. destruct (fold_left _ _ _) as [axes g]. cbn [fst] in *.
    cbn [ImageOptimizer.best_axes].
    split; [exact Hlen |].
    intros j Hj. apply Hnth. intros H. apply in_seq in H. lia.
Qed.

Lemma image_iteration_shape (s : ImageOptimizer.state) :
  length (ImageOptimizer.best_axes (iteration s))
  = length (ImageOptimizer.best_axes s) /\
  forall j, (j < locked_axes)%nat ->
    nth j (ImageOptimizer.best_axes (iteration s)) vzero
    = nth j (ImageOptimizer.best_axes s) vzero.
Proof.
  unfold iteration, ImageOptimizer.iteration.
  pose proof (image_perturb_shape (ImageOptimizer.best_axes s)
                (ImageOptimizer.temperature s) (ImageOptimizer.seed s))
    as Hp.
  unfold ImageOptimizer.candidate.
  destruct (ImageOptimizer.perturb _ _ _ _ _ _) as [axes g].
  cbn [fst] in Hp. cbn zeta in Hp.
  destruct (ltb _ _); [exact Hp |].
  destruct (_ >? _)%Z; split; reflexivity.
Qed.

Lemma image_loop_shape (fuel : nat) :
  forall s,
    length (ImageOptimizer.best_axes (loop fuel s))
    = length (ImageOptimizer.best_axes s) /\
    forall j, (j < locked_axes)%nat ->
      nth j (ImageOptimizer.best_axes (loop fuel s)) vzero
      = nth j (ImageOptimizer.best_axes s) vzero.
Proof.
  induction fuel as [| fuel IH]; intros s; [split; reflexivity |].
  unfold loop in *. cbn [ImageOptimizer.loop].
  destruct (ImageOptimizer.continues s); [| split; reflexivity].
  destruct (IH (iteration s)) as [Hlen Hnth].
  destruct (image_iteration_shape s) as [Hlen' Hnth'].
  split; [etransitivity; [exact Hlen | exact Hlen'] |].
  intros j Hj.
  etransitivity; [exact (Hnth j Hj) | exact (Hnth' j Hj)].
Qed.

(** X16.  The image optimizer never changes a locked axis: after any
    number of iterations the axes below [locked_axes] are the
    normalized axes of the command line, and [best_axes] and every
    candidate have [axis_count] axes. *)
Theorem image_locked_axes_fixed (forced : list double) (fuel : nat)
    (j : nat) :
  let s := loop fuel (init forced) in
  (j < locked_axes)%nat -> (j < axis_count)%nat ->
  nth j (ImageOptimizer.best_axes s) vzero
  = normalize_f (nth j (fst (read_forced axis_count forced)) vzero) /\
  nth j (fst (ImageOptimizer.candidate sample_sphere axis_count
                locked_axes s)) vzero
  = normalize_f (nth j (fst (read_forced axis_count forced)) vzero) /\
  length (ImageOptimizer.best_axes s) = axis_count /\
  length (fst (ImageOptimizer.candidate sample_sphere axis_count
                 locked_axes s)) = axis_count.
Proof.
  intros s Hj Hn.
  destruct (image_loop_shape fuel (init forced)) as [Hlen Hnth].
  destruct (image_init_shape forced) as [Hlen0 Hnth0]. cbn zeta in *.
  fold s in Hlen, Hnth.
  assert (Hread : length (fst (read_forced axis_count forced)) = axis_count)
    by apply PrintProofs.read_forced_length.
  destruct (@PrintProofs.normalize_locked_nth locked_axes
              (fst (read_forced axis_count forced)) j)
    as [Hlenn Hnthn]; [lia |].
  assert (Hbest : nth j (ImageOptimizer.best_axes s) vzero
                  = normalize_f
                      (nth j (fst (read_forced axis_count forced)) vzero)).
  { rewrite Hnth, Hnth0, Hnthn by exact Hj.
    replace (j <? locked_axes)%nat with true
      by (symmetry; apply Nat.ltb_lt; exact Hj).
    reflexivity. }
  assert (Hbl : length (ImageOptimizer.best_axes s) = axis_count)
    by congruence.
  destruct (image_perturb_shape (ImageOptimizer.best_axes s)
              (ImageOptimizer.temperature s) (ImageOptimizer.seed s))
    as [Hpl Hpn]. cbn zeta in *.
  unfold ImageOptimizer.candidate.
  repeat split.
  - exact Hbest.
  - rewrite Hpn by exact Hj. exact Hbest.
  - exact Hbl.
  - congruence.
Qed.

(** *** Termination *)

Section Termination.
Hypothesis cost_nonneg :
  forall axes, nonneg_float (evaluate_axes_cost axes).

Let measure (s : ImageOptimizer.state) : nat * (nat * nat) * nat :=
  (rank (ImageOptimizer.best_score s),
   (halvings_left (-149) (ImageOptimizer.temperature s) * 101
    + Z.to_nat (100 - ImageOptimizer.fail_count s))%nat).

Lemma image_iteration_measure (s : ImageOptimizer.state) :
  paced s -> nonneg_float (ImageOptimizer.best_score s) ->
  ImageOptimizer.continues s = true ->
  nonneg_float (ImageOptimizer.best_score (iteration s)) /\
  slexprod (nat * (nat * nat)) nat rank_lt lt
           (measure (iteration s)) (measure s).
Proof.
  intros [Hn (k & Hk & E)] Hb Hc.
  rewrite (image_continues_at s Hk E) in Hc. apply Nat.ltb_lt in Hc.
  unfold measure, iteration, ImageOptimizer.iteration.
  destruct (ImageOptimizer.candidate _ _ _ _) as [axes g].
  pose proof (cost_nonneg axes) as Hv.
  destruct (ltb _ _) eqn:Ev.
  - cbn [ImageOptimizer.best_score ImageOptimizer.temperature
         ImageOptimizer.fail_count].
    split; [exact Hv |].
    apply left_slex. now apply rank_decreases.
  - destruct (_ >? _)%Z eqn:En;
      cbn [ImageOptimizer.best_score ImageOptimizer.temperature
           ImageOptimizer.fail_count];
      (split; [exact Hb |]); apply right_slex; rewrite E.
    + cbn [mul scalar_double].
      rewrite temperature_halved by exact Hc.
      unfold temperature_at, halvings_left. lia.
    + lia.
Qed.

Lemma image_terminates_from (s : ImageOptimizer.state) :
  paced s -> nonneg_float (ImageOptimizer.best_score s) ->
  exists fuel, ImageOptimizer.continues (loop fuel s) = false.
Proof.
  remember (measure s) as mu eqn:Emu. revert s Emu.
  induction mu as [mu IH]
    using (well_founded_induction
             (wf_slexprod _ _ _ _ rank_lt_wf lt_wf)).
  intros s -> Hp Hb.
  destruct (ImageOptimizer.continues s) eqn:Ec.
  - destruct (image_iteration_measure Hp Hb Ec) as [Hb' Hlt].
    destruct (IH _ Hlt (iteration s) eq_refl
                 (image_iteration_paced Hp Ec) Hb') as [fuel Hfuel].
    exists (S fuel). unfold loop in *. cbn [ImageOptimizer.loop].
    now rewrite Ec.
  - exists 0%nat. exact Ec.
Qed.

Lemma image_loop_stopped (fuel : nat) (s : ImageOptimizer.state) :
  ImageOptimizer.continues s = false -> loop fuel s = s.
Proof.
  intros H. destruct fuel; unfold loop; cbn [ImageOptimizer.loop];
    [reflexivity | now rewrite H].
Qed.

(** X17.  The image optimizer terminates when the cost function never
    returns a negative value: some number of iterations leads to a
    state where the loop stops, with the temperature at [FLT_MIN];
    running longer changes nothing. *)
Theorem image_optimizer_terminates (forced : list double) :
  exists fuel,
    let s := loop fuel (init forced) in
    ImageOptimizer.continues s = false /\
    ImageOptimizer.temperature s = temperature_at 126 /\
    forall more, loop (fuel + more) (init forced) = s.
Proof.
  pose proof (image_init_paced forced) as Hp.
  destruct (@image_terminates_from (init forced) Hp) as [fuel Hfuel].
  { unfold init, ImageOptimizer.init.
    destruct (fold_left _ _ _) as [axes g].
    cbn [ImageOptimizer.best_score].
    apply binary_normalize_nonneg. lia. }
  exists fuel. cbn zeta. split; [exact Hfuel |]. split.
  - destruct (image_loop_paced fuel Hp) as [_ (k & Hk & E)].
    rewrite (image_continues_at _ Hk E) in Hfuel.
    apply Nat.ltb_ge in Hfuel. rewrite E. f_equal. lia.
  - intros more. unfold loop.
    rewrite SearchProofs.image_loop_add.
    now apply image_loop_stopped.
Qed.
End Termination.
End Image.

Lemma image_optimizer_terminates_witness :
  let sample := Image.sample_sphere (fun x => x) (fun x => x) in
  let cost := fun axes : list (vec3 float) =>
    calc_kdop_volume_f FloatSpec.atan2_quadrant (length axes) axes
      (SphereOptimizer.extents (length axes)) in
  let forced := [Z2double 3; Z2double 0; Z2double 4] in
  exists fuel,
    let s := ImageOptimizer.loop sample cost 3 1 fuel
               (ImageOptimizer.init sample 3 1 forced) in
    ImageOptimizer.continues s = false /\
    ImageOptimizer.temperature s = temperature_at 126 /\
    forall more,
      ImageOptimizer.loop sample cost 3 1 (fuel + more)
        (ImageOptimizer.init sample 3 1 forced) = s.
Proof.
  intros sample cost forced.
  apply (@image_optimizer_terminates sample cost 3 1).
  intros axes. apply calc_kdop_volume_f_nonneg.
Defined.

Lemma image_locked_axes_fixed_witness :
  let sample := Image.sample_sphere (fun x => x) (fun x => x) in
  let cost := fun _ : list (vec3 float) => Z2float 1 in
  let forced := [Z2double 3; Z2double 0; Z2double 4] in
  let s := ImageOptimizer.loop sample cost 2 1 5
             (ImageOptimizer.init sample 2 1 forced) in
  nth 0 (ImageOptimizer.best_axes s) vzero
  = normalize_f (nth 0 (fst (read_forced 2 forced)) vzero) /\
  nth 0 (fst (ImageOptimizer.candidate sample 2 1 s)) vzero
  = normalize_f (nth 0 (fst (read_forced 2 forced)) vzero) /\
  length (ImageOptimizer.best_axes s) = 2%nat /\
  length (fst (ImageOptimizer.candidate sample 2 1 s)) = 2%nat.
Proof.
  intros sample cost forced.
  apply (@image_locked_axes_fixed sample cost 2 1 forced 5 0); lia.
Defined.
End DriverProofs.
(** ** The forced axes of the command line *)

Module ArgsProofs.
Import IEEE Float.

Local Notation "'vzero'" := (vec3_splat (zero : float)).

(** The body of the loop over the arguments. *)
Local Notation "'forced_step'" :=
  (fun '(best_axes, locked_axes, i) (arg : double) =>
     let component_index := (i mod 3)%nat in
     let locked_axes :=
       if (component_index =? 0)%nat then S locked_axes
       else locked_axes in
     let k := (locked_axes - 1)%nat in
     (list_set best_axes k
        (vec3_set (nth k best_axes (vec3_splat zero)) component_index
                  (to_single arg)),
      locked_axes, S i)).

Lemma third (i : nat) :
  ((i mod 3 =? 0) = true -> (S i + 2) / 3 = S ((i + 2) / 3))%nat /\
  ((i mod 3 =? 0) = false -> (S i + 2) / 3 = (i + 2) / 3)%nat.
Proof.
  pose proof (Nat.div_mod_eq i 3).
  pose proof (Nat.div_mod_eq (i + 2) 3).
  pose proof (Nat.div_mod_eq (S i + 2) 3).
  pose proof (Nat.mod_upper_bound i 3).
  pose proof (Nat.mod_upper_bound (i + 2) 3).
  pose proof (Nat.mod_upper_bound (S i + 2) 3).
  split; intros E; [apply Nat.eqb_eq in E | apply Nat.eqb_neq in E]; lia.
Qed.

Lemma forced_fold_count (forced : list double) :
  forall (b : list (vec3 float)) (k i : nat),
    k = ((i + 2) / 3)%nat ->
    snd (fst (fold_left forced_step forced (b, k, i)))
    = ((i + length forced + 2) / 3)%nat.
Proof.
  induction forced as [| arg forced IH]; intros b k i Hk;
    cbn [fold_left length].
  - rewrite Nat.add_0_r. now subst.
  - rewrite IH.
    + f_equal. lia.
    + destruct (third i) as [H0 H1].
      destruct (i mod 3 =? 0)%nat; subst k.
      * symmetry. now apply H0.
      * symmetry. now apply H1.
Qed.

(** X18.  The number of locked axes is the number of arguments divided
    by three, rounded up: an axis of which only one or two components
    are given is locked as well. *)
Theorem read_forced_locked_count (axis_count : nat) (forced : list double) :
  snd (read_forced axis_count forced) = ((length forced + 2) / 3)%nat.
Proof.
  unfold read_forced.
  exact (@forced_fold_count forced
           (repeat (vec3_splat (zero : float)) axis_count) 0%nat 0%nat
           eq_refl).
Qed.

Section ListSetMiddle.
Variable A : Type.

Lemma list_set_middle (pre post : list A) (x v : A) :
  list_set (pre ++ x :: post) (length pre) v = pre ++ v :: post.
Proof.
  induction pre as [| y pre IH]; cbn; [reflexivity |]. now rewrite IH.
Qed.
End ListSetMiddle.

Lemma mod3 (p : nat) :
  ((3 * p) mod 3 = 0 /\ (S (3 * p)) mod 3 = 1 /\ (S (S (3 * p))) mod 3 = 2)%nat.
Proof.
  pose proof (Nat.div_mod_eq (3 * p) 3).
  pose proof (Nat.div_mod_eq (S (3 * p)) 3).
  pose proof (Nat.div_mod_eq (S (S (3 * p))) 3).
  pose proof (Nat.mod_upper_bound (3 * p) 3).
  pose proof (Nat.mod_upper_bound (S (3 * p)) 3).
  pose proof (Nat.mod_upper_bound (S (S (3 * p))) 3).
  lia.
Qed.

(** The axis read from three arguments. *)
Local Notation "'read_axis'" :=
  (fun v : vec3 double =>
     mk_vec3 (to_single (vx v)) (to_single (vy v)) (to_single (vz v))).

Lemma forced_fold_triples (forced_axes : list (vec3 double)) :
  forall (pre : list (vec3 float)) (m : nat),
    (length forced_axes <= m)%nat ->
    fold_left forced_step (forced_values forced_axes)
      (pre ++ repeat vzero m, length pre, (3 * length pre)%nat)
    = (pre ++ map read_axis forced_axes
           ++ repeat vzero (m - length forced_axes),
       (length pre + length forced_axes)%nat,
       (3 * (length pre + length forced_axes))%nat).
Proof.
  induction forced_axes as [| v rest IH]; intros pre m Hm.
  - cbn. now rewrite !Nat.add_0_r, Nat.sub_0_r.
  - destruct m as [| m]; [cbn in Hm; lia |].
    cbn [forced_values flat_map app fold_left].
    fold (forced_values rest).
    destruct (mod3 (length pre)) as (E0 & E1 & E2).
    cbn [repeat].
    rewrite E0. cbn [Nat.eqb].
    replace (S (length pre) - 1)%nat with (length pre) by lia.
    rewrite nth_middle, list_set_middle.
    rewrite E1. cbn [Nat.eqb].
    replace (S (length pre) - 1)%nat with (length pre) by lia.
    rewrite nth_middle, list_set_middle.
    rewrite E2. cbn [Nat.eqb].
    replace (S (length pre) - 1)%nat with (length pre) by lia.
    rewrite nth_middle, list_set_middle.
    cbn [vec3_set vec3_splat vx vy vz].
    specialize (IH (pre ++ [read_axis v]) m).
    rewrite length_app in IH. cbn [length] in IH.
    replace (length pre + 1)%nat with (S (length pre)) in IH by lia.
    replace (3 * S (length pre))%nat with (S (S (S (3 * length pre))))
      in IH by lia.
    rewrite <- app_assoc in IH. cbn [app] in IH.
    rewrite IH by (cbn in Hm; lia).
    rewrite <- app_assoc. cbn [app map length].
    cbn [Nat.sub].
    replace (length pre + S (length rest))%nat
      with (S (length pre) + length rest)%nat by lia.
    reflexivity.
Qed.

(** X19.  Complete forced axes are read as consecutive triples: with
    the components of [k <= axis_count] axes on the command line, the
    first [k] axes are these axes converted to [float], the other axes
    are zero, and [k] axes are locked. *)
Theorem read_forced_triples (axis_count : nat)
    (forced_axes : list (vec3 double)) :
  (length forced_axes <= axis_count)%nat ->
  read_forced axis_count (forced_values forced_axes)
  = (map read_axis forced_axes
       ++ repeat vzero (axis_count - length forced_axes),
     length forced_axes).
Proof.
  intros H. unfold read_forced.
  pose proof (forced_fold_triples forced_axes [] H) as E.
  cbn [app length Nat.mul Nat.add] in E. rewrite E. reflexivity.
Qed.

Lemma read_forced_triples_witness :
  let a := mk_vec3 (Z2double 1) (Z2double 2) (Z2double 3) in
  read_forced 2 (forced_values [a])
  = (map read_axis [a] ++ repeat vzero (2 - length [a]), length [a]).
Proof.
  intros a. apply (@read_forced_triples 2 [a]). cbn. lia.
Defined.
End ArgsProofs.
(** ** The random generator *)

Module PcgProofs.
Import Image.
Local Open Scope Z_scope.

Lemma wrap_range (z : Z) : 0 <= wrap z < 2 ^ 32.
Proof. unfold wrap. apply Z.mod_pos_bound. reflexivity. Qed.

(** Multiplying by an odd constant and adding a constant is one-to-one
    modulo 2^32. *)
Lemma affine_injective (A Ainv K C x y : Z) :
  A * Ainv = 1 + 2 ^ 32 * K ->
  0 <= x < 2 ^ 32 -> 0 <= y < 2 ^ 32 ->
  wrap (x * A + C) = wrap (y * A + C) -> x = y.
Proof.
  intros HA Hx Hy E. unfold wrap in E.
  pose proof (Z.div_mod (x * A + C) (2 ^ 32)) as Dx.
  pose proof (Z.div_mod (y * A + C) (2 ^ 32)) as Dy.
  rewrite <- E in Dy.
  specialize (Dx ltac:(discriminate)). specialize (Dy ltac:(discriminate)).
  set (q1 := (x * A + C) / 2 ^ 32) in *.
  set (q2 := (y * A + C) / 2 ^ 32) in *.
  assert (Hd : (x - y) * A = 2 ^ 32 * (q1 - q2)) by lia.
  assert (Hm : x - y = 2 ^ 32 * ((q1 - q2) * Ainv - K * (x - y))).
  { transitivity ((x - y) * (A * Ainv) - 2 ^ 32 * K * (x - y)).
    - rewrite HA. ring.
    - rewrite Z.mul_assoc, Hd. ring. }
  change (2 ^ 32) with 4294967296 in *. lia.
Qed.

Lemma lxor_range (a b : Z) :
  0 <= a < 2 ^ 32 -> 0 <= b < 2 ^ 32 -> 0 <= Z.lxor a b < 2 ^ 32.
Proof.
  intros Ha Hb.
  assert (H0 : 0 <= Z.lxor a b) by (apply Z.lxor_nonneg; lia).
  split; [exact H0 |].
  destruct (Z.eq_dec (Z.lxor a b) 0) as [-> | Hne]; [reflexivity |].
  apply Z.log2_lt_pow2; [lia |].
  eapply Z.le_lt_trans; [apply Z.log2_lxor; lia |].
  apply Z.max_lub_lt.
  - destruct (Z.eq_dec a 0) as [-> | Ha0]; [reflexivity |].
    apply Z.log2_lt_pow2; lia.
  - destruct (Z.eq_dec b 0) as [-> | Hb0]; [reflexivity |].
    apply Z.log2_lt_pow2; lia.
Qed.

Lemma shiftr_range (a k : Z) :
  0 <= a < 2 ^ 32 -> 0 <= k -> 0 <= Z.shiftr a k < 2 ^ 32.
Proof.
  intros Ha Hk. rewrite Z.shiftr_div_pow2 by exact Hk.
  assert (Hp : 0 < 2 ^ k) by (apply Z.pow_pos_nonneg; lia).
  split; [apply Z.div_pos; lia |].
  apply Z.le_lt_trans with a; [| lia].
  apply Z.div_le_upper_bound; [exact Hp |]. nia.
Qed.

(** [a ^ (a >> k)] with [k > 0] determines [a]. *)
Lemma xorshift_injective (a b k : Z) :
  0 <= a -> 0 <= b -> 0 < k ->
  Z.lxor (Z.shiftr a k) a = Z.lxor (Z.shiftr b k) b -> a = b.
Proof.
  intros Ha Hb Hk E.
  set (d := Z.lxor a b).
  assert (Hd : Z.shiftr d k = d).
  { unfold d. rewrite Z.shiftr_lxor.
    assert (E' : Z.lxor (Z.lxor (Z.shiftr a k) a) (Z.lxor (Z.shiftr b k) b)
                 = 0) by (rewrite E; apply Z.lxor_nilpotent).
    rewrite Z.lxor_assoc in E'.
    rewrite (Z.lxor_comm a) in E'. rewrite Z.lxor_assoc in E'.
    rewrite <- Z.lxor_assoc in E'. apply Z.lxor_eq in E'.
    rewrite E'. apply Z.lxor_comm. }
  assert (Hd0 : 0 <= d) by (apply Z.lxor_nonneg; lia).
  rewrite Z.shiftr_div_pow2 in Hd by lia.
  assert (Hp : 2 <= 2 ^ k).
  { change 2 with (2 ^ 1) at 1. apply Z.pow_le_mono_r; lia. }
  assert (Hz : d = 0).
  { destruct (Z.eq_dec d 0) as [| Hne]; [assumption |].
    assert (Hlt : d / 2 ^ k < d) by (apply Z.div_lt; lia). lia. }
  apply Z.lxor_eq. exact Hz.
Qed.

(** The shift amount of the second step can be read off its result. *)
Lemma top_bits (a : Z) :
  0 <= a < 2 ^ 32 ->
  Z.shiftr (Z.lxor (Z.shiftr a (Z.shiftr a 28 + 4)) a) 28 = Z.shiftr a 28.
Proof.
  intros Ha.
  assert (Hs : 0 <= Z.shiftr a 28) by (apply Z.shiftr_nonneg; lia).
  rewrite Z.shiftr_lxor, Z.shiftr_shiftr by lia.
  replace (Z.shiftr a (Z.shiftr a 28 + 4 + 28)) with 0;
    [apply Z.lxor_0_l |].
  symmetry. rewrite Z.shiftr_div_pow2 by lia.
  apply Z.div_small. split; [lia |].
  apply Z.lt_le_trans with (2 ^ 32); [lia |].
  apply Z.pow_le_mono_r; lia.
Qed.

Lemma pcg_one_to_one (s1 s2 : Z) :
  0 <= s1 < 2 ^ 32 -> 0 <= s2 < 2 ^ 32 ->
  fst (pcg s1) = fst (pcg s2) -> s1 = s2.
Proof.
  intros H1 H2. unfold pcg. cbn [fst].
  set (a1 := wrap (s1 * 747796405 + 2891336453)).
  set (a2 := wrap (s2 * 747796405 + 2891336453)).
  assert (Ha1 : 0 <= a1 < 2 ^ 32) by apply wrap_range.
  assert (Ha2 : 0 <= a2 < 2 ^ 32) by apply wrap_range.
  set (x1 := Z.lxor (Z.shiftr a1 (Z.shiftr a1 28 + 4)) a1).
  set (x2 := Z.lxor (Z.shiftr a2 (Z.shiftr a2 28 + 4)) a2).
  intros E.
  rewrite (Z.lxor_comm (wrap (x1 * _))), (Z.lxor_comm (wrap (x2 * _))) in E.
  apply xorshift_injective in E;
    [| apply wrap_range | apply wrap_range | lia].
  assert (Hk1 : 0 <= Z.shiftr a1 28) by (apply Z.shiftr_nonneg; lia).
  assert (Hk2 : 0 <= Z.shiftr a2 28) by (apply Z.shiftr_nonneg; lia).
  assert (Hx1 : 0 <= x1 < 2 ^ 32)
    by (apply lxor_range; [apply shiftr_range; lia | exact Ha1]).
  assert (Hx2 : 0 <= x2 < 2 ^ 32)
    by (apply lxor_range; [apply shiftr_range; lia | exact Ha2]).
  replace (x1 * 277803737) with (x1 * 277803737 + 0) in E by ring.
  replace (x2 * 277803737) with (x2 * 277803737 + 0) in E by ring.
  apply (@affine_injective 277803737 2897767785 187431164) in E;
    [| reflexivity | exact Hx1 | exact Hx2].
  assert (Ek : Z.shiftr a1 28 = Z.shiftr a2 28).
  { rewrite <- (top_bits Ha1), <- (top_bits Ha2).
    fold x1 x2. now rewrite E. }
  unfold x1, x2 in E. rewrite Ek in E.
  apply xorshift_injective in E; [| lia | lia | lia].
  unfold a1, a2 in E.
  apply (@affine_injective 747796405 3425435293 596402259) in E;
    [exact E | reflexivity | exact H1 | exact H2].
Qed.

(** X20.  [pcg] is a one-to-one function of the seed: two different
    32-bit seeds never lead to the same state, so never to the same
    random number stream. *)
Theorem pcg_injective (s1 s2 : Z) :
  0 <= s1 < 2 ^ 32 -> 0 <= s2 < 2 ^ 32 -> s1 <> s2 ->
  fst (pcg s1) <> fst (pcg s2) /\ snd (pcg s1) <> snd (pcg s2).
Proof.
  intros H1 H2 Hne.
  split; intros E; apply Hne; now apply pcg_one_to_one.
Qed.

Lemma pcg_injective_witness :
  fst (pcg 1) <> fst (pcg 2) /\ snd (pcg 1) <> snd (pcg 2).
Proof.
  apply (@pcg_injective 1 2); lia.
Defined.
End PcgProofs.
(** ** [evaluate_axes_cost] *)

Module CostProofs.
Import IEEE Float Image.
Local Open Scope Z_scope.

Local Notation "'vzero'" := (vec3_splat (zero : float)).

Lemma clamp_range (x lo hi : Z) : lo <= hi -> lo <= clamp x lo hi <= hi.
Proof. unfold clamp. lia. Qed.

Lemma int_in_range (z : Z) : INT_MIN <= z <= INT_MAX -> int z = Some z.
Proof.
  intros H. unfold int.
  replace (INT_MIN <=? z) with true by (symmetry; apply Z.leb_le; lia).
  replace (z <=? INT_MAX) with true by (symmetry; apply Z.leb_le; lia).
  reflexivity.
Qed.

(** The index of a channel of a pixel of the image is computed without
    overflow and lies inside the image. *)
Lemma pixel_index_in_image (w h xi yi c : Z) :
  3 * w * h <= INT_MAX ->
  0 <= xi < w -> 0 <= yi < h -> 0 <= c < 3 ->
  pixel_index w xi yi c = Some (xi * 3 + c + yi * w * 3) /\
  0 <= xi * 3 + c + yi * w * 3 < 3 * w * h.
Proof.
  intros Hmax Hx Hy Hc.
  assert (Hyw : 0 <= yi * w <= (h - 1) * w) by nia.
  assert (Hwh : (h - 1) * w = w * h - w) by ring.
  unfold pixel_index, int_mul, int_add.
  unfold INT_MAX in Hmax.
  rewrite (@int_in_range (xi * 3)) by (unfold INT_MIN, INT_MAX; lia).
  rewrite (@int_in_range (xi * 3 + c)) by (unfold INT_MIN, INT_MAX; lia).
  rewrite (@int_in_range (yi * w)) by (unfold INT_MIN, INT_MAX; lia).
  rewrite (@int_in_range (yi * w * 3)) by (unfold INT_MIN, INT_MAX; lia).
  rewrite (@int_in_range (xi * 3 + c + yi * w * 3))
    by (unfold INT_MIN, INT_MAX; lia).
  split; [reflexivity | lia].
Qed.

Lemma image_read_in_image (image_data : list Z) (i : Z) :
  0 <= i < Z.of_nat (length image_data) ->
  exists v, image_read image_data (Some i) = Some v.
Proof.
  intros H. unfold image_read.
  replace (i <? 0) with false by (symmetry; apply Z.ltb_ge; lia).
  destruct (nth_error image_data (Z.to_nat i)) as [v |] eqn:E;
    [now exists v |].
  apply nth_error_None in E. lia.
Qed.

(** *** The arrays on the stack *)

Ltac list9 l H :=
  do 9 (destruct l as [| ? l]; [discriminate H |]);
  destruct l; [| discriminate H].

(** The nine writes to [neighborhood] go to its nine entries: what the
    array held before does not matter. *)
Lemma read_neighborhood_overwrites (powf : float -> float -> float)
    (w : Z) (image_data : list Z) (x y : Z)
    (nb nb' : list (vec3 float)) :
  length nb = 9%nat -> length nb' = 9%nat ->
  read_neighborhood powf w image_data x y nb
  = read_neighborhood powf w image_data x y nb'.
Proof.
  intros H H'. list9 nb H. list9 nb' H'.
  unfold read_neighborhood. cbn [fold_left].
  unfold pixel_step.
  repeat match goal with
  | |- context [image_read image_data ?i] =>
      destruct (image_read image_data i); [| reflexivity]
  end.
  reflexivity.
Qed.

Lemma nth_map_error (A B : Type) (f : A -> B) (l : list A) (a : nat)
    (x : A) (d : B) :
  nth_error l a = Some x -> nth a (map f l) d = f x.
Proof.
  intros H. apply nth_error_nth. now apply map_nth_error.
Qed.

Lemma nth_map_seq (A B : Type) (E : nat -> A) (f : A -> B) (n a : nat)
    (d : B) :
  (a < n)%nat -> nth a (map f (map E (seq 0 n))) d = f (E a).
Proof.
  intros Ha. apply nth_map_error. 
  rewrite (nth_error_nth' _ (E 0%nat)) by (now rewrite length_map, length_seq).
  f_equal. rewrite (map_nth E (seq 0 n) 0%nat a).
  now rewrite seq_nth.
Qed.

(** Within the buffer [find_kdop_volume] is the volume for the extents
    of the nine points, computed from the start value (1e9, -1e9). *)
Lemma find_kdop_volume_in_bounds (atan2 : double -> double -> double)
    (points axes : list (vec3 float)) (axis_count : nat)
    (buf : list (vec2 float)) :
  (axis_count <= length buf)%nat ->
  find_kdop_volume atan2 points axes axis_count buf
  = Some (calc_kdop_volume_f atan2 axis_count axes
            (map (fun j => fold_left (widen (ST := scalar_float)
                                        points axes j)
                                     (seq 0 9) start_extent)
                 (seq 0 axis_count))).
Proof.
  intros Hn. unfold find_kdop_volume.
  destruct (@find_kdop_extents_in_bounds float scalar_float points axes
              axis_count buf Hn) as (out & -> & _ & Hout).
  set (E := fun j => fold_left (widen (ST := scalar_float) points axes j)
                               (seq 0 9) start_extent) in *.
  apply (f_equal Some). unfold calc_kdop_volume_f. apply (f_equal to_single).
  apply KernelProofs.calc_kdop_volume_reads; [reflexivity |].
  intros a Ha. unfold range_at.
  rewrite (@nth_map_error _ _ vec2_to_double out a (E a) _ (Hout a Ha)).
  symmetry. exact (@nth_map_seq _ _ E vec2_to_double axis_count a _ Ha).
Qed.

Lemma find_kdop_volume_buffer (atan2 : double -> double -> double)
    (points axes : list (vec3 float)) (axis_count : nat)
    (buf buf' : list (vec2 float)) :
  length buf = length buf' ->
  find_kdop_volume atan2 points axes axis_count buf
  = find_kdop_volume atan2 points axes axis_count buf'.
Proof.
  intros Hlen.
  destruct (Nat.le_gt_cases axis_count (length buf)) as [Hn | Hn].
  - rewrite !find_kdop_volume_in_bounds by lia. reflexivity.
  - unfold find_kdop_volume.
    rewrite !find_kdop_extents_overflow by lia. reflexivity.
Qed.

(** X21.  The result of [find_kdop_volume] does not depend on what the
    array [axis_extents] holds when the function is entered: every
    entry that is read was written before. *)
Theorem find_kdop_volume_ignores_buffer
    (atan2 : double -> double -> double)
    (points axes : list (vec3 float)) (axis_count : nat)
    (buf buf' : list (vec2 float)) :
  length buf = EXTENT_BUFFER_SIZE -> length buf' = EXTENT_BUFFER_SIZE ->
  find_kdop_volume atan2 points axes axis_count buf
  = find_kdop_volume atan2 points axes axis_count buf'.
Proof.
  intros H H'. apply find_kdop_volume_buffer. congruence.
Qed.

Section Cost.
Variable atan2 : double -> double -> double.
Variable powf : float -> float -> float.
Variable float_to_int : float -> Z.

(** X22.  The result of [evaluate_axes_cost] does not depend on the
    indeterminate initial content of the arrays [neighborhood] and
    [axis_extents] of its samples. *)
Theorem evaluate_axes_cost_ignores_garbage
    (neighborhood0 neighborhood0' : nat -> list (vec3 float))
    (axis_extents0 axis_extents0' : nat -> list (vec2 float))
    (w h : Z) (image_data : list Z) (axes : list (vec3 float))
    (axis_count : nat) (seed : Z) (attempt_count : nat) :
  (forall a, length (neighborhood0 a) = 9%nat) ->
  (forall a, length (neighborhood0' a) = 9%nat) ->
  (forall a, length (axis_extents0 a) = EXTENT_BUFFER_SIZE) ->
  (forall a, length (axis_extents0' a) = EXTENT_BUFFER_SIZE) ->
  evaluate_axes_cost atan2 powf float_to_int neighborhood0 axis_extents0
                     w h image_data axes axis_count seed attempt_count
  = evaluate_axes_cost atan2 powf float_to_int neighborhood0' axis_extents0'
                       w h image_data axes axis_count seed attempt_count.
Proof.
  intros Hn Hn' He He'. unfold evaluate_axes_cost.
  rewrite (@fold_left_ext_in _ _
             (sum_step atan2 powf float_to_int neighborhood0 axis_extents0
                       w h image_data axes axis_count seed)
             (sum_step atan2 powf float_to_int neighborhood0' axis_extents0'
                       w h image_data axes axis_count seed));
    [reflexivity |].
  intros osum a _. unfold sum_step, sample_volume.
  destruct (sample_position _ _ _ _ _) as [x y].
  rewrite (@read_neighborhood_overwrites powf w image_data x y
             (neighborhood0 a) (neighborhood0' a) (Hn a) (Hn' a)).
  destruct (read_neighborhood _ _ _ _ _ _) as [nb |]; [| reflexivity].
  rewrite (@find_kdop_volume_buffer atan2 nb axes axis_count
             (axis_extents0 a) (axis_extents0' a)) by congruence.
  reflexivity.
Qed.

(** X23.  The cost [evaluate_axes_cost] returns is never negative: it
    is a NaN or at least 0, with a clear sign bit. *)
Theorem evaluate_axes_cost_nonneg
    (neighborhood0 : nat -> list (vec3 float))
    (axis_extents0 : nat -> list (vec2 float))
    (w h : Z) (image_data : list Z) (axes : list (vec3 float))
    (axis_count : nat) (seed : Z) (attempt_count : nat) (cost : float) :
  evaluate_axes_cost atan2 powf float_to_int neighborhood0 axis_extents0
                     w h image_data axes axis_count seed attempt_count
  = Some cost ->
  Rank.nonneg_float cost /\
  (cost = S754_nan \/ SFleb (Z2float 0) cost = true) /\
  SFltb cost (Z2float 0) = false.
Proof.
  unfold evaluate_axes_cost.
  assert (H : forall osum,
            (forall sum, osum = Some sum -> Rank.nonneg_float sum) ->
            forall l sum,
              fold_left
                (sum_step atan2 powf float_to_int neighborhood0
                          axis_extents0 w h image_data axes axis_count seed)
                l osum = Some sum ->
              Rank.nonneg_float sum).
  { intros osum Hosum l. revert osum Hosum.
    induction l as [| a l IH]; intros osum Hosum sum; cbn [fold_left];
      [apply Hosum |].
    apply IH. intros sum'. unfold sum_step.
    destruct osum as [s |]; [| discriminate].
    unfold sample_volume.
    destruct (sample_position _ _ _ _ _) as [x y].
    destruct (read_neighborhood _ _ _ _ _ _) as [nb |]; [| discriminate].
    unfold find_kdop_volume.
    destruct (find_kdop_extents _ _ _ _) as [out |]; [| discriminate].
    intros E. injection E as <-.
    apply RankFacts.SFadd_nonneg; [now apply Hosum |].
    apply RankFacts.calc_kdop_volume_f_nonneg. }
  destruct (fold_left _ _ _) as [sum |] eqn:E; [| discriminate].
  intros Hc. injection Hc as Hc.
  assert (Hsum : Rank.nonneg_float sum).
  { apply (H (Some (Z2float 0))) with (l := seq 0 attempt_count);
      [| exact E].
    intros s Hs. injection Hs as <-. split; [reflexivity | exact I]. }
  assert (Hn : Rank.nonneg_float cost).
  { rewrite <- Hc.
    apply RankFacts.SFdiv_nonneg; [apply Hsum |].
    apply (@RankFacts.binary_normalize_nonneg (Z.of_nat attempt_count) 0).
    lia. }
  clear Hc. split; [exact Hn |].
  destruct Hn as [Hs _].
  split; [exact (FloatFacts.sign_clear_nonneg _ Hs) |].
  destruct cost as [s | s | | s m e]; cbn in Hs; subst; reflexivity.
Qed.

Variables w h : Z.
Variable image_data : list Z.
Hypothesis width : 3 <= w.
Hypothesis height : 3 <= h.
Hypothesis no_overflow : 3 * w * h <= INT_MAX.
Hypothesis image_size : 3 * w * h <= Z.of_nat (length image_data).

Lemma pixel_step_in_bounds (x y i j : Z) (nb : list (vec3 float)) :
  1 <= x <= w - 2 -> 1 <= y <= h - 2 ->
  In i [-1; 0; 1] -> In j [-1; 0; 1] ->
  length nb = 9%nat ->
  exists nb',
    pixel_step powf w image_data x y i (Some nb) j = Some nb' /\
    length nb' = 9%nat.
Proof.
  intros Hx Hy Hi Hj Hnb. unfold pixel_step.
  assert (Hxi : 0 <= x + i < w) by (cbn in Hi; lia).
  assert (Hyj : 0 <= y + j < h) by (cbn in Hj; lia).
  destruct (@pixel_index_in_image w h (x + i) (y + j) 0)
    as [-> R0]; [lia .. |].
  destruct (@pixel_index_in_image w h (x + i) (y + j) 1)
    as [-> R1]; [lia .. |].
  destruct (@pixel_index_in_image w h (x + i) (y + j) 2)
    as [-> R2]; [lia .. |].
  destruct (@image_read_in_image image_data _
              (conj (proj1 R0) (Z.lt_le_trans _ _ _ (proj2 R0) image_size)))
    as [ri ->].
  destruct (@image_read_in_image image_data _
              (conj (proj1 R1) (Z.lt_le_trans _ _ _ (proj2 R1) image_size)))
    as [gi ->].
  destruct (@image_read_in_image image_data _
              (conj (proj1 R2) (Z.lt_le_trans _ _ _ (proj2 R2) image_size)))
    as [bi ->].
  unfold nb_write. rewrite Hnb.
  replace ((0 <=? i + 1 + 3 * (j + 1))
           && (i + 1 + 3 * (j + 1) <? Z.of_nat 9)) with true.
  - eexists. split; [reflexivity |]. now rewrite list_set_length.
  - symmetry. apply andb_true_iff. split.
    + apply Z.leb_le. cbn in Hi, Hj. lia.
    + apply Z.ltb_lt. cbn in Hi, Hj. lia.
Qed.

Lemma read_neighborhood_in_bounds (x y : Z) (nb : list (vec3 float)) :
  1 <= x <= w - 2 -> 1 <= y <= h - 2 ->
  length nb = 9%nat ->
  exists nb',
    read_neighborhood powf w image_data x y nb = Some nb' /\
    length nb' = 9%nat.
Proof.
  intros Hx Hy Hnb. unfold read_neighborhood.
  apply (fold_left_invariant
           (fun onb => exists nb', onb = Some nb' /\ length nb' = 9%nat)).
  - now exists nb.
  - intros onb i Honb Hi.
    apply (fold_left_invariant
             (fun onb => exists nb', onb = Some nb' /\ length nb' = 9%nat));
      [exact Honb |].
    intros onb' j (nb' & -> & Hlen) Hj.
    now apply pixel_step_in_bounds.
Qed.

Lemma sample_position_in_image (seed : Z) (a : nat) :
  1 <= fst (sample_position float_to_int w h seed a) <= w - 2 /\
  1 <= snd (sample_position float_to_int w h seed a) <= h - 2.
Proof.
  unfold sample_position.
  destruct (generate_uniform_random _) as [u s1].
  destruct (generate_uniform_random _) as [v s2].
  cbn [fst snd]. unfold sample_coord.
  split; apply clamp_range; lia.
Qed.

Section Arrays.
Variable neighborhood0 : nat -> list (vec3 float).
Variable axis_extents0 : nat -> list (vec2 float).
Hypothesis neighborhood_size : forall a, length (neighborhood0 a) = 9%nat.
Hypothesis extents_size :
  forall a, length (axis_extents0 a) = EXTENT_BUFFER_SIZE.

Lemma sample_volume_in_bounds (axes : list (vec3 float))
    (axis_count : nat) (seed : Z) (a : nat) :
  (axis_count <= EXTENT_BUFFER_SIZE)%nat ->
  exists volume,
    sample_volume atan2 powf float_to_int neighborhood0 axis_extents0
                  w h image_data axes axis_count seed a = Some volume.
Proof.
  intros Hn. unfold sample_volume.
  pose proof (sample_position_in_image seed a) as [Hx Hy].
  destruct (sample_position _ _ _ _ _) as [x y]. cbn [fst snd] in *.
  destruct (@read_neighborhood_in_bounds x y (neighborhood0 a) Hx Hy
              (neighborhood_size a)) as (nb & -> & Hnb).
  unfold find_kdop_volume.
  destruct (@find_kdop_extents_in_bounds float scalar_float nb axes
              axis_count (axis_extents0 a)) as (out & -> & _).
  - rewrite extents_size. exact Hn.
  - eexists. reflexivity.
Qed.

(** X24.  For an image of at least 3 x 3 pixels with its [3 * w * h]
    bytes, few enough for [int] indices, and at most 32 axes,
    [evaluate_axes_cost] reads no byte outside of the image and no entry
    outside of its arrays, whatever the random numbers and the
    conversion to [int] yield: it runs through and returns a value. *)
Theorem evaluate_axes_cost_in_bounds (axes : list (vec3 float))
    (axis_count : nat) (seed : Z) (attempt_count : nat) :
  (axis_count <= EXTENT_BUFFER_SIZE)%nat ->
  exists cost,
    evaluate_axes_cost atan2 powf float_to_int neighborhood0 axis_extents0
                       w h image_data axes axis_count seed attempt_count
    = Some cost.
Proof.
  intros Hn. unfold evaluate_axes_cost.
  assert (H : exists sum,
            fold_left
              (sum_step atan2 powf float_to_int neighborhood0 axis_extents0
                        w h image_data axes axis_count seed)
              (seq 0 attempt_count) (Some (Z2float 0)) = Some sum).
  { apply (fold_left_invariant (fun osum => exists sum, osum = Some sum)).
    - eexists. reflexivity.
    - intros osum a (sum & ->) _. unfold sum_step.
      destruct (@sample_volume_in_bounds axes axis_count seed a Hn)
        as (volume & ->).
      eexists. reflexivity. }
  destruct H as (sum & ->). eexists. reflexivity.
Qed.
End Arrays.
End Cost.

Lemma find_kdop_volume_ignores_buffer_witness :
  let p := mk_vec3 (Z2float 1) (Z2float 2) (Z2float 3) in
  let axes := [mk_vec3 (Z2float 1) (Z2float 0) (Z2float 0)] in
  find_kdop_volume FloatSpec.atan2_quadrant (repeat p 9) axes 1
                   (repeat (mk_vec2 (Z2float 0) (Z2float 0)) 32)
  = find_kdop_volume FloatSpec.atan2_quadrant (repeat p 9) axes 1
                     (repeat (mk_vec2 (Z2float 7) (Z2float (-7))) 32).
Proof.
  intros p axes.
  apply (@find_kdop_volume_ignores_buffer FloatSpec.atan2_quadrant
           (repeat p 9) axes 1); reflexivity.
Defined.

Lemma evaluate_axes_cost_ignores_garbage_witness :
  let axes := [mk_vec3 (Z2float 1) (Z2float 0) (Z2float 0)] in
  let nb0 := fun _ : nat => repeat vzero 9 in
  let nb0' := fun a : nat =>
    repeat (mk_vec3 (Z2float (Z.of_nat a)) (Z2float 1) (Z2float 2)) 9 in
  let ae0 := fun _ : nat => repeat (mk_vec2 (Z2float 0) (Z2float 0)) 32 in
  let ae0' := fun _ : nat => repeat (mk_vec2 (Z2float 5) (Z2float 6)) 32 in
  evaluate_axes_cost FloatSpec.atan2_quadrant (fun x _ => x) (fun _ => 1)
                     nb0 ae0 3 3 (repeat 0 27) axes 1 0 2
  = evaluate_axes_cost FloatSpec.atan2_quadrant (fun x _ => x) (fun _ => 1)
                       nb0' ae0' 3 3 (repeat 0 27) axes 1 0 2.
Proof.
  intros axes nb0 nb0' ae0 ae0'.
  apply (@evaluate_axes_cost_ignores_garbage FloatSpec.atan2_quadrant
           (fun x _ => x) (fun _ => 1) nb0 nb0' ae0 ae0');
    intros a; apply repeat_length.
Defined.

Lemma evaluate_axes_cost_nonneg_witness :
  let axes := [mk_vec3 (Z2float 1) (Z2float 0) (Z2float 0)] in
  let cost := Z2float 0 in
  Rank.nonneg_float cost /\
  (cost = S754_nan \/ SFleb (Z2float 0) cost = true) /\
  SFltb cost (Z2float 0) = false.
Proof.
  intros axes cost.
  apply (@evaluate_axes_cost_nonneg FloatSpec.atan2_quadrant
           (fun x _ => x) (fun _ => 1)
           (fun _ => repeat vzero 9)
           (fun _ => repeat (mk_vec2 (Z2float 0) (Z2float 0)) 32)
           3 3 (repeat 0 27) axes 1 0 2 cost).
  vm_compute. reflexivity.
Defined.

Lemma evaluate_axes_cost_in_bounds_witness :
  let axes := [mk_vec3 (Z2float 1) (Z2float 0) (Z2float 0)] in
  exists cost,
    evaluate_axes_cost FloatSpec.atan2_quadrant (fun x _ => x)
                       (fun _ => 100)
                       (fun _ => repeat vzero 9)
                       (fun _ => repeat (mk_vec2 (Z2float 0) (Z2float 0)) 32)
                       4 3 (repeat 255 36) axes 1 0 2
    = Some cost.
Proof.
  intros axes.
  apply (@evaluate_axes_cost_in_bounds FloatSpec.atan2_quadrant
           (fun x _ => x) (fun _ => 100) 4 3 (repeat 255 36)).
  - lia.
  - lia.
  - vm_compute. discriminate.
  - vm_compute. discriminate.
  - intros a. apply repeat_length.
  - intros a. apply repeat_length.
  - unfold EXTENT_BUFFER_SIZE. lia.
Defined.
End CostProofs.
(** ** [sample_sphere] in exact arithmetic *)

Module SampleProofs.
Import Exact ExactProofs.
Local Open Scope Q_scope.

(** X25.  [sample_sphere] returns a unit vector whose third component
    is [2 * u.x - 1], provided [sqrt] is exact at [1 - cos_theta^2] and
    the values of [cos] and [sin] at [phi] lie on the unit circle. *)
Theorem sample_sphere_unit {LT : Libm Q} (cos sin times_two_pi : Q -> Q)
    (u : vec2 Q) :
  let cos_theta := 2 * x2 u - 1 in
  let phi := times_two_pi (y2 u) in
  let v := sample_sphere_vec2 cos sin times_two_pi u in
  sqrt (1 - cos_theta * cos_theta) * sqrt (1 - cos_theta * cos_theta)
  == 1 - cos_theta * cos_theta ->
  cos phi * cos phi + sin phi * sin phi == 1 ->
  vz v == cos_theta /\ dot v v == 1.
Proof.
  intros cos_theta phi v Hsqrt Htrig.
  split; [reflexivity |].
  unfold v, sample_sphere_vec2. rewrite dot_Q. cbn [vx vy vz].
  change (@one Q scalar_Q) with 1.
  change (@of_Z Q scalar_Q 2) with 2.
  change (@sub Q scalar_Q) with Qminus.
  change (@mul Q scalar_Q) with Qmult.
  fold cos_theta. fold phi.
  set (s := sqrt (1 - cos_theta * cos_theta)) in *.
  setoid_replace (cos phi * s * (cos phi * s) + sin phi * s * (sin phi * s)
                  + cos_theta * cos_theta)
    with ((cos phi * cos phi + sin phi * sin phi) * (s * s)
          + cos_theta * cos_theta) by ring.
  rewrite Htrig, Hsqrt. ring.
Qed.

Lemma sample_sphere_unit_witness :
  let cos := fun _ : Q => 3 # 5 in
  let sin := fun _ : Q => 4 # 5 in
  let u := mk_vec2 (1 # 2) (1 # 3) in
  let v := sample_sphere_vec2 (LT := libm_Q) cos sin (fun y => y) u in
  vz v == 2 * x2 u - 1 /\ dot v v == 1.
Proof.
  intros cos sin u.
  apply (@sample_sphere_unit libm_Q cos sin (fun y => y) u); reflexivity.
Defined.
End SampleProofs.
(** ** The clipping functions of the shader, in exact arithmetic *)

Module ClippingProofs.
Import Exact Spec ExactProofs TraceProofs.
Local Open Scope Q_scope.

Lemma clamp_unit (x : Q) :
  0 <= clamp_glsl x zero one <= 1 /\
  (1 <= x -> clamp_glsl x zero one == 1) /\
  (0 <= x -> clamp_glsl x zero one <= x).
Proof.
  unfold clamp_glsl. rewrite min_Qmin, max_Qmax.
  change (@zero Q scalar_Q) with 0. change (@one Q scalar_Q) with 1.
  destruct (Q.max_spec x 0) as [[H1 ->] | [H1 ->]];
    destruct (Q.min_spec x 1) as [[H2 H3] | [H2 H3]];
    destruct (Q.min_spec 0 1) as [[H4 H5] | [H4 H5]];
    try rewrite H3; try rewrite H5; repeat split; intros; lra.
Qed.

Lemma veq_refl (u : vec3 Q) : veq u u.
Proof. repeat split; reflexivity. Qed.

Lemma dot_veq (u v axis : vec3 Q) : veq u v -> dot u axis == dot v axis.
Proof. intros (Hx & Hy & Hz). rewrite !dot_Q, Hx, Hy, Hz. reflexivity. Qed.

Section Ray.
Variables cur_color prev_color : vec3 Q.

Let dir : vec3 Q := vsub prev_color cur_color.

Lemma ray_start : veq cur_color (ray_point cur_color dir 0).
Proof. unfold veq, ray_point. cbn. repeat split; ring. Qed.

Lemma ray_end (t : Q) : t == 1 -> veq (ray_point cur_color dir t) prev_color.
Proof.
  intros Ht. unfold veq, ray_point, dir. cbn. rewrite Ht.
  repeat split; ring.
Qed.

(** The two outcomes of the hit test. *)
Lemma rectify_cases (near far : Q) :
  (rectify Qle_bool cur_color dir (near, far) = cur_color /\
   ~ (near <= far /\ (0 < near \/ 0 < far)))
  \/
  (near <= far /\ (0 < near \/ 0 < far) /\
   rectify Qle_bool cur_color dir (near, far)
   = ray_point cur_color dir
       (clamp_glsl (if Qltb 0 near then near else far) zero one)).
Proof.
  unfold rectify.
  destruct (Qle_bool near far) eqn:E1; cbn [andb].
  - apply Qle_bool_iff in E1. cbn [ltb scalar_Q].
    change (@zero Q scalar_Q) with 0.
    destruct (Qltb 0 near) eqn:E2; cbn [orb].
    + apply Qltb_lt in E2. right. repeat split; auto.
    + apply Qltb_ge in E2.
      destruct (Qltb 0 far) eqn:E3.
      * apply Qltb_lt in E3. right. repeat split; auto.
      * apply Qltb_ge in E3. left. split; [reflexivity |].
        intros [_ [H | H]]; lra.
  - left. split; [reflexivity |]. intros [H _].
    apply Qle_bool_iff in H. congruence.
Qed.

(** The rectified colour is a point of the segment from the current to
    the history colour. *)
Lemma rectify_on_segment (nf : Q * Q) :
  exists t, 0 <= t <= 1 /\
    veq (rectify Qle_bool cur_color dir nf) (ray_point cur_color dir t).
Proof.
  destruct nf as [near far].
  destruct (rectify_cases near far) as [[-> _] | (_ & _ & ->)].
  - exists 0. split; [lra | apply ray_start].
  - eexists. split; [apply clamp_unit | apply veq_refl].
Qed.

Section Slabs.
Variable axes : list (vec3 Q).
(** The extent used for axis [a]. *)
Variable extent : nat -> vec2 Q.

Let step (nf : Q * Q) (a : nat) : Q * Q :=
  slab_step cur_color dir (axis_at axes a) (extent a) nf.

Let holds (t : Q) (a : nat) : Prop :=
  in_slab (ray_point cur_color dir t) (axis_at axes a) (extent a).

Lemma slab_step_interval (near far : Q) (a : nat) (t : Q) :
  ~ dot dir (axis_at axes a) == 0 ->
  (fst (step (near, far) a) <= t /\ t <= snd (step (near, far) a))
  <->
  (near <= t <= far) /\ holds t a.
Proof.
  intros Hd. unfold step, slab_step, holds. cbn [fst snd].
  change (@one Q scalar_Q) with 1.
  change (@sub Q scalar_Q) with Qminus.
  change (@mul Q scalar_Q) with Qmult.
  change (@div Q scalar_Q) with Qdiv.
  pose proof (slab_interval (x2 (extent a)) (y2 (extent a))
                (dot cur_color (axis_at axes a)) t Hd) as Hslab.
  unfold in_slab. rewrite proj_ray.
  rewrite (max_Qmax near), (min_Qmin far).
  rewrite Q.max_lub_iff, Q.min_glb_iff.
  tauto.
Qed.

Lemma slab_fold_interval (l : list nat) :
  (forall a, In a l -> ~ dot dir (axis_at axes a) == 0) ->
  forall near far t,
    (fst (fold_left step l (near, far)) <= t /\
     t <= snd (fold_left step l (near, far)))
    <->
    (near <= t <= far) /\ (forall a, In a l -> holds t a).
Proof.
  induction l as [| a l IH]; intros Hd near far t; cbn [fold_left].
  - cbn [fst snd]. split; [intros H; split; [exact H | intros a []] | tauto].
  - destruct (step (near, far) a) as [near' far'] eqn:E.
    rewrite IH by (intros b Hb; apply Hd; now right).
    pose proof (@slab_step_interval near far a t (Hd a (or_introl eq_refl)))
      as Hs.
    rewrite E in Hs. cbn [fst snd] in Hs.
    split.
    + intros [Hnf Hl]. apply Hs in Hnf. destruct Hnf as [Hnf Ha].
      split; [exact Hnf |]. intros b [<- | Hb]; [exact Ha | now apply Hl].
    + intros [Hnf Hl]. split.
      * apply Hs. split; [exact Hnf | apply Hl; now left].
      * intros b Hb. apply Hl. now right.
Qed.

Variable axis_count : nat.
Hypothesis crossing :
  forall a, (a < axis_count)%nat -> ~ dot dir (axis_at axes a) == 0.
Hypothesis cur_inside :
  forall a, (a < axis_count)%nat ->
    inside_range cur_color (axis_at axes a) (extent a).

Let result : vec3 Q :=
  rectify Qle_bool cur_color dir
    (fold_left step (seq 0 axis_count) (opp lit_1e9f, lit_1e9f)).

Lemma extent_ordered (a : nat) :
  (a < axis_count)%nat -> x2 (extent a) <= y2 (extent a).
Proof.
  intros Ha. destruct (cur_inside Ha) as [H1 H2].
  eapply Qle_trans; [exact H1 | exact H2].
Qed.

Lemma fold_interval (t : Q) :
  (fst (fold_left step (seq 0 axis_count) (opp lit_1e9f, lit_1e9f)) <= t /\
   t <= snd (fold_left step (seq 0 axis_count) (opp lit_1e9f, lit_1e9f)))
  <->
  (- (1000000000) <= t <= 1000000000) /\
  (forall a, (a < axis_count)%nat ->
     inside_range (ray_point cur_color dir t) (axis_at axes a) (extent a)).
Proof.
  rewrite slab_fold_interval
    by (intros a Ha; apply in_seq in Ha; apply crossing; lia).
  change (@opp Q scalar_Q (@lit_1e9f Q scalar_Q)) with (- (1000000000)).
  change (@lit_1e9f Q scalar_Q) with 1000000000.
  split; intros [Hb Hall]; (split; [exact Hb |]); intros a Ha.
  - apply in_slab_inside_range; [now apply extent_ordered |].
    apply Hall. apply in_seq. lia.
  - apply in_seq in Ha. unfold holds.
    apply in_slab_inside_range; [apply extent_ordered; lia |].
    apply Hall. lia.
Qed.

Lemma start_in_interval :
  fst (fold_left step (seq 0 axis_count) (opp lit_1e9f, lit_1e9f)) <= 0 /\
  0 <= snd (fold_left step (seq 0 axis_count) (opp lit_1e9f, lit_1e9f)).
Proof.
  apply fold_interval. split; [lra |].
  intros a Ha. unfold inside_range.
  rewrite <- (dot_veq (axis_at axes a) ray_start). now apply cur_inside.
Qed.

(** With the current colour inside all slabs, the rectified colour is
    inside all slabs. *)
Lemma result_inside (a : nat) :
  (a < axis_count)%nat ->
  inside_range result (axis_at axes a) (extent a).
Proof.
  intros Ha. unfold result.
  destruct (fold_left step (seq 0 axis_count) (opp lit_1e9f, lit_1e9f))
    as [near far] eqn:E.
  pose proof start_in_interval as [Hn Hf]. rewrite E in Hn, Hf.
  cbn [fst snd] in Hn, Hf.
  destruct (rectify_cases near far) as [[-> _] | (Hnf & Hpos & ->)].
  - now apply cur_inside.
  - assert (Hfar : 0 < far) by (destruct Hpos; lra).
    replace (Qltb 0 near) with false
      by (symmetry; apply Qltb_ge; exact Hn).
    destruct (clamp_unit far) as ([Hc0 Hc1] & _ & Hle).
    specialize (Hle (Qlt_le_weak _ _ Hfar)).
    pose proof (fold_interval (clamp_glsl far zero one)) as Hint.
    rewrite E in Hint. cbn [fst snd] in Hint.
    apply Hint; [| exact Ha]. split; lra.
Qed.

(** If the history colour is inside all slabs as well, it is returned
    as it is. *)
Lemma result_unchanged :
  (forall a, (a < axis_count)%nat ->
     inside_range prev_color (axis_at axes a) (extent a)) ->
  veq result prev_color.
Proof.
  intros Hprev. unfold result.
  destruct (fold_left step (seq 0 axis_count) (opp lit_1e9f, lit_1e9f))
    as [near far] eqn:E.
  pose proof start_in_interval as [Hn Hf]. rewrite E in Hn, Hf.
  cbn [fst snd] in Hn, Hf.
  assert (H1 : near <= 1 /\ 1 <= far).
  { pose proof (fold_interval 1) as Hint.
    rewrite E in Hint. cbn [fst snd] in Hint.
    apply Hint. split; [lra |].
    intros a Ha. unfold inside_range.
    rewrite (dot_veq (axis_at axes a) (@ray_end 1 (Qeq_refl 1))).
    now apply Hprev. }
  destruct (rectify_cases near far) as [[_ Hmiss] | (_ & _ & ->)].
  - exfalso. apply Hmiss. split; [lra | right; lra].
  - replace (Qltb 0 near) with false
      by (symmetry; apply Qltb_ge; exact Hn).
    apply ray_end. apply clamp_unit. tauto.
Qed.
End Slabs.
End Ray.

(** *** The extent of the neighborhood *)

Section Extent.
Variable axis : vec3 Q.
Variable colors : list (vec3 Q).

Let proj (n : nat) : Q := dot (nth n colors (vec3_splat zero)) axis.

Lemma color_extent_fold (l : list nat) :
  forall e : vec2 Q,
    let e' := fold_left (color_extent_step axis colors) l e in
    x2 e' <= x2 e /\ y2 e <= y2 e' /\
    forall n, In n l -> x2 e' <= proj n <= y2 e'.
Proof.
  induction l as [| k l IH]; intros e; cbn [fold_left].
  - split; [apply Qle_refl |]. split; [apply Qle_refl |]. intros n [].
  - destruct (IH (color_extent_step axis colors e k)) as (Hx & Hy & Hin).
    cbn zeta in *.
    set (e' := fold_left _ l _) in *.
    unfold color_extent_step in Hx, Hy. cbn [x2 y2] in Hx, Hy.
    fold (proj k) in Hx, Hy.
    rewrite min_Qmin in Hx. rewrite max_Qmax in Hy.
    pose proof (Q.le_min_l (proj k) (x2 e)).
    pose proof (Q.le_min_r (proj k) (x2 e)).
    pose proof (Q.le_max_l (proj k) (y2 e)).
    pose proof (Q.le_max_r (proj k) (y2 e)).
    split; [lra |]. split; [lra |].
    intros n [<- | Hn]; [lra | now apply Hin].
Qed.

(** A colour of the neighborhood is inside the padded extent when the
    padding does not shrink it. *)
Lemma neighbor_inside (padding : vec2 Q) (n : nat) :
  x2 padding <= 0 -> 0 <= y2 padding ->
  (n < neighborhood_size)%nat ->
  x2 (color_extent padding axis colors) <= proj n
  <= y2 (color_extent padding axis colors).
Proof.
  intros Hx Hy Hn. unfold color_extent. cbn [x2 y2].
  destruct (color_extent_fold (seq 0 neighborhood_size)
              (mk_vec2 lit_1e9f (opp lit_1e9f))) as (_ & _ & Hin).
  cbn zeta in Hin.
  specialize (Hin n). rewrite in_seq in Hin.
  specialize (Hin (conj (Nat.le_0_l n) Hn)).
  change (@add Q scalar_Q) with Qplus. lra.
Qed.
End Extent.

Lemma padding_template_zero :
  x2 (@padding_template Q scalar_Q) == 0 /\
  y2 (@padding_template Q scalar_Q) == 0.
Proof. split; reflexivity. Qed.

(** X26.  Both clipping functions return a colour on the segment from
    the current colour to the history colour:
    [cur_color + t * (prev_color - cur_color)] with [0 <= t <= 1]. *)
Theorem clipping_on_segment {LT : Libm Q} (padding : vec2 Q)
    (axes : list (vec3 Q)) (axis_count : nat)
    (cur_color prev_color : vec3 Q) (gamma : Q) (colors : list (vec3 Q)) :
  (exists t, 0 <= t <= 1 /\
     veq (kdop_clipping Qle_bool padding axes axis_count cur_color
                        prev_color colors)
         (ray_point cur_color (vsub prev_color cur_color) t))
  /\
  (exists t, 0 <= t <= 1 /\
     veq (kdop_variance_clipping Qle_bool axes axis_count cur_color
                                 prev_color gamma colors)
         (ray_point cur_color (vsub prev_color cur_color) t)).
Proof.
  split; apply rectify_on_segment.
Qed.

(** X27.  When the current colour is one of the nine colours of the
    neighborhood and the ray to the history colour is not parallel to
    the planes of an axis, the colour [kdop_clipping] returns is inside
    the k-DOP of the neighborhood: on every axis its projection lies in
    the padded extent of the neighborhood.  This holds for a padding
    that does not shrink the extents, as are the paddings of both
    files. *)
Theorem kdop_clipping_inside (padding : vec2 Q)
    (axes : list (vec3 Q)) (axis_count : nat)
    (cur_color prev_color : vec3 Q) (colors : list (vec3 Q))
    (n a : nat) :
  x2 padding <= 0 -> 0 <= y2 padding ->
  (n < neighborhood_size)%nat -> nth n colors (vec3_splat zero) = cur_color ->
  (forall b, (b < axis_count)%nat ->
     ~ dot (vsub prev_color cur_color) (axis_at axes b) == 0) ->
  (a < axis_count)%nat ->
  inside_range
    (kdop_clipping Qle_bool padding axes axis_count cur_color prev_color
                   colors)
    (axis_at axes a) (color_extent padding (axis_at axes a) colors).
Proof.
  intros Hpx Hpy Hn Hcur Hd Ha.
  apply (@result_inside cur_color prev_color axes
           (fun b => color_extent padding (axis_at axes b) colors)
           axis_count Hd); [| exact Ha].
  intros b Hb. unfold inside_range. rewrite <- Hcur.
  now apply neighbor_inside.
Qed.

(** X28.  Under the same conditions a history colour that is itself
    inside the k-DOP of the neighborhood is returned unchanged. *)
Theorem kdop_clipping_keeps_inside_history (padding : vec2 Q)
    (axes : list (vec3 Q)) (axis_count : nat)
    (cur_color prev_color : vec3 Q) (colors : list (vec3 Q)) (n : nat) :
  x2 padding <= 0 -> 0 <= y2 padding ->
  (n < neighborhood_size)%nat -> nth n colors (vec3_splat zero) = cur_color ->
  (forall b, (b < axis_count)%nat ->
     ~ dot (vsub prev_color cur_color) (axis_at axes b) == 0) ->
  (forall b, (b < axis_count)%nat ->
     inside_range prev_color (axis_at axes b)
                  (color_extent padding (axis_at axes b) colors)) ->
  veq (kdop_clipping Qle_bool padding axes axis_count cur_color prev_color
                     colors)
      prev_color.
Proof.
  intros Hpx Hpy Hn Hcur Hd Hprev.
  apply (@result_unchanged cur_color prev_color axes
           (fun b => color_extent padding (axis_at axes b) colors)
           axis_count Hd); [| exact Hprev].
  intros b Hb. unfold inside_range. rewrite <- Hcur.
  now apply neighbor_inside.
Qed.

(** X29.  The colour [kdop_variance_clipping] returns is inside the
    variance extents, which contain the current colour by construction,
    when the ray is not parallel to the planes of an axis. *)
Theorem kdop_variance_clipping_inside {LT : Libm Q}
    (axes : list (vec3 Q)) (axis_count : nat)
    (cur_color prev_color : vec3 Q) (gamma : Q) (colors : list (vec3 Q))
    (a : nat) :
  (forall b, (b < axis_count)%nat ->
     ~ dot (vsub prev_color cur_color) (axis_at axes b) == 0) ->
  (a < axis_count)%nat ->
  inside_range
    (kdop_variance_clipping Qle_bool axes axis_count cur_color prev_color
                            gamma colors)
    (axis_at axes a)
    (variance_extent gamma (axis_at axes a) cur_color colors).
Proof.
  intros Hd Ha.
  apply (@result_inside cur_color prev_color axes
           (fun b => variance_extent gamma (axis_at axes b) cur_color colors)
           axis_count Hd); [| exact Ha].
  intros b Hb. unfold inside_range, variance_extent. cbn [x2 y2].
  rewrite min_Qmin, max_Qmax.
  split; [apply Q.le_min_r | apply Q.le_max_r].
Qed.

(** X30.  The padding of the template, [vec2(-epsilon +epsilon)], is
    the zero vector: the template does not pad the extents, while the
    file with the default axes widens every extent by [epsilon] on both
    sides. *)
Theorem template_padding_is_zero (axis : vec3 Q) (colors : list (vec3 Q)) :
  let unpadded := color_extent (mk_vec2 0 0) axis colors in
  let template := color_extent padding_template axis colors in
  let default := color_extent padding_default axis colors in
  (x2 template == x2 unpadded /\ y2 template == y2 unpadded) /\
  (x2 default == x2 unpadded - (1 # 100000) /\
   y2 default == y2 unpadded + (1 # 100000)) /\
  @padding_template IEEE.float IEEE.scalar_float
  = mk_vec2 (S754_zero false) (S754_zero false).
Proof.
  cbn zeta. unfold color_extent. cbn [x2 y2].
  generalize (fold_left (color_extent_step axis colors)
                (seq 0 neighborhood_size)
                (mk_vec2 (@lit_1e9f Q scalar_Q) (opp lit_1e9f))).
  intros e.
  change (@add Q scalar_Q) with Qplus.
  change (x2 (@padding_template Q scalar_Q))
    with (- (1 # 100000) + (1 # 100000)).
  change (y2 (@padding_template Q scalar_Q))
    with (- (1 # 100000) + (1 # 100000)).
  change (x2 (@padding_default Q scalar_Q)) with (- (1 # 100000)).
  change (y2 (@padding_default Q scalar_Q)) with (1 # 100000).
  split; [split; ring |]. split; [split; ring |].
  vm_compute. reflexivity.
Qed.

Lemma kdop_clipping_inside_witness :
  let axes := [mk_vec3 1 0 0; mk_vec3 0 1 0] in
  let cur_color := mk_vec3 0 0 0 in
  let prev_color := mk_vec3 5 3 0 in
  inside_range
    (kdop_clipping Qle_bool padding_default axes 2 cur_color prev_color
                   example_colors)
    (axis_at axes 1) (color_extent padding_default (axis_at axes 1)
                                   example_colors).
Proof.
  intros axes cur_color prev_color.
  apply (@kdop_clipping_inside padding_default axes 2 cur_color prev_color
           example_colors 0 1).
  - vm_compute. discriminate.
  - vm_compute. discriminate.
  - unfold neighborhood_size. lia.
  - reflexivity.
  - intros [| [| b]] Hb H; try lia; vm_compute in H; discriminate H.
  - lia.
Defined.

Lemma kdop_clipping_keeps_inside_history_witness :
  let axes := [mk_vec3 1 0 0; mk_vec3 0 1 0] in
  let cur_color := mk_vec3 0 0 0 in
  let prev_color := mk_vec3 (1 # 2) (1 # 3) 0 in
  veq (kdop_clipping Qle_bool padding_template axes 2 cur_color prev_color
                     example_colors)
      prev_color.
Proof.
  intros axes cur_color prev_color.
  apply (@kdop_clipping_keeps_inside_history padding_template axes 2
           cur_color prev_color example_colors 0).
  - vm_compute. discriminate.
  - vm_compute. discriminate.
  - unfold neighborhood_size. lia.
  - reflexivity.
  - intros [| [| b]] Hb H; try lia; vm_compute in H; discriminate H.
  - intros [| [| b]] Hb; try lia; split; vm_compute; discriminate.
Defined.

Lemma kdop_variance_clipping_inside_witness :
  let axes := [mk_vec3 1 0 0; mk_vec3 0 1 0] in
  let cur_color := mk_vec3 0 0 0 in
  let prev_color := mk_vec3 5 3 0 in
  inside_range
    (kdop_variance_clipping (LT := libm_Q) Qle_bool axes 2 cur_color
                            prev_color 1 example_colors)
    (axis_at axes 0)
    (variance_extent (LT := libm_Q) 1 (axis_at axes 0) cur_color
                     example_colors).
Proof.
  intros axes cur_color prev_color.
  apply (@kdop_variance_clipping_inside libm_Q axes 2 cur_color prev_color
           1 example_colors 0).
  - intros [| [| b]] Hb H; try lia; vm_compute in H; discriminate H.
  - lia.
Defined.
End ClippingProofs.

(** ** The order of floating-point numbers *)

Module FloatOrder.
Import IEEE FloatSpec FloatFacts DistanceSpec.

Lemma SFleb_refl (x : spec_float) : is_nan x = false -> SFleb x x = true.
Proof.
  unfold SFleb, SFcompare.
  destruct x as [[] | [] | | [] m e]; try reflexivity; try discriminate;
    intros _; rewrite Z.compare_refl;
    change (Pos.compare_cont Eq m m) with (Pos.compare m m);
    now rewrite Pos.compare_refl.
Qed.


Lemma SFltb_not_nan (x y : spec_float) :
  SFltb x y = true -> is_nan x = false /\ is_nan y = false.
Proof.
  destruct x as [[] | [] | | [] m1 e1], y as [[] | [] | | [] m2 e2];
    cbn; try discriminate; auto.
Qed.

Lemma SFltb_leb (x y : spec_float) : SFltb x y = true -> SFleb x y = true.
Proof.
  unfold SFltb, SFleb. destruct (SFcompare x y) as [[] |];
    try discriminate; reflexivity.
Qed.


Lemma SFltb_leb_trans (x y z : spec_float) :
  SFltb x y = true -> SFleb y z = true -> SFleb x z = true.
Proof.
  unfold SFltb, SFleb, SFcompare.
  destruct x as [[] | [] | | [] m1 e1], y as [[] | [] | | [] m2 e2],
           z as [[] | [] | | [] m3 e3];
    try (intros; reflexivity); try discriminate;
    try (intros _; discriminate); compare_cases.
Qed.

Lemma SFleb_ltb_trans (x y z : spec_float) :
  SFleb x y = true -> SFltb y z = true -> SFleb x z = true.
Proof.
  unfold SFltb, SFleb, SFcompare.
  destruct x as [[] | [] | | [] m1 e1], y as [[] | [] | | [] m2 e2],
           z as [[] | [] | | [] m3 e3];
    try (intros; reflexivity); try discriminate;
    try (intros _; discriminate); compare_cases.
Qed.

End FloatOrder.

(** ** [kdop_distance] on doubles *)

Module DistanceFloat.
Import Exact.
Import IEEE FloatSpec FloatFacts DistanceSpec FloatOrder.

Section Distance.
Variable pos : vec3 double.
Variable axes : list (vec3 double).
Variable ranges : list (vec2 double).

Let amount (a : nat) : double :=
  axis_distance pos (axis_at axes a) (range_at ranges a).

(** The loop keeps a running maximum in the order of [double]: it never
    decreases, no term met exceeds it, and it is the start value or a
    term that exceeded the start value. *)
Lemma distance_fold_d (l : list nat) :
  forall m0 : double,
    let D := fold_left (distance_step pos axes ranges) l m0 in
    SFle m0 D /\
    (forall a, In a l -> SFltb D (amount a) = false) /\
    (D = m0 \/ exists a, In a l /\ D = amount a /\ SFltb m0 D = true).
Proof.
  induction l as [| a l IH]; intros m0; cbn [fold_left].
  - split; [apply SFle_refl |]. split; [intros a [] | now left].
  - destruct (IH (distance_step pos axes ranges m0 a)) as (Hle & Hub & Hat).
    assert (Estep : distance_step pos axes ranges m0 a =
                    if SFltb m0 (amount a) then amount a else m0)
      by reflexivity.
    set (m1 := distance_step pos axes ranges m0 a) in *.
    set (D := fold_left (distance_step pos axes ranges) l m1) in *.
    clearbody m1 D.
    destruct (SFltb m0 (amount a)) eqn:E; subst m1.
    + assert (Hm : SFle m0 D)
        by (apply SFle_trans with (amount a); [now right | exact Hle]).
      split; [exact Hm |]. split.
      * intros b [<- | Hb]; [| now apply Hub].
        destruct Hle as [<- | Hlt];
          [apply SFltb_irrefl | now apply SFltb_asym].
      * right. destruct Hat as [-> | (b & Hb & Eb & Hlt)].
        -- exists a. split; [now left |]. split; [reflexivity | exact E].
        -- exists b. split; [now right |]. split; [exact Eb |].
           exact (SFltb_trans _ _ _ E Hlt).
    + split; [exact Hle |]. split.
      * intros b [<- | Hb]; [| now apply Hub].
        destruct Hle as [<- | Hlt]; [exact E |].
        destruct (SFltb D (amount a)) eqn:E'; [| reflexivity].
        rewrite (SFltb_trans _ _ _ Hlt E') in E. discriminate.
      * destruct Hat as [-> | (b & Hb & Eb & Hlt)]; [now left |].
        right. exists b. split; [now right |]. now split.
Qed.
End Distance.

(** C4, as the code has it.  On doubles [kdop_distance] is the largest
    of the terms of the axes, where the term of an axis is [min - p] when
    the projection [p] of the point is below [min], [p - max] when it is
    above [max], and 0 otherwise: the result is 0 or a positive term, no
    term exceeds it, it is neither negative nor a NaN, and it is 0
    whenever no projection is below its minimum or above its maximum.  A
    NaN projection is neither, so the converse needs exact arithmetic,
    where the result is 0 exactly when the point satisfies the constraints
    of every axis. *)
Theorem kdop_distance_largest_term :
  (forall (pos : vec3 double) (axis_count : nat)
          (axes : list (vec3 double)) (ranges : list (vec2 double)),
     let D := kdop_distance pos axis_count axes ranges in
     let p a := dot pos (axis_at axes a) in
     let term a :=
       if SFltb (p a) (x2 (range_at ranges a))
       then SFsub prec64 emax64 (x2 (range_at ranges a)) (p a)
       else if SFltb (y2 (range_at ranges a)) (p a)
            then SFsub prec64 emax64 (p a) (y2 (range_at ranges a))
            else Z2double 0 in
     (D = Z2double 0 \/
      exists a, (a < axis_count)%nat /\ D = term a /\
                SFltb (Z2double 0) D = true) /\
     (forall a, (a < axis_count)%nat -> SFltb D (term a) = false) /\
     SFltb D (Z2double 0) = false /\
     is_nan D = false /\
     ((forall a, (a < axis_count)%nat ->
         SFltb (p a) (x2 (range_at ranges a)) = false /\
         SFltb (y2 (range_at ranges a)) (p a) = false) ->
      D = Z2double 0))
  /\
  (forall (pos : vec3 Q) (axis_count : nat)
          (axes : list (vec3 Q)) (ranges : list (vec2 Q)),
     let D := kdop_distance pos axis_count axes ranges in
     let amount a :=
       Spec.outside_amount (dot pos (axis_at axes a)) (range_at ranges a) in
     (0 <= D /\
      (forall a, (a < axis_count)%nat -> amount a <= D) /\
      (D == 0 \/ exists a, (a < axis_count)%nat /\ D == amount a) /\
      (D == 0 <->
       forall a, (a < axis_count)%nat ->
         Spec.inside_range pos (axis_at axes a) (range_at ranges a)))%Q).
Proof.
  split; [| exact DistanceProofs.kdop_distance_max_violation].
  intros pos axis_count axes ranges D p term.
  destruct (distance_fold_d pos axes ranges (seq 0 axis_count) (Z2double 0))
    as (Hle & Hub & Hat).
  change (fold_left (distance_step pos axes ranges) (seq 0 axis_count)
            (Z2double 0)) with D in Hle, Hub, Hat.
  change (forall a, In a (seq 0 axis_count) -> SFltb D (term a) = false)
    in Hub.
  assert (Hat' : D = Z2double 0 \/
                 exists a, (a < axis_count)%nat /\ D = term a /\
                           SFltb (Z2double 0) D = true).
  { destruct Hat as [E | (a & Ha & E & Hlt)]; [now left |].
    right. exists a. apply in_seq in Ha. split; [lia |].
    split; [exact E | exact Hlt]. }
  split; [exact Hat' |].
  split; [intros a Ha; apply Hub, in_seq; lia |].
  split.
  { destruct Hle as [<- | Hlt]; [reflexivity | now apply SFltb_asym]. }
  split.
  { destruct Hle as [<- | Hlt]; [reflexivity |].
    now apply SFltb_not_nan in Hlt. }
  intros Hall. destruct Hat' as [E | (a & Ha & E & Hlt)]; [exact E |].
  destruct (Hall a Ha) as [H1 H2]. unfold term in E. rewrite H1, H2 in E.
  rewrite E in Hlt. discriminate.
Qed.

(** C4 fails as stated.  With the axis (1, 0, 0) given twice the first
    vertex the kernel collects is a NaN vector; its distance is 0, it
    passes the filter, and yet it satisfies no constraint. *)
Lemma nan_vertex_distance_zero :
  let sides := collect_vertices (ST := scalar_double)
                 2 parallel_axes parallel_ranges in
  let pos := nth 0 (nth 0 sides []) (vec3_splat (Z2double 0)) in
  (0 < length (nth 0 sides []))%nat /\
  pos = mk_vec3 S754_nan S754_nan S754_nan /\
  kdop_distance pos 2 parallel_axes parallel_ranges = Z2double 0 /\
  ~ inside_range_d pos (axis_at parallel_axes 0)
                   (range_at parallel_ranges 0) /\
  ~ distance_contract_d pos 2 parallel_axes parallel_ranges.
Proof.
  intros sides pos.
  assert (Epos : pos = mk_vec3 S754_nan S754_nan S754_nan)
    by (vm_compute; reflexivity).
  assert (Hout : ~ inside_range_d pos (axis_at parallel_axes 0)
                     (range_at parallel_ranges 0)).
  { rewrite Epos. intros [H _]. vm_compute in H. discriminate. }
  split; [vm_compute; lia |]. split; [exact Epos |].
  split; [rewrite Epos; vm_compute; reflexivity |].
  split; [exact Hout |].
  intros [H _]. apply Hout. apply H; [| lia].
  rewrite Epos. vm_compute. reflexivity.
Qed.
End DistanceFloat.

(** ** The extents of [find_kdop_volume] in [float] *)

Section RunningExtreme.
Variable A : Type.
Variable lt : A -> A -> bool.
Hypothesis lt_irrefl : forall x, lt x x = false.
Hypothesis lt_asym : forall x y, lt x y = true -> lt y x = false.
Hypothesis lt_trans :
  forall x y z, lt x y = true -> lt y z = true -> lt x z = true.

End RunningExtreme.

Module ExtentFloat.
Import IEEE Float FloatSpec FloatFacts DistanceSpec FloatOrder ExtentSpec.






End ExtentFloat.

(** ** The axes the sphere optimizer prints *)

Module PrintedAxes.
Import IEEE Float FloatSpec PrintSpec PrintProofs.

Local Notation "'vzero'" := (vec3_splat (zero : float)).

Lemma zero_times (k : float) :
  zero_or_nan (SFmul prec32 emax32 (Z2float 0) k).
Proof. destruct k as [[] | [] | | [] m e]; exact I. Qed.

(** C9.  When the loop of [main] of sphere_optimizer.cc has ended, the
    axis printed for every index below [axis_count] is computed from the
    best axis [b] of that index in two steps.  A component [c] of [b]
    with [fabs(c) < 5e-3], the comparison made in [double], is replaced
    by 0 and the others are kept; the vector [s] so obtained is
    multiplied, component by component, by [1 / sqrt(dot(s, s))] in
    [float].  So a component below the threshold is printed as a zero (or
    a NaN, when nothing is left of the axis).  This is done for the
    locked axes too, which still are the normalized axes of the command
    line.  For the locked axis (1, 0.001, 0) the printed axis (1, 0, 0)
    differs from the axis the optimizer holds, which is the normalized
    axis of the command line; for (3, 4, 0.02) the third component is
    dropped and the renormalization changes the two that are kept; for
    (1, 0.0051, 0) nothing is below the threshold and the axis is
    printed as it is held. *)
Theorem printed_axes_snapped_and_renormalized :
  (forall (R : Type) (sphericalRand : float -> R -> vec3 float * R)
          (atan2 : double -> double -> double)
          (axis_count : nat) (forced : list double) (g : R) (fuel : nat)
          (i : nat),
     let run := SphereOptimizer.main sphericalRand atan2 axis_count forced
                  g fuel in
     let b := nth i (SphereOptimizer.best_axes (fst run)) vzero in
     let printed := nth i (snd run) vzero in
     let below (c : float) :=
       SFltb (to_double (SFabs c)) (double_lit 5 1000) in
     let snap (c : float) := if below c then Z2float 0 else c in
     let s := mk_vec3 (snap (vx b)) (snap (vy b)) (snap (vz b)) in
     let k :=
       SFdiv prec32 emax32 (Z2float 1)
         (SFsqrt prec32 emax32
            (SFadd prec32 emax32
               (SFadd prec32 emax32
                  (SFmul prec32 emax32 (vx s) (vx s))
                  (SFmul prec32 emax32 (vy s) (vy s)))
               (SFmul prec32 emax32 (vz s) (vz s)))) in
     (i < axis_count)%nat ->
     printed = mk_vec3 (SFmul prec32 emax32 (vx s) k)
                       (SFmul prec32 emax32 (vy s) k)
                       (SFmul prec32 emax32 (vz s) k) /\
     (below (vx b) = true -> zero_or_nan (vx printed)) /\
     (below (vy b) = true -> zero_or_nan (vy printed)) /\
     (below (vz b) = true -> zero_or_nan (vz printed)) /\
     ((i < snd (read_forced axis_count forced))%nat ->
      b = normalize_f (nth i (fst (read_forced axis_count forced)) vzero)))
  /\
  (forall (R : Type) (sphericalRand : float -> R -> vec3 float * R)
          (atan2 : double -> double -> double) (g : R) (fuel : nat),
     let run forced := SphereOptimizer.main sphericalRand atan2 1 forced
                         g fuel in
     let held forced :=
       nth 0 (SphereOptimizer.best_axes (fst (run forced))) vzero in
     let printed forced := nth 0 (snd (run forced)) vzero in
     let tilted := [Z2double 1; double_lit 1 1000; Z2double 0] in
     let slanted := [Z2double 3; Z2double 4; double_lit 2 100] in
     let kept := [Z2double 1; double_lit 51 10000; Z2double 0] in
     (held tilted =
        normalize_f (mk_vec3 (Z2float 1) (float_lit 1 1000) (Z2float 0)) /\
      held tilted = mk_vec3 (S754_finite false 16777208 (-24))
                            (S754_finite false 8589931 (-33))
                            (S754_zero false) /\
      printed tilted = mk_vec3 (Z2float 1) (Z2float 0) (Z2float 0) /\
      printed tilted <> held tilted) /\
     (held slanted = mk_vec3 (S754_finite false 10066249 (-24))
                             (S754_finite false 13421665 (-24))
                             (S754_finite false 8589865 (-31)) /\
      printed slanted = mk_vec3 (S754_finite false 10066331 (-24))
                                (S754_finite false 13421774 (-24))
                                (S754_zero false)) /\
     (held kept = mk_vec3 (S754_finite false 16776998 (-24))
                          (S754_finite false 10952025 (-31))
                          (S754_zero false) /\
      printed kept = held kept)).
Proof.
  assert (General :
    forall (R : Type) (sphericalRand : float -> R -> vec3 float * R)
           (atan2 : double -> double -> double)
           (axis_count : nat) (forced : list double) (g : R) (fuel : nat)
           (i : nat),
      let run := SphereOptimizer.main sphericalRand atan2 axis_count forced
                   g fuel in
      (i < axis_count)%nat ->
      nth i (snd run) vzero =
        SphereOptimizer.snap_axis
          (nth i (SphereOptimizer.best_axes (fst run)) vzero) /\
      ((i < snd (read_forced axis_count forced))%nat ->
       nth i (SphereOptimizer.best_axes (fst run)) vzero =
         normalize_f (nth i (fst (read_forced axis_count forced)) vzero))).
  { intros R sphericalRand atan2 axis_count forced g fuel i run Hi.
    unfold run, SphereOptimizer.main. cbn [fst snd].
    split; [now apply printed_axes_nth |].
    intros Hlocked.
    rewrite loop_locked by exact Hlocked.
    unfold SphereOptimizer.init. cbn [SphereOptimizer.best_axes].
    assert (Hlen : (i < length (fst (read_forced axis_count forced)))%nat)
      by now rewrite read_forced_length.
    destruct (@normalize_locked_nth (snd (read_forced axis_count forced))
                (fst (read_forced axis_count forced)) i Hlen) as [_ E].
    rewrite E. apply Nat.ltb_lt in Hlocked. now rewrite Hlocked. }
  split.
  - intros R sphericalRand atan2 axis_count forced g fuel i run b printed
           below snap s k Hi.
    destruct (General R sphericalRand atan2 axis_count forced g fuel i Hi)
      as [Hprint Hbest].
    fold run in Hprint, Hbest. fold b in Hprint, Hbest.
    fold printed in Hprint.
    assert (E : printed = mk_vec3 (SFmul prec32 emax32 (vx s) k)
                                  (SFmul prec32 emax32 (vy s) k)
                                  (SFmul prec32 emax32 (vz s) k))
      by (rewrite Hprint; reflexivity).
    split; [exact E |].
    split; [| split; [| split; [| exact Hbest]]];
      intros Hb; rewrite E; cbn [vx vy vz s]; unfold snap; rewrite Hb;
      apply zero_times.
  - intros R sphericalRand atan2 g fuel run held printed tilted slanted kept.
    assert (Run : forall forced,
              (0 < snd (read_forced 1 forced))%nat ->
              held forced =
                normalize_f (nth 0 (fst (read_forced 1 forced)) vzero) /\
              printed forced = SphereOptimizer.snap_axis (held forced)).
    { intros forced Hl.
      destruct (General R sphericalRand atan2 1%nat forced g fuel 0%nat)
        as [Hp Hb]; [lia |].
      split; [now apply Hb | exact Hp]. }
    destruct (Run tilted) as [Ht Pt]; [vm_compute; lia |].
    destruct (Run slanted) as [Hs Ps]; [vm_compute; lia |].
    destruct (Run kept) as [Hk Pk]; [vm_compute; lia |].
    rewrite Pt, Ps, Pk, Ht, Hs, Hk.
    split; [| split].
    + split; [vm_compute; reflexivity |].
      split; [vm_compute; reflexivity |].
      split; [vm_compute; reflexivity |].
      vm_compute. discriminate.
    + split; vm_compute; reflexivity.
    + split; vm_compute; reflexivity.
Qed.
End PrintedAxes.

(** ** The order of the axes *)

Module OrderProofs.
Import IEEE Float FloatSpec FloatFacts VolumeProofs ExtentSpec OrderSpec.
Import Image CostProofs.

Local Notation "'vzero'" := (vec3_splat (zero : float)).

Section Agree.
Variable a1 a2 : double -> double -> double.


End Agree.




(** In the two runs, keys of a side that have the same angle are the
    same key, and keys of different angles are at least 1e-9 apart: far
    more than the error of an [atan2] on doubles. *)
Lemma dup_keys_angles_separated :
  forallb (fun K => angles_distinct_b K &&
                    angles_separated_b (1 # 1000000000) K)
    (run_key_lists 5 dup_axes (tile_extents 5 dup_axes) ++
     run_key_lists 5 dup_axes_reversed (tile_extents 5 dup_axes_reversed))
  = true.
Proof. vm_compute. reflexivity. Qed.


Section Decode.
Variable powf : float -> float -> float.
Hypothesis pow_zero : powf (Z2float 0) gamma = Z2float 0.
Hypothesis pow_one : powf (Z2float 1) gamma = Z2float 1.



End Decode.


(** The statements below name the two runs; their arguments are all
    explicit. *)
#[local] Unset Implicit Arguments.



Section Tile.
Variable atan2 : double -> double -> double.
Variable powf : float -> float -> float.
Variable float_to_int : float -> Z.
Variable neighborhood0 : nat -> list (vec3 float).
Variable axis_extents0 : nat -> list (vec2 float).
Hypothesis pow_zero : powf (Z2float 0) gamma = Z2float 0.
Hypothesis pow_one : powf (Z2float 1) gamma = Z2float 1.
Hypothesis neighborhood_size : forall a, length (neighborhood0 a) = 9%nat.
Hypothesis extents_size :
  forall a, length (axis_extents0 a) = EXTENT_BUFFER_SIZE.


End Tile.


End OrderProofs.
